(** * Asynchronous job orchestration of the dyslexia-ai service

    A shallow embedding of the job registry ([job_manager.py]), the staged
    processor ([async_job_processor.py]), the webhook notifier
    ([webhook_service.py]), the PRD processor and its router
    ([prd_async_processor.py], [async_prd_router.py]), the bus publisher
    ([redis_pub_sub_service.py]), the LCEL pipeline ([main_pipeline.py]),
    the concurrent transformer ([transformation_service.py]), the Spring
    callback ([spring_callback_service.py]) with its URL
    ([env_config.py]), the object keys of the uploader
    ([s3_json_uploader.py]), the read endpoints of the job router
    ([async_processing_router_v2.py]) and the progress tracker
    ([progress_service.py]).

    Conventions.  Python floats that hold percentages are exact rationals
    ([Q]); dictionaries are [gmap]s; an awaited external call is an oracle
    whose outcome is either a value or a raised exception; [CancelledError]
    is a [BaseException], so an [except Exception] handler lets it through.
    The key-value store answers every command: the handlers that only log
    a store error are not entered.  Timestamps, log lines and the expiry of
    keys are left out. *)

From Stdlib Require Import ZArith QArith Qminmax Qround Lqa Lia Ascii String.
From stdpp Require Import base option list sorting gmap strings.

Local Open Scope Z_scope.

(** ** Exceptions and outcomes of awaited calls *)

Inductive exn : Type :=
  | Exception (msg : string)
  | CancelledError.

Inductive outcome (A : Type) : Type :=
  | Ok (a : A)
  | Raise (e : exn).
Arguments Ok {A} a.
Arguments Raise {A} e.


(** Python's [str(e)] on the exceptions of the model. *)
Definition exn_str (e : exn) : string :=
  match e with
  | Exception m => m
  | CancelledError => ""
  end.

(** Python's two-argument [min] and [max]: the first argument is kept
    unless the second is strictly smaller (resp. larger). *)
Definition py_min (a b : Q) : Q := if Qlt_le_dec b a then b else a.
Definition py_max (a b : Q) : Q := if Qlt_le_dec a b then b else a.

(** ** The string methods the code relies on (ASCII range) *)

Module PyStr.

Definition lower_ascii (c : ascii) : ascii :=
  let n := nat_of_ascii c in
  if ((65 <=? n) && (n <=? 90))%nat then ascii_of_nat (n + 32) else c.

(** [s.lower()] *)
Fixpoint lower (s : string) : string :=
  match s with
  | EmptyString => EmptyString
  | String c s' => String (lower_ascii c) (lower s')
  end.

(** [s.startswith(p)] *)
Definition startswith (p s : string) : bool := String.prefix p s.

(** [sub in s] *)
Fixpoint contains (sub s : string) : bool :=
  String.prefix sub s
  || match s with
     | EmptyString => false
     | String _ s' => contains sub s'
     end.

(** [s.endswith(p)] *)
Definition endswith (p s : string) : bool :=
  String.prefix (String.rev p) (String.rev s).

Definition is_space (c : ascii) : bool :=
  let n := nat_of_ascii c in
  ((n =? 32) || ((9 <=? n) && (n <=? 13)) || ((28 <=? n) && (n <=? 31)))%nat.

(** [not s.strip()]: only whitespace. *)
Fixpoint is_blank (s : string) : bool :=
  match s with
  | EmptyString => true
  | String c s' => is_space c && is_blank s'
  end.

End PyStr.

(** ** A state-and-exception monad for the stateful code *)

Module Py.

Definition M (S A : Type) : Type := S -> outcome A * S.

Definition ret {S A} (a : A) : M S A := fun s => (Ok a, s).

Definition raise {S A} (e : exn) : M S A := fun s => (Raise e, s).

Definition bind {S A B} (m : M S A) (k : A -> M S B) : M S B :=
  fun s =>
    match m s with
    | (Ok a, s') => k a s'
    | (Raise e, s') => (Raise e, s')
    end.

Definition get {S} : M S S := fun s => (Ok s, s).

Definition modify {S} (f : S -> S) : M S unit := fun s => (Ok tt, f s).

(** [try: body / except Exception as e: handler(str(e))]: a
    [CancelledError] is not an [Exception] and passes through. *)
Definition try_except {S A} (body : M S A) (handler : string -> M S A)
    : M S A :=
  fun s =>
    match body s with
    | (Raise (Exception msg), s') => handler msg s'
    | r => r
    end.

(** [try: body / finally: fin]. *)
Definition try_finally {S A} (body : M S A) (fin : M S unit) : M S A :=
  fun s =>
    let (r, s') := body s in
    match fin s' with
    | (Ok _, s'') => (r, s'')
    | (Raise e, s'') => (Raise e, s'')
    end.

End Py.

Declare Scope py_scope.
Delimit Scope py_scope with py.
Notation "x <- c1 ;; c2" := (Py.bind c1 (fun x => c2))
  (at level 100, c1 at next level, right associativity) : py_scope.
Notation "c1 ;; c2" := (Py.bind c1 (fun _ => c2))
  (at level 100, right associativity) : py_scope.

(** ** job_manager.py *)

Module JobManager.

Inductive JobStatus : Type :=
  | PENDING
  | PREPROCESSING
  | TRANSFORMING
  | GENERATING_IMAGES
  | ANALYZING_PHONEMES
  | WEBHOOK_SENDING
  | COMPLETED
  | FAILED.

Definition JobStatus_value (s : JobStatus) : string :=
  match s with
  | PENDING => "pending"
  | PREPROCESSING => "preprocessing"
  | TRANSFORMING => "transforming"
  | GENERATING_IMAGES => "generating_images"
  | ANALYZING_PHONEMES => "analyzing_phonemes"
  | WEBHOOK_SENDING => "webhook_sending"
  | COMPLETED => "completed"
  | FAILED => "failed"
  end.

#[global] Instance JobStatus_eq_dec : EqDecision JobStatus.
Proof. solve_decision. Defined.

(** The statuses after which the pipeline writes nothing more. *)
Definition terminal (s : JobStatus) : bool :=
  match s with
  | COMPLETED | FAILED => true
  | _ => false
  end.

Inductive JobStep : Type :=
  | INITIALIZATION
  | PDF_EXTRACTION
  | TEXT_NORMALIZATION
  | CHUNKING
  | BLOCK_TRANSFORMATION
  | IMAGE_GENERATION
  | PHONEME_ANALYSIS
  | BLOCK_WORD_PHONEME_ANALYSIS
  | FINAL_PROCESSING
  | WEBHOOK_NOTIFICATION
  | STEP_COMPLETED.

#[global] Instance JobStep_eq_dec : EqDecision JobStep.
Proof. solve_decision. Defined.

(** [self.step_weights], in insertion order. *)
Definition step_weights : list (JobStep * Z) :=
  [ (INITIALIZATION, 5); (PDF_EXTRACTION, 10); (TEXT_NORMALIZATION, 10);
    (CHUNKING, 10); (BLOCK_TRANSFORMATION, 30); (IMAGE_GENERATION, 20);
    (PHONEME_ANALYSIS, 10); (BLOCK_WORD_PHONEME_ANALYSIS, 3);
    (FINAL_PROCESSING, 1); (WEBHOOK_NOTIFICATION, 1); (STEP_COMPLETED, 0) ].

(** [list(self.step_weights.keys()).index(step)]; [None] stands for the
    [ValueError] of a missing key. *)
Fixpoint index_of (step : JobStep) (l : list (JobStep * Z)) : option nat :=
  match l with
  | [] => None
  | (s, _) :: l' =>
      if decide (s = step) then Some O else S <$> index_of step l'
  end.

Definition sum_weights (l : list (JobStep * Z)) : Z :=
  foldr (fun sw acc => sw.2 + acc) 0 l.

Definition _calculate_progress_percentage (current_step_index : nat) : Q :=
  if (length step_weights - 1 <=? current_step_index)%nat then 100%Q
  else
    let completed_weight := sum_weights (take current_step_index step_weights) in
    let total_weight :=
      sum_weights (filter (fun sw => sw.1 <> STEP_COMPLETED) step_weights) in
    py_min 100 ((inject_Z completed_weight / inject_Z total_weight) * 100)%Q.

(** The stored snapshot.  Timestamps, the estimated completion time and
    the free-form [step_details] are not read by any decision of the
    code and are left out. *)
Record JobProgress : Type := mkJobProgress {
  job_id : string;
  status : JobStatus;
  current_step : JobStep;
  progress_percentage : Q;
  total_steps : nat;
  current_step_index : nat;
  error_message : option string
}.

Record JobResult : Type := mkJobResult {
  result_job_id : string;
  result_status : JobStatus;
  filename : string;
  result_data : string;
  result_error_message : option string
}.

(** The key-value store behind [redis_service]: the two key families
    [job:progress:{id}] and [job:result:{id}], and the history of every
    [setex] issued on them (oldest first). *)
Record Redis : Type := mkRedis {
  kv_progress : gmap string JobProgress;
  kv_result : gmap string JobResult;
  progress_writes : list JobProgress;
  result_writes : list JobResult
}.

Definition empty_redis : Redis := mkRedis ∅ ∅ [] [].

Definition setex_progress (p : JobProgress) (r : Redis) : Redis :=
  mkRedis (<[job_id p := p]> (kv_progress r)) (kv_result r)
          (progress_writes r ++ [p]) (result_writes r).

Definition setex_result (x : JobResult) (r : Redis) : Redis :=
  mkRedis (kv_progress r) (<[result_job_id x := x]> (kv_result r))
          (progress_writes r) (result_writes r ++ [x]).

Definition create_job (id : string) (r : Redis) : Redis :=
  setex_progress
    (mkJobProgress id PENDING INITIALIZATION 0%Q
                   (length step_weights - 1)%nat 0%nat None) r.

Definition get_progress (id : string) (r : Redis) : option JobProgress :=
  kv_progress r !! id.

Definition get_result (id : string) (r : Redis) : option JobResult :=
  kv_result r !! id.

Definition update_progress (id : string) (st : JobStatus) (step : JobStep)
    (err : option string) (r : Redis) : bool * Redis :=
  match get_progress id r with
  | None => (false, r)
  | Some existing =>
      match index_of step step_weights with
      | None => (false, r)
      | Some idx =>
          let pct := _calculate_progress_percentage idx in
          (true,
           setex_progress
             (mkJobProgress id st step pct (total_steps existing) idx err) r)
      end
  end.

Definition save_result (id : string) (data : string) (fname : string)
    (r : Redis) : bool * Redis :=
  match get_progress id r with
  | None => (false, r)
  | Some _ =>
      let r1 := setex_result (mkJobResult id COMPLETED fname data None) r in
      let r2 := (update_progress id COMPLETED STEP_COMPLETED None r1).2 in
      (true, r2)
  end.

Definition mark_failed (id : string) (err : string) (r : Redis)
    : bool * Redis :=
  update_progress id FAILED STEP_COMPLETED (Some err) r.

End JobManager.

(** ** webhook_service.py and async_job_processor.py *)

Module AsyncJobProcessor.
Import JobManager.

(** [ProcessingStage]: (start_percent, end_percent). *)
Inductive ProcessingStage : Type :=
  | ST_INITIALIZATION
  | ST_PDF_EXTRACTION
  | ST_TEXT_PROCESSING
  | ST_BLOCK_TRANSFORMATION
  | ST_IMAGE_GENERATION
  | ST_PHONEME_ANALYSIS
  | ST_FINAL_PROCESSING.

Definition start_percent (s : ProcessingStage) : Q :=
  match s with
  | ST_INITIALIZATION => 0
  | ST_PDF_EXTRACTION => 5
  | ST_TEXT_PROCESSING => 20
  | ST_BLOCK_TRANSFORMATION => 30
  | ST_IMAGE_GENERATION => 60
  | ST_PHONEME_ANALYSIS => 75
  | ST_FINAL_PROCESSING => 90
  end%Q.

Definition end_percent (s : ProcessingStage) : Q :=
  match s with
  | ST_INITIALIZATION => 5
  | ST_PDF_EXTRACTION => 20
  | ST_TEXT_PROCESSING => 30
  | ST_BLOCK_TRANSFORMATION => 60
  | ST_IMAGE_GENERATION => 75
  | ST_PHONEME_ANALYSIS => 90
  | ST_FINAL_PROCESSING => 100
  end%Q.

Definition _get_job_status (stage : ProcessingStage) : JobStatus :=
  match stage with
  | ST_INITIALIZATION => PENDING
  | ST_PDF_EXTRACTION => PREPROCESSING
  | ST_TEXT_PROCESSING => PREPROCESSING
  | ST_BLOCK_TRANSFORMATION => TRANSFORMING
  | ST_IMAGE_GENERATION => GENERATING_IMAGES
  | ST_PHONEME_ANALYSIS => ANALYZING_PHONEMES
  | ST_FINAL_PROCESSING => TRANSFORMING
  end.

Definition _get_job_step (stage : ProcessingStage) : JobStep :=
  match stage with
  | ST_INITIALIZATION => INITIALIZATION
  | ST_PDF_EXTRACTION => PDF_EXTRACTION
  | ST_TEXT_PROCESSING => CHUNKING
  | ST_BLOCK_TRANSFORMATION => BLOCK_TRANSFORMATION
  | ST_IMAGE_GENERATION => IMAGE_GENERATION
  | ST_PHONEME_ANALYSIS => PHONEME_ANALYSIS
  | ST_FINAL_PROCESSING => FINAL_PROCESSING
  end.

Record ProcessingContext : Type := mkContext {
  ctx_job_id : string;
  ctx_filename : string;
  webhook_url : option string;
  file_path : string
}.

(** [if context.webhook_url:] is false for [None] and for [""]. *)
Definition truthy (u : option string) : option string :=
  match u with
  | Some s => if decide (s = "") then None else Some s
  | None => None
  end.

(** What the orchestrator hands back: [{"success": True, "data": ...}]
    or [{"success": False, "error": ...}]. *)
Inductive OrchResult : Type :=
  | OrchSuccess (data : string)
  | OrchFailure (error : option string).

(** The process-wide state the processor works on. *)
Record World : Type := mkWorld {
  redis : Redis;
  active_jobs : gmap string nat;
  cancel_requested : gset nat;
  temp_files : gset string;
  posts : nat;
  sleeps : list Z
}.

Definition set_redis (r : Redis) (w : World) : World :=
  mkWorld r (active_jobs w) (cancel_requested w) (temp_files w)
          (posts w) (sleeps w).

(** The outcomes of the awaited calls of one run. *)
Record Env : Type := mkEnv {
  file_read : outcome unit;
  orchestrator : outcome OrchResult;
  post : nat -> outcome Z;
  sleep_cancelled : nat -> bool
}.

Local Open Scope py_scope.

Definition lift_redis {A} (f : Redis -> A * Redis) : Py.M World A :=
  fun w => let (a, r) := f (redis w) in (Ok a, set_redis r w).

Definition of_outcome {A} (o : outcome A) : Py.M World A :=
  fun w => (o, w).

Section Run.
Variable env : Env.

(** *** webhook_service.py *)

Definition max_retry_attempts : nat := 3.
Definition retry_delay : Z := 2.

Definition client_post : Py.M World Z :=
  fun w =>
    (post env (posts w),
     mkWorld (redis w) (active_jobs w) (cancel_requested w)
             (temp_files w) (S (posts w)) (sleeps w)).

Definition asyncio_sleep (d : Z) : Py.M World unit :=
  fun w =>
    let w' := mkWorld (redis w) (active_jobs w) (cancel_requested w)
                      (temp_files w) (posts w) (sleeps w ++ [d]) in
    if sleep_cancelled env (length (sleeps w))
    then (Raise CancelledError, w') else (Ok tt, w').

(** The [for attempt in range(self.max_retry_attempts)] loop, entered
    at [attempt] with [remaining] iterations to go. *)
Fixpoint retry_loop (remaining attempt : nat) : Py.M World bool :=
  match remaining with
  | O => Py.ret false
  | S remaining' =>
      let continue_ :=
        (if (attempt <? max_retry_attempts - 1)%nat
         then asyncio_sleep (retry_delay * (Z.of_nat attempt + 1))
         else Py.ret tt) ;;
        retry_loop remaining' (S attempt) in
      fun w =>
        match client_post w with
        | (Ok code, w1) =>
            if bool_decide (code = 200 \/ code = 201 \/ code = 202)
            then (Ok true, w1)
            else if bool_decide (400 <= code < 500)
            then (Ok false, w1)
            else continue_ w1
        | (Raise (Exception _), w1) => continue_ w1
        | (Raise CancelledError, w1) => (Raise CancelledError, w1)
        end
  end.

Definition _send_webhook_with_retry : Py.M World bool :=
  retry_loop max_retry_attempts 0.

Definition send_completion_webhook (id data fname : string)
    : Py.M World bool :=
  Py.try_except
    (success <- _send_webhook_with_retry ;;
     lift_redis (save_result id data fname) ;;
     Py.ret success)
    (fun _ =>
       lift_redis (save_result id data fname) ;;
       Py.ret false).

Definition send_failure_webhook (id err : string) : Py.M World bool :=
  Py.try_except
    (success <- _send_webhook_with_retry ;;
     lift_redis (mark_failed id err) ;;
     Py.ret success)
    (fun _ =>
       lift_redis (mark_failed id err) ;;
       Py.ret false).

(** *** async_job_processor.py *)

Definition _update_job_progress_direct (id : string) (st : JobStatus)
    (step : JobStep) (pct : Q) (r : Redis) : bool * Redis :=
  match get_progress id r with
  | None => (false, r)
  | Some existing =>
      (true,
       setex_progress
         (mkJobProgress id st step pct (total_steps existing)
                        (current_step_index existing) None) r)
  end.

Definition _update_stage_progress (ctx : ProcessingContext)
    (stage : ProcessingStage) (stage_progress : Q) : Py.M World unit :=
  let stage_progress := py_max 0 (py_min 100 stage_progress) in
  let total_progress :=
    (start_percent stage
     + (end_percent stage - start_percent stage) * (stage_progress / 100))%Q in
  lift_redis
    (_update_job_progress_direct (ctx_job_id ctx) (_get_job_status stage)
       (_get_job_step stage) total_progress) ;;
  Py.ret tt.

Definition _execute_pdf_extraction (ctx : ProcessingContext)
    : Py.M World string :=
  _update_stage_progress ctx ST_PDF_EXTRACTION 0 ;;
  result <- of_outcome (orchestrator env) ;;
  match result with
  | OrchFailure error =>
      Py.raise (Exception ("파이프라인 실패: "
                           +:+ default "Unknown error" error))
  | OrchSuccess data =>
      _update_stage_progress ctx ST_PDF_EXTRACTION 100 ;;
      Py.ret data
  end.

Definition _execute_block_transformation (ctx : ProcessingContext)
    : Py.M World unit :=
  _update_stage_progress ctx ST_BLOCK_TRANSFORMATION 0 ;;
  _update_stage_progress ctx ST_BLOCK_TRANSFORMATION 100.

Definition _execute_image_generation (ctx : ProcessingContext)
    : Py.M World unit :=
  _update_stage_progress ctx ST_IMAGE_GENERATION 0 ;;
  _update_stage_progress ctx ST_IMAGE_GENERATION 100.

Definition _execute_phoneme_analysis (ctx : ProcessingContext)
    : Py.M World unit :=
  _update_stage_progress ctx ST_PHONEME_ANALYSIS 0 ;;
  _update_stage_progress ctx ST_PHONEME_ANALYSIS 100.

Definition _execute_final_processing (ctx : ProcessingContext)
    : Py.M World unit :=
  _update_stage_progress ctx ST_FINAL_PROCESSING 0 ;;
  _update_stage_progress ctx ST_FINAL_PROCESSING 100.

Definition _handle_completion (ctx : ProcessingContext) (final_result : string)
    : Py.M World unit :=
  match truthy (webhook_url ctx) with
  | Some _ =>
      lift_redis (update_progress (ctx_job_id ctx) WEBHOOK_SENDING
                    WEBHOOK_NOTIFICATION None) ;;
      send_completion_webhook (ctx_job_id ctx) final_result
                              (ctx_filename ctx) ;;
      Py.ret tt
  | None =>
      lift_redis (save_result (ctx_job_id ctx) final_result
                    (ctx_filename ctx)) ;;
      lift_redis (update_progress (ctx_job_id ctx) COMPLETED
                    STEP_COMPLETED None) ;;
      Py.ret tt
  end.

Definition _handle_failure (ctx : ProcessingContext) (error_message : string)
    : Py.M World unit :=
  match truthy (webhook_url ctx) with
  | Some _ =>
      send_failure_webhook (ctx_job_id ctx) error_message ;; Py.ret tt
  | None =>
      lift_redis (mark_failed (ctx_job_id ctx) error_message) ;; Py.ret tt
  end.

Definition _cleanup (ctx : ProcessingContext) : Py.M World unit :=
  Py.modify (fun w =>
    mkWorld (redis w) (delete (ctx_job_id ctx) (active_jobs w))
            (cancel_requested w) (temp_files w ∖ {[file_path ctx]})
            (posts w) (sleeps w)).

Definition _process_pipeline (ctx : ProcessingContext) : Py.M World unit :=
  Py.try_finally
    (Py.try_except
       (_update_stage_progress ctx ST_INITIALIZATION 0 ;;
        of_outcome (file_read env) ;;
        final_result <- _execute_pdf_extraction ctx ;;
        _execute_block_transformation ctx ;;
        _execute_image_generation ctx ;;
        _execute_phoneme_analysis ctx ;;
        _execute_final_processing ctx ;;
        _handle_completion ctx final_result)
       (fun msg => _handle_failure ctx msg))
    (_cleanup ctx).

End Run.

(** [start_processing]: [job_id] is the identifier minted by
    [generate_job_id], [task] the handle of the task created for
    [_process_pipeline]. *)
Definition start_processing (job_id fname : string) (hook : option string)
    (task : nat) (w : World) : ProcessingContext * World :=
  let path := "./temp/" +:+ job_id +:+ "_" +:+ fname in
  (mkContext job_id fname hook path,
   mkWorld (create_job job_id (redis w)) (<[job_id := task]> (active_jobs w))
           (cancel_requested w) ({[path]} ∪ temp_files w) (posts w) (sleeps w)).

(** *** async_processing_router_v2.py: [DELETE /jobs/{job_id}] *)

Inductive Response : Type :=
  | Http200
  | Http404.

Definition cancel_job (job_id : string) (w : World) : Response * World :=
  match active_jobs w !! job_id with
  | None => (Http404, w)
  | Some task =>
      (Http200,
       mkWorld (redis w) (delete job_id (active_jobs w))
               ({[task]} ∪ cancel_requested w) (temp_files w)
               (posts w) (sleeps w))
  end.

End AsyncJobProcessor.

(** ** Blocks and chunks as the pipeline sees them *)

(** A block of the LLM answer: a JSON object (string-valued here) or any
    other JSON value. *)
Inductive block : Type :=
  | BDict (d : gmap string string)
  | BOther (repr : string).

(** [isinstance(b, dict) and b.get("type") == t] *)
Definition has_type (t : string) (b : block) : bool :=
  match b with
  | BDict d => bool_decide (d !! "type" = Some t)
  | BOther _ => false
  end.

(** [b["url"] = url] on a dictionary block. *)
Definition set_url (url : string) (b : block) : block :=
  match b with
  | BDict d => BDict (<["url" := url]> d)
  | BOther r => BOther r
  end.

(** A chunk handed over by preprocessing: a string, or (older format) a
    dictionary with an optional ["text"], or anything else. *)
Inductive pyval : Type :=
  | PStr (s : string)
  | PNone
  | PDict (text : option string)
  | POther (repr : string).

Definition is_str (v : pyval) : bool :=
  match v with PStr _ => true | _ => false end.

(** [(c.get("text") if isinstance(c, dict) else str(c))] *)
Definition chunk_text (c : pyval) : pyval :=
  match c with
  | PDict (Some t) => PStr t
  | PDict None => PNone
  | PStr s => PStr s
  | PNone => PStr "None"
  | POther r => PStr r
  end.

(** [if chunks and not isinstance(chunks[0], str): chunks = [...]] *)
Definition normalize_chunks (chunks : list pyval) : list pyval :=
  match chunks with
  | c :: _ => if is_str c then chunks else map chunk_text chunks
  | [] => chunks
  end.

(** ** redis_pub_sub_service.py *)

Module PubSub.

Inductive Message : Type :=
  | ProgressMsg (jobId : string) (progress : Z) (step : option string)
  | ResultMsg (jobId : string) (s3_url : string)
  | FailureMsg (jobId : string) (error : string).

Inductive PRDStatus : Type :=
  | PROCESSING
  | COMPLETED
  | FAILED.

#[global] Instance PRDStatus_eq_dec : EqDecision PRDStatus.
Proof. solve_decision. Defined.

(** The value stored under [job_status:{job_id}]. *)
Record JobStatusRec : Type := mkStatus {
  st_status : PRDStatus;
  st_progress : option Z;
  st_error : option string
}.

(** The state shared by the PRD processor, its router and the pipeline:
    what was published on the bus, the status records (with the history
    of [_set_job_status] calls), the processor's [active_jobs], the
    background tasks scheduled and not yet finished, the block-level
    tasks spawned and the callbacks posted. *)
Record World : Type := mkWorld {
  published : list Message;
  publish_calls : nat;
  kv_status : gmap string JobStatusRec;
  status_writes : list (string * JobStatusRec);
  active_jobs : gmap string nat;
  background : list (string * string);
  spawned : list (nat * block);
  callback_posts : nat
}.

Definition init : World := mkWorld [] 0 ∅ [] ∅ [] [] 0.

Section Bus.
(** [bus_ok n]: the [n]-th publication of the run (connect and
    publish) goes through; otherwise the publisher re-raises. *)
Variable bus_ok : nat -> bool.

Definition publish (m : Message) : Py.M World unit :=
  fun w =>
    let n := publish_calls w in
    if bus_ok n then
      (Ok tt,
       mkWorld (published w ++ [m]) (S n) (kv_status w) (status_writes w)
               (active_jobs w) (background w) (spawned w) (callback_posts w))
    else
      (Raise (Exception "publish failed"),
       mkWorld (published w) (S n) (kv_status w) (status_writes w)
               (active_jobs w) (background w) (spawned w) (callback_posts w)).

Definition publish_progress (job_id : string) (progress : Z)
    : Py.M World unit :=
  publish (ProgressMsg job_id progress None).

Definition publish_step_progress (job_id step_name : string) (progress : Z)
    : Py.M World unit :=
  publish (ProgressMsg job_id progress (Some step_name)).

Definition publish_result (job_id s3_url : string) : Py.M World unit :=
  publish (ResultMsg job_id s3_url).

Definition publish_failure (job_id error_message : string)
    : Py.M World unit :=
  publish (FailureMsg job_id error_message).
End Bus.

Definition is_result (m : Message) : bool :=
  match m with ResultMsg _ _ => true | _ => false end.

Definition is_failure (m : Message) : bool :=
  match m with FailureMsg _ _ => true | _ => false end.

End PubSub.

(** ** main_pipeline.py *)

Module MainPipeline.
Import PubSub.
Local Open Scope py_scope.

(** Result of one image generation, as [asyncio.gather(...,
    return_exceptions=True)] returns it. *)
Inductive img_result : Type :=
  | ImgFailed (msg : string)
  | ImgDone (res : gmap string string).

Record Env : Type := mkEnv {
  bus_ok : nat -> bool;
  preprocess : outcome (list pyval);
  llm : nat -> outcome string;
  clean_json_response : string -> list block;
  enable_images : bool;
  generate_image : nat -> img_result;
  anyio_available : bool
}.

(** The dictionary threaded through the steps. *)
Record PipelineData : Type := mkData {
  job_id : string;
  filename : string;
  chunks : list pyval;
  chunk_texts : list pyval;
  chunk_blocks : list (list block);
  transformed_blocks : list block;
  total_blocks_meta : nat;
  images_generated : bool
}.

Record Page : Type := mkPage {
  page_number : nat;
  original_content : pyval;
  blocks : list block
}.

Record Document : Type := mkDocument {
  jobId : string;
  fileName : string;
  doc_status : string;
  total_chunks : nat;
  total_blocks : nat;
  pages : list Page
}.

Definition spawn (tasks : list (nat * block)) : Py.M World unit :=
  Py.modify (fun w =>
    mkWorld (published w) (publish_calls w) (kv_status w) (status_writes w)
            (active_jobs w) (background w) (spawned w ++ tasks)
            (callback_posts w)).

Section Steps.
Variable env : Env.

Definition preprocess_step (d : PipelineData) : Py.M World PipelineData :=
  publish_step_progress (bus_ok env) (job_id d) "PDF_PREPROCESSING" 10 ;;
  cs <- (fun w => (preprocess env, w)) ;;
  publish_step_progress (bus_ok env) (job_id d) "PDF_PREPROCESSING" 25 ;;
  Py.ret (mkData (job_id d) (filename d) cs (chunk_texts d)
                 (chunk_blocks d) (transformed_blocks d)
                 (total_blocks_meta d) (images_generated d)).

(** The body of [for i, chunk_text in enumerate(chunks)], from index
    [i] on; [acc] is [chunk_blocks] so far.  The float product
    [(i / total) * 30] is taken exactly. *)
Fixpoint transform_loop (total : nat) (job : string) (i : nat)
    (rest : list pyval) (acc : list (list block))
    : Py.M World (list (list block)) :=
  match rest with
  | [] => Py.ret acc
  | _ :: rest' =>
      publish_step_progress (bus_ok env) job "TRANSFORMATION"
        (30 + (Z.of_nat i * 30) / Z.of_nat (max total 1)) ;;
      content <- (fun w => (llm env i, w)) ;;
      let blocks := clean_json_response env content in
      spawn (map (fun b => (S i, b)) (filter (fun b => has_type "TEXT" b) blocks)) ;;
      transform_loop total job (S i) rest' (acc ++ [blocks])
  end.

Definition transform_step (d : PipelineData) : Py.M World PipelineData :=
  publish_step_progress (bus_ok env) (job_id d) "TRANSFORMATION" 30 ;;
  let cs := normalize_chunks (chunks d) in
  cbs <- transform_loop (length cs) (job_id d) 0 cs [] ;;
  publish_step_progress (bus_ok env) (job_id d) "TRANSFORMATION" 60 ;;
  Py.ret (mkData (job_id d) (filename d) (chunks d) cs cbs (concat cbs)
                 (sum_list (map length cbs)) false).

(** [(ci, bi)] of every PAGE_IMAGE block, in enumeration order. *)
Definition image_targets (cbs : list (list block)) : list (nat * nat) :=
  concat (imap (fun ci blocks =>
                  omap id (imap (fun bi b =>
                                   if has_type "PAGE_IMAGE" b
                                   then Some (ci, bi) else None) blocks))
               cbs).

(** [chunk_blocks[ci][bi]["url"] = url] *)
Definition set_block_url (ci bi : nat) (url : string)
    (cbs : list (list block)) : list (list block) :=
  alter (alter (set_url url) bi) ci cbs.

(** [url = res.get("url")] followed by [if url:]. *)
Definition result_url (r : img_result) : option string :=
  match r with
  | ImgFailed _ => None
  | ImgDone res =>
      match res !! "url" with
      | Some u => if decide (u = "") then None else Some u
      | None => None
      end
  end.

(** [for idx, res in enumerate(results)], from [idx] on. *)
Fixpoint image_loop (total : nat) (job : string) (idx : nat)
    (targets : list (nat * nat)) (cbs : list (list block)) (succ : nat)
    : Py.M World (list (list block) * nat) :=
  match targets with
  | [] => Py.ret (cbs, succ)
  | (ci, bi) :: targets' =>
      let (cbs', succ') :=
        match result_url (generate_image env idx) with
        | Some url => (set_block_url ci bi url cbs, S succ)
        | None => (cbs, succ)
        end in
      publish_step_progress (bus_ok env) job "IMAGE_PROCESSING"
        (65 + (Z.of_nat (S idx) * 15) / Z.of_nat (max total 1)) ;;
      image_loop total job (S idx) targets' cbs' succ'
  end.

Definition image_processing_step (d : PipelineData)
    : Py.M World PipelineData :=
  publish_step_progress (bus_ok env) (job_id d) "IMAGE_PROCESSING" 65 ;;
  let skip :=
    publish_step_progress (bus_ok env) (job_id d) "IMAGE_PROCESSING" 80 ;;
    Py.ret (mkData (job_id d) (filename d) (chunks d) (chunk_texts d)
                   (chunk_blocks d) (transformed_blocks d)
                   (total_blocks_meta d) false) in
  if negb (enable_images env) then skip
  else
    let targets := image_targets (chunk_blocks d) in
    match targets with
    | [] => skip
    | _ =>
        r <- image_loop (length targets) (job_id d) 0 targets
                        (chunk_blocks d) 0 ;;
        publish_step_progress (bus_ok env) (job_id d) "IMAGE_PROCESSING" 80 ;;
        Py.ret (mkData (job_id d) (filename d) (chunks d) (chunk_texts d)
                       r.1 (concat r.1) (total_blocks_meta d)
                       (bool_decide (0 < r.2)%nat))
    end.

(** The best-effort report of the synchronous assembly step:
    [anyio.from_thread.run(publish_step_progress, ...)] inside
    [try/except Exception: pass]. *)
Definition best_effort_report (job : string) (progress : Z)
    : Py.M World unit :=
  Py.try_except
    (if anyio_available env
     then publish_step_progress (bus_ok env) job "FINAL_ASSEMBLY" progress
     else Py.raise (Exception "no anyio worker thread"))
    (fun _ => Py.ret tt).

Definition assemble_pages (texts : list pyval) (cbs : list (list block))
    : list Page :=
  imap (fun i text => mkPage (S i) text (default [] (cbs !! i))) texts.

Definition final_assembly_step (d : PipelineData) : Py.M World Document :=
  best_effort_report (job_id d) 82 ;;
  let pages := assemble_pages (chunk_texts d) (chunk_blocks d) in
  best_effort_report (job_id d) 84 ;;
  Py.ret (mkDocument (job_id d) (filename d) "COMPLETED"
                     (length (chunk_texts d))
                     (sum_list (map length (chunk_blocks d))) pages).

(** [main_pipeline.ainvoke(pipeline_input)] *)
Definition main_pipeline (job fname : string) : Py.M World Document :=
  d1 <- preprocess_step (mkData job fname [] [] [] [] 0 false) ;;
  d2 <- transform_step d1 ;;
  d3 <- image_processing_step d2 ;;
  final_assembly_step d3.

End Steps.

End MainPipeline.

(** ** transformation_service.py *)

Module Transformation.
Local Open Scope py_scope.

(** State of one transformation: the back-off delays slept so far and
    the number of [random.random()] draws. *)
Record World : Type := mkWorld {
  sleeps : list Q;
  random_calls : nat
}.

Record Env : Type := mkEnv {
  api_call : nat -> nat -> outcome string;
  random : nat -> Q;
  clean_json_response : string -> list block;
  image_for_block : nat -> outcome block
}.

Record ChunkResult : Type := mkChunkResult {
  chunk_index : nat;
  cr_blocks : list block;
  block_count : nat
}.

Record TransformResult : Type := mkTransformResult {
  transformed_blocks : list block;
  chunk_blocks : list (list block);
  total_blocks : nat;
  input_chunks : nat
}.

Section Run.
Variable env : Env.

Definition backoff_delay (base_delay max_delay : Q) (jitter : bool)
    (attempt : nat) : Py.M World Q :=
  fun w =>
    let delay := py_min (base_delay * inject_Z (2 ^ Z.of_nat attempt)) max_delay in
    if jitter then
      ((Ok (delay * (0.5 + random env (random_calls w) * 0.5))%Q),
       mkWorld (sleeps w) (S (random_calls w)))
    else (Ok delay, w).

Definition asyncio_sleep (d : Q) : Py.M World unit :=
  Py.modify (fun w => mkWorld (sleeps w ++ [d]) (random_calls w)).

(** [for attempt in range(max_retries + 1)], entered at [attempt] with
    [retries_left = max_retries - attempt]. *)
Fixpoint retry_loop {A} (async_func : nat -> outcome A)
    (base_delay max_delay : Q) (jitter : bool)
    (retries_left attempt : nat) : Py.M World A :=
  match async_func attempt with
  | Ok a => Py.ret a
  | Raise CancelledError => Py.raise CancelledError
  | Raise (Exception msg) =>
      match retries_left with
      | O => Py.raise (Exception msg)
      | S retries_left' =>
          delay <- backoff_delay base_delay max_delay jitter attempt ;;
          asyncio_sleep delay ;;
          retry_loop async_func base_delay max_delay jitter
                     retries_left' (S attempt)
      end
  end.

Definition exponential_backoff_retry {A} (async_func : nat -> outcome A)
    (max_retries : nat) : Py.M World A :=
  retry_loop async_func 3 30 true max_retries 0.

Definition process_single_chunk_async (chunk_index : nat)
    : Py.M World ChunkResult :=
  content <- exponential_backoff_retry (api_call env chunk_index) 2 ;;
  let blocks := clean_json_response env content in
  Py.ret (mkChunkResult chunk_index blocks (length blocks)).

(** [asyncio.gather] over the chunk tasks: the results in task
    order, or the exception of a failed task. *)
Fixpoint gather (i : nat) (content : list string)
    : Py.M World (list ChunkResult) :=
  match content with
  | [] => Py.ret []
  | _ :: content' =>
      r <- process_single_chunk_async i ;;
      rs <- gather (S i) content' ;;
      Py.ret (r :: rs)
  end.

(** [chunk_results.sort(key=lambda x: x["chunk_index"])], a stable
    sort. *)
Fixpoint insert_sorted (r : ChunkResult) (l : list ChunkResult)
    : list ChunkResult :=
  match l with
  | [] => [r]
  | x :: l' =>
      if (chunk_index x <=? chunk_index r)%nat
      then x :: insert_sorted r l'
      else r :: x :: l'
  end.

Definition sort_results (l : list ChunkResult) : list ChunkResult :=
  foldl (fun acc r => insert_sorted r acc) [] l.

(** The image phase works on the flat list only; any exception in it
    is logged and swallowed. *)
Definition page_image_blocks (all : list block) : option (list nat) :=
  if forallb (fun b => match b with BDict _ => true | _ => false end) all
  then Some (omap id (imap (fun i b => if has_type "PAGE_IMAGE" b
                                       then Some i else None) all))
  else None.

Fixpoint apply_images (k : nat) (targets : list nat) (all : list block)
    : list block :=
  match targets with
  | [] => all
  | i :: targets' =>
      let all' :=
        match image_for_block env k with
        | Ok updated => <[i := updated]> all
        | Raise _ => all
        end in
      apply_images (S k) targets' all'
  end.

Definition generate_page_images (all : list block) : list block :=
  match page_image_blocks all with
  | Some targets => apply_images 0 targets all
  | None => all
  end.

(** The token counts, the timings and the cache entry written by
    [save_to_redis_if_enabled] (which swallows its errors) are left out. *)
Definition transform_content_to_blocks (content : list string)
    (generate_images : bool) : Py.M World TransformResult :=
  Py.try_except
    (chunk_results <- gather 0 content ;;
     let sorted := sort_results chunk_results in
     let all_transformed_blocks := concat (map cr_blocks sorted) in
     let chunk_blocks := map cr_blocks sorted in
     let total_blocks := sum_list (map block_count sorted) in
     let all' :=
       if generate_images then generate_page_images all_transformed_blocks
       else all_transformed_blocks in
     Py.ret (mkTransformResult all' chunk_blocks total_blocks
                               (length content)))
    (fun msg => Py.raise (Exception ("콘텐츠 변환 중 오류: " +:+ msg))).

End Run.

End Transformation.

(** ** spring_callback_service.py *)

Module SpringCallback.
Import PubSub.

Record Env : Type := mkEnv {
  callback_url : option string;
  client_post : outcome Z
}.

(** [POST url]: one request, counted in [callback_posts]. *)
Definition post (env : Env) : Py.M World Z :=
  fun w =>
    (client_post env,
     mkWorld (published w) (publish_calls w) (kv_status w) (status_writes w)
             (active_jobs w) (background w) (spawned w)
             (S (callback_posts w))).

Definition send_document_complete (env : Env) : Py.M World bool :=
  match callback_url env with
  | None => Py.ret false
  | Some url =>
      if decide (url = "") then Py.ret false
      else
        Py.try_except
          (Py.bind (post env) (fun code =>
             Py.ret (bool_decide (200 <= code < 300))))
          (fun _ => Py.ret false)
  end.

End SpringCallback.

(** ** s3_json_uploader.py *)

Module S3JsonUploader.

Record Env : Type := mkEnv {
  bucket_or_ap : string;
  prefix : string;
  region : string;
  presign_pref : option string;
  current_date : string;
  json_dumps_ok : bool;
  put_object : outcome unit;
  generate_presigned_url : outcome string
}.

Definition generate_s3_key (env : Env) (job_id : string) : string :=
  prefix env +:+ current_date env +:+ "/" +:+ job_id +:+ ".json".

Definition _is_access_point (env : Env) : bool :=
  let ap := bucket_or_ap env in
  PyStr.startswith "arn:aws:s3" ap || PyStr.contains "s3alias" ap
  || PyStr.contains "s3-accesspoint" ap.

Definition _is_mrap_alias (env : Env) : bool :=
  PyStr.contains "s3alias" (bucket_or_ap env).

Definition domain_url (env : Env) (s3_key : string) : string :=
  if _is_access_point env then
    if _is_mrap_alias env then
      "https://" +:+ bucket_or_ap env +:+ ".s3-global.amazonaws.com/" +:+ s3_key
    else
      "https://" +:+ bucket_or_ap env +:+ ".s3-accesspoint." +:+ region env
      +:+ ".amazonaws.com/" +:+ s3_key
  else
    "https://" +:+ bucket_or_ap env +:+ ".s3." +:+ region env
    +:+ ".amazonaws.com/" +:+ s3_key.

Definition _build_access_url (env : Env) (s3_key : string) : string :=
  let use_presign :=
    match presign_pref env with
    | Some p => bool_decide (PyStr.lower p ∈ ["1"; "true"; "yes"; "on"])
    | None => _is_access_point env
    end in
  if use_presign then
    match generate_presigned_url env with
    | Ok url => url
    | Raise _ => domain_url env s3_key
    end
  else domain_url env s3_key.

(** Every failure inside the [try] leaves as [HTTPException(500)]. *)
Definition upload_json_result (env : Env) (job_id : string)
    : outcome string :=
  let s3_key := generate_s3_key env job_id in
  if negb (json_dumps_ok env) then Raise (Exception "JSON 직렬화 실패")
  else
    match put_object env with
    | Raise e => Raise (Exception ("S3 업로드 실패: " +:+ exn_str e))
    | Ok _ => Ok (_build_access_url env s3_key)
    end.

End S3JsonUploader.

(** ** prd_async_processor.py and async_prd_router.py *)

Module PRD.
Import PubSub.
Local Open Scope py_scope.

Record Env : Type := mkEnv {
  pipeline : MainPipeline.Env;
  s3 : S3JsonUploader.Env;
  callback : SpringCallback.Env
}.

Definition bus (env : Env) : nat -> bool := MainPipeline.bus_ok (pipeline env).

Definition is_job_active (job_id : string) (w : World) : bool :=
  bool_decide (is_Some (active_jobs w !! job_id)).

(** The store error is logged and swallowed inside [_set_job_status];
    the record and the history hold what the pipeline asked for. *)
Definition _set_job_status (job_id : string) (st : PRDStatus)
    (progress : option Z) (error : option string) : Py.M World unit :=
  Py.modify (fun w =>
    let rec := mkStatus st progress error in
    mkWorld (published w) (publish_calls w) (<[job_id := rec]> (kv_status w))
            (status_writes w ++ [(job_id, rec)]) (active_jobs w)
            (background w) (spawned w) (callback_posts w)).

Definition release (job_id : string) : Py.M World unit :=
  Py.modify (fun w =>
    mkWorld (published w) (publish_calls w) (kv_status w) (status_writes w)
            (delete job_id (active_jobs w)) (background w) (spawned w)
            (callback_posts w)).

(** [_save_result_to_file] between the two STORAGE reports writes a local
    copy and swallows its own errors; it is left out. *)
Definition process_pdf_pipeline (env : Env) (job_id fname : string)
    : Py.M World unit :=
  Py.try_finally
    (Py.try_except
       (_set_job_status job_id PROCESSING (Some 0) None ;;
        publish_progress (bus env) job_id 0 ;;
        final_result <- MainPipeline.main_pipeline (pipeline env) job_id fname ;;
        publish_step_progress (bus env) job_id "STORAGE" 85 ;;
        s3_url <- (fun w => (S3JsonUploader.upload_json_result (s3 env) job_id, w)) ;;
        publish_step_progress (bus env) job_id "STORAGE" 95 ;;
        _set_job_status job_id COMPLETED (Some 100) None ;;
        publish_result (bus env) job_id s3_url ;;
        Py.try_except
          (SpringCallback.send_document_complete (callback env) ;; Py.ret tt)
          (fun _ => Py.ret tt))
       (fun msg =>
          let error_message := "교안 생성 중 예상치 못한 오류 발생: " +:+ msg in
          _set_job_status job_id FAILED None (Some error_message) ;;
          Py.try_except (publish_failure (bus env) job_id error_message)
                        (fun _ => Py.ret tt)))
    (release job_id).

(** *** [POST /process/async] *)

Inductive Response : Type :=
  | Accepted (job_id : string)
  | HttpError (code : Z).

Definition add_task (job_id fname : string) (w : World) : World :=
  mkWorld (published w) (publish_calls w) (kv_status w) (status_writes w)
          (active_jobs w) (background w ++ [(job_id, fname)]) (spawned w)
          (callback_posts w).

(** [fname] is [file.filename] ([""] when there is none); the bytes of the
    upload are read and handed to the task unchanged. *)
Definition process_pdf_async (fname job_id : string) (w : World)
    : Response * World :=
  if decide (fname = "") then (HttpError 400, w)
  else if negb (PyStr.endswith ".pdf" (PyStr.lower fname)) then (HttpError 400, w)
  else if PyStr.is_blank job_id then (HttpError 400, w)
  else if is_job_active job_id w then (HttpError 409, w)
  else (Accepted job_id, add_task job_id fname w).

(** The server as a transition system: a request is admitted, or the
    [n]-th scheduled background task runs to its end. *)
Inductive Event : Type :=
  | Request (fname job_id : string)
  | Finish (n : nat) (env : Env).

Definition finish_task (n : nat) (env : Env) (w : World) : World :=
  match background w !! n with
  | None => w
  | Some (job_id, fname) =>
      let w' := (process_pdf_pipeline env job_id fname w).2 in
      mkWorld (published w') (publish_calls w') (kv_status w')
              (status_writes w') (active_jobs w')
              (delete n (background w')) (spawned w') (callback_posts w')
  end.

Definition step (ev : Event) (w : World) : option Response * World :=
  match ev with
  | Request fname job_id =>
      let (r, w') := process_pdf_async fname job_id w in (Some r, w')
  | Finish n env => (None, finish_task n env w)
  end.

Fixpoint run (evs : list Event) (w : World) : list Response * World :=
  match evs with
  | [] => ([], w)
  | ev :: evs' =>
      let (r, w') := step ev w in
      let (rs, w'') := run evs' w' in
      (match r with Some x => x :: rs | None => rs end, w'')
  end.

(** The job ids whose pipeline is scheduled and not finished. *)
Definition running (job_id : string) (w : World) : Prop :=
  job_id ∈ (background w).*1.

End PRD.

(** ** progress_service.py *)

Module ProgressTracker.

(** A Python float: a finite value (taken exactly), an infinity or NaN. *)
Inductive pyfloat : Type :=
  | Finite (q : Q)
  | PosInf
  | NegInf
  | NaN.

(** [a < b] on floats; any comparison with NaN is false. *)
Definition flt (a b : pyfloat) : bool :=
  match a, b with
  | NaN, _ | _, NaN => false
  | Finite x, Finite y => if Qlt_le_dec x y then true else false
  | NegInf, NegInf => false
  | NegInf, _ => true
  | _, PosInf => match a with PosInf => false | _ => true end
  | _, _ => false
  end.

(** Two-argument [min] and [max] of Python. *)
Definition fmin (a b : pyfloat) : pyfloat := if flt b a then b else a.
Definition fmax (a b : pyfloat) : pyfloat := if flt a b then b else a.

Definition sign_neg (q : Q) : bool := if Qlt_le_dec q 0 then true else false.

Definition fmul (a b : pyfloat) : pyfloat :=
  match a, b with
  | NaN, _ | _, NaN => NaN
  | Finite x, Finite y => Finite (x * y)
  | Finite x, PosInf | PosInf, Finite x =>
      if Qeq_dec x 0 then NaN else if sign_neg x then NegInf else PosInf
  | Finite x, NegInf | NegInf, Finite x =>
      if Qeq_dec x 0 then NaN else if sign_neg x then PosInf else NegInf
  | PosInf, PosInf | NegInf, NegInf => PosInf
  | PosInf, NegInf | NegInf, PosInf => NegInf
  end.

Definition fadd (a b : pyfloat) : pyfloat :=
  match a, b with
  | NaN, _ | _, NaN => NaN
  | Finite x, Finite y => Finite (x + y)
  | PosInf, NegInf | NegInf, PosInf => NaN
  | PosInf, _ | _, PosInf => PosInf
  | NegInf, _ | _, NegInf => NegInf
  end.

Record ProgressData : Type := mkProgress {
  preprocessing : pyfloat;
  block_transformation : pyfloat;
  phoneme_analysis : pyfloat;
  block_word_phoneme_analysis : pyfloat;
  post_processing : pyfloat;
  overall : pyfloat
}.

(** The tracker: its [progress] and the values handed to
    [_save_progress], oldest first. *)
Record Tracker : Type := mkTracker {
  progress : ProgressData;
  saved : list pyfloat
}.

Definition _save_progress (t : Tracker) : Tracker :=
  mkTracker (progress t) (saved t ++ [overall (progress t)]).

Definition new_tracker : Tracker :=
  _save_progress
    (mkTracker (mkProgress (Finite 0) (Finite 0) (Finite 0) (Finite 0)
                           (Finite 0) (Finite 0)) []).

Definition w_preprocessing : pyfloat := Finite 0.20.
Definition w_block_transformation : pyfloat := Finite 0.40.
Definition w_phoneme_analysis : pyfloat := Finite 0.15.
Definition w_block_word_phoneme_analysis : pyfloat := Finite 0.15.
Definition w_post_processing : pyfloat := Finite 0.10.

Definition weighted (p : ProgressData) : pyfloat :=
  fadd (fadd (fadd (fadd
    (fmul (preprocessing p) w_preprocessing)
    (fmul (block_transformation p) w_block_transformation))
    (fmul (phoneme_analysis p) w_phoneme_analysis))
    (fmul (block_word_phoneme_analysis p) w_block_word_phoneme_analysis))
    (fmul (post_processing p) w_post_processing).

Definition _calculate_overall_progress (t : Tracker) : Tracker :=
  let p := progress t in
  mkTracker
    (mkProgress (preprocessing p) (block_transformation p)
                (phoneme_analysis p) (block_word_phoneme_analysis p)
                (post_processing p) (weighted p))
    (saved t).

Definition set_step (step_name : string) (v : pyfloat) (p : ProgressData)
    : option ProgressData :=
  if decide (step_name = "preprocessing") then
    Some (mkProgress v (block_transformation p) (phoneme_analysis p)
                     (block_word_phoneme_analysis p) (post_processing p)
                     (overall p))
  else if decide (step_name = "block_transformation") then
    Some (mkProgress (preprocessing p) v (phoneme_analysis p)
                     (block_word_phoneme_analysis p) (post_processing p)
                     (overall p))
  else if decide (step_name = "phoneme_analysis") then
    Some (mkProgress (preprocessing p) (block_transformation p) v
                     (block_word_phoneme_analysis p) (post_processing p)
                     (overall p))
  else if decide (step_name = "block_word_phoneme_analysis") then
    Some (mkProgress (preprocessing p) (block_transformation p)
                     (phoneme_analysis p) v (post_processing p) (overall p))
  else if decide (step_name = "post_processing") then
    Some (mkProgress (preprocessing p) (block_transformation p)
                     (phoneme_analysis p) (block_word_phoneme_analysis p) v
                     (overall p))
  else None.

Definition update_progress (step_name : string) (value : pyfloat)
    (t : Tracker) : Tracker :=
  let value := fmax (Finite 0) (fmin (Finite 100) value) in
  match set_step step_name value (progress t) with
  | None => t
  | Some p =>
      _save_progress (_calculate_overall_progress (mkTracker p (saved t)))
  end.

Definition complete_step (step_name : string) (t : Tracker) : Tracker :=
  update_progress step_name (Finite 100) t.

(** A sequence of [update_progress] calls on a fresh tracker. *)
Definition run (calls : list (string * pyfloat)) : Tracker :=
  foldl (fun t c => update_progress c.1 c.2 t) new_tracker calls.

(** The steps of a snapshot, for the statements below. *)
Definition steps (p : ProgressData) : list pyfloat :=
  [preprocessing p; block_transformation p; phoneme_analysis p;
   block_word_phoneme_analysis p; post_processing p].

Definition in_range (x : pyfloat) : Prop :=
  match x with
  | Finite q => (0 <= q <= 100)%Q
  | _ => False
  end.

(** The value of a float that is in range, as a rational. *)
Definition feq (x y : pyfloat) : Prop :=
  match x, y with
  | Finite a, Finite b => (a == b)%Q
  | PosInf, PosInf | NegInf, NegInf => True
  | _, _ => False
  end.

End ProgressTracker.

(** ** async_processing_router_v2.py: the read endpoints *)

Module RouterV2.
Import JobManager.

Definition JobStep_value (s : JobStep) : string :=
  match s with
  | INITIALIZATION => "initialization"
  | PDF_EXTRACTION => "pdf_extraction"
  | TEXT_NORMALIZATION => "text_normalization"
  | CHUNKING => "chunking"
  | BLOCK_TRANSFORMATION => "block_transformation"
  | IMAGE_GENERATION => "image_generation"
  | PHONEME_ANALYSIS => "phoneme_analysis"
  | BLOCK_WORD_PHONEME_ANALYSIS => "block_word_phoneme_analysis"
  | FINAL_PROCESSING => "final_processing"
  | WEBHOOK_NOTIFICATION => "webhook_notification"
  | STEP_COMPLETED => "completed"
  end.

Record JobStatusResponse : Type := mkJobStatusResponse {
  sr_job_id : string;
  sr_status : string;
  sr_current_step : string;
  sr_progress_percentage : Q;
  sr_error_message : option string
}.

Record JobResultResponse : Type := mkJobResultResponse {
  rr_job_id : string;
  rr_status : string;
  rr_filename : string;
  rr_result_data : string;
  rr_error_message : option string
}.

(** What a handler hands back: the response model, or the
    [HTTPException] it raises (the [detail] text is left out). *)
Inductive Reply (A : Type) : Type :=
  | Reply200 (body : A)
  | HTTPException (status_code : Z).
Arguments Reply200 {A} body.
Arguments HTTPException {A} status_code.

(** [GET /status/{job_id}] *)
Definition get_job_status (job_id : string) (r : Redis)
    : Reply JobStatusResponse :=
  match get_progress job_id r with
  | None => HTTPException 404
  | Some progress =>
      Reply200
        (mkJobStatusResponse
           (JobManager.job_id progress)
           (JobStatus_value (status progress))
           (JobStep_value (current_step progress))
           (progress_percentage progress)
           (error_message progress))
  end.

(** [GET /result/{job_id}] *)
Definition get_job_result (job_id : string) (r : Redis)
    : Reply JobResultResponse :=
  match get_result job_id r with
  | Some result =>
      Reply200
        (mkJobResultResponse
           (result_job_id result)
           (JobStatus_value (result_status result))
           (filename result)
           (result_data result)
           (result_error_message result))
  | None =>
      match get_progress job_id r with
      | Some progress =>
          if decide (status progress = FAILED)
          then HTTPException 400
          else HTTPException 202
      | None => HTTPException 404
      end
  end.

End RouterV2.

(** ** prd_async_processor.py and async_prd_router.py: the status query *)

Module PRDStatus.
Import PubSub.

Definition PRDStatus_value (s : PRDStatus) : string :=
  match s with
  | PROCESSING => "PROCESSING"
  | COMPLETED => "COMPLETED"
  | FAILED => "FAILED"
  end.

(** [PRDAsyncProcessor.get_job_status]: the record under
    [job_status:{job_id}], read back with [ast.literal_eval]. *)
Definition get_job_status (job_id : string) (w : World)
    : option JobStatusRec :=
  kv_status w !! job_id.

Record JobStatusResponse : Type := mkJobStatusResponse {
  sr_job_id : string;
  sr_status : string;
  sr_progress : option Z;
  sr_error : option string
}.

(** [GET /process/status/{job_id}]: the response, or the status code of
    the [HTTPException]. *)
Definition status_endpoint (job_id : string) (w : World)
    : JobStatusResponse + Z :=
  match get_job_status job_id w with
  | None => inr 404
  | Some job_status =>
      inl (mkJobStatusResponse job_id
             (PRDStatus_value (st_status job_status))
             (st_progress job_status) (st_error job_status))
  end.

End PRDStatus.

(** ** utils/env_config.py: the callback URL *)

Module EnvConfig.

(** [s.lstrip()], [s.rstrip()], [s.strip()] and [s.rstrip("/")]. *)
Fixpoint lstrip (s : string) : string :=
  match s with
  | String c s' => if PyStr.is_space c then lstrip s' else s
  | EmptyString => EmptyString
  end.

Fixpoint rstrip_by (drop : ascii -> bool) (s : string) : string :=
  match s with
  | EmptyString => EmptyString
  | String c s' =>
      match rstrip_by drop s' with
      | EmptyString => if drop c then EmptyString else String c EmptyString
      | rest => String c rest
      end
  end.

Definition rstrip (s : string) : string := rstrip_by PyStr.is_space s.

Definition strip (s : string) : string := rstrip (lstrip s).

Definition rstrip_slash (s : string) : string :=
  rstrip_by (fun c => bool_decide (c = "/"%char)) s.

(** [v and v.strip()]: set and not blank. *)
Definition present (v : option string) : bool :=
  match v with
  | Some s => negb (PyStr.is_blank s)
  | None => false
  end.

(** [get_spring_callback_url(required)]; [getenv] is [os.getenv] after
    [load_dotenv()]. *)
Definition get_spring_callback_url (getenv : string -> option string)
    (required : bool) : outcome (option string) :=
  let direct := getenv "SPRING_CALLBACK_URL" in
  if present direct then Ok (Some (strip (default "" direct)))
  else
    let base := getenv "SPRING_SERVER_BASE_URL" in
    if present base then
      let base := rstrip_slash (strip (default "" base)) in
      let path :=
        strip (default "/api/document/complete"
                       (getenv "SPRING_COMPLETE_PATH")) in
      let path := if PyStr.startswith "/" path then path else "/" +:+ path in
      Ok (Some (base +:+ path))
    else if required then
      Raise (Exception "Spring 콜백 URL이 설정되지 않았습니다. SPRING_CALLBACK_URL 또는 SPRING_SERVER_BASE_URL을 설정해주세요.")
    else Ok None.


End EnvConfig.

(** ** progress_service.py: what the tracker reports *)

Module TrackerReport.
Import ProgressTracker.

(** [round(q, 1)] on an exact value: to the nearest tenth, ties to the
    even tenth. *)
Definition round_half_even (q : Q) : Z :=
  let f := Qfloor q in
  let d := (q - inject_Z f)%Q in
  if Qlt_le_dec d (1 # 2) then f
  else if Qlt_le_dec (1 # 2) d then f + 1
  else if Z.even f then f else f + 1.

Definition round1 (x : pyfloat) : pyfloat :=
  match x with
  | Finite q => Finite (inject_Z (round_half_even (q * 10)) / 10)
  | _ => x
  end.

(** [a >= b] on floats; false as soon as a NaN is involved. *)
Definition fge (a b : pyfloat) : bool :=
  match a, b with
  | NaN, _ | _, NaN => false
  | _, _ => negb (flt a b)
  end.

(** [get_progress()]: the rounded overall value, and [output_id] when
    the overall value has reached 100. *)
Record Report : Type := mkReport {
  report_progress : pyfloat;
  output_id : bool
}.

Definition get_progress (t : Tracker) : Report :=
  mkReport (round1 (overall (progress t)))
           (fge (overall (progress t)) (Finite 100)).

(** [finish()]: the tracker after it, and the report handed back. *)
Definition finish (t : Tracker) : Tracker * Report :=
  let t' :=
    _save_progress
      (mkTracker (mkProgress (Finite 100) (Finite 100) (Finite 100)
                             (Finite 100) (Finite 100) (Finite 100))
                 (saved t)) in
  (t', get_progress t').

End TrackerReport.

(** * Verification *)

(** ** Reasoning about monadic code *)

Section MonadFacts.
Context {S : Type}.

Lemma bind_Ok {A B} (m : Py.M S A) (k : A -> Py.M S B) s a s' :
  m s = (Ok a, s') -> Py.bind m k s = k a s'.
Proof. intros H. unfold Py.bind. by rewrite H. Qed.

Lemma bind_Raise {A B} (m : Py.M S A) (k : A -> Py.M S B) s e s' :
  m s = (Raise e, s') -> Py.bind m k s = (Raise e, s').
Proof. intros H. unfold Py.bind. by rewrite H. Qed.

Lemma bind_inv_Ok {A B} (m : Py.M S A) (k : A -> Py.M S B) s b s'' :
  Py.bind m k s = (Ok b, s'') ->
  exists a s', m s = (Ok a, s') /\ k a s' = (Ok b, s'').
Proof.
  unfold Py.bind. destruct (m s) as [[a|e] s']; [|done]. eauto.
Qed.

Lemma try_except_inv_Ok {A} (m : Py.M S A) h s a s'' :
  Py.try_except m h s = (Ok a, s'') ->
  m s = (Ok a, s'')
  \/ exists msg s', m s = (Raise (Exception msg), s') /\ h msg s' = (Ok a, s'').
Proof.
  unfold Py.try_except. destruct (m s) as [[x|[msg|]] s'] eqn:Hm; eauto.
Qed.

Lemma bind_case {A B} (m : Py.M S A) (k : A -> Py.M S B) s :
  (exists a s', m s = (Ok a, s') /\ Py.bind m k s = k a s')
  \/ (exists e s', m s = (Raise e, s') /\ Py.bind m k s = (Raise e, s')).
Proof.
  unfold Py.bind. destruct (m s) as [[a|e] s']; [left|right]; eauto.
Qed.

(** A relation between the state before and after that every step of a
    computation respects. *)
Section Preserves.
Context (R : S -> S -> Prop) {HR : Reflexive R} {HT : Transitive R}.

Definition preserves {A} (m : Py.M S A) : Prop := forall s, R s (m s).2.

Lemma preserves_ret {A} (a : A) : preserves (Py.ret a).
Proof. intros s. apply HR. Qed.

Lemma preserves_raise {A} e : preserves (@Py.raise S A e).
Proof. intros s. apply HR. Qed.

Lemma preserves_const {A} (o : outcome A) : preserves (fun s => (o, s)).
Proof. intros s. apply HR. Qed.

Lemma preserves_bind {A B} (m : Py.M S A) (k : A -> Py.M S B) :
  preserves m -> (forall a, preserves (k a)) -> preserves (Py.bind m k).
Proof.
  intros Hm Hk s. unfold Py.bind. specialize (Hm s).
  destruct (m s) as [[a|e] s']; simpl in *; [|done].
  etrans; [exact Hm | apply Hk].
Qed.

Lemma preserves_try_except {A} (m : Py.M S A) h :
  preserves m -> (forall msg, preserves (h msg)) ->
  preserves (Py.try_except m h).
Proof.
  intros Hm Hh s. unfold Py.try_except. specialize (Hm s).
  destruct (m s) as [[a|[msg|]] s']; simpl in *; try done.
  etrans; [exact Hm | apply Hh].
Qed.

Lemma preserves_try_finally {A} (m : Py.M S A) fin :
  preserves m -> preserves fin -> preserves (Py.try_finally m fin).
Proof.
  intros Hm Hf s. unfold Py.try_finally. specialize (Hm s).
  destruct (m s) as [r s']; simpl in *. specialize (Hf s').
  destruct (fin s') as [[[]|e] s'']; simpl in *; by etrans.
Qed.

Lemma preserves_if {A} (b : bool) (m1 m2 : Py.M S A) :
  preserves m1 -> preserves m2 -> preserves (if b then m1 else m2).
Proof. by destruct b. Qed.
End Preserves.
End MonadFacts.

(** ** Admission of the PRD router (C1) *)

Module PRDFacts.
Import PubSub PRD.

(** The bookkeeping the steps of the pipeline leave alone. *)
Definition same_jobs (w w' : World) : Prop :=
  active_jobs w' = active_jobs w /\ background w' = background w.

#[local] Instance same_jobs_refl : Reflexive same_jobs.
Proof. by intros w. Qed.

#[local] Instance same_jobs_trans : Transitive same_jobs.
Proof. intros a b c [] []; split; congruence. Qed.

Lemma publish_same_jobs ok m : preserves same_jobs (publish ok m).
Proof. intros w. unfold publish. by destruct (ok _). Qed.

Lemma spawn_same_jobs t : preserves same_jobs (MainPipeline.spawn t).
Proof. by intros w. Qed.

Ltac pres :=
  repeat lazymatch goal with
  | |- Reflexive _ => typeclasses eauto
  | |- Transitive _ => typeclasses eauto
  | |- forall _, _ => intros ?
  | |- preserves _ (Py.bind _ _) => apply preserves_bind
  | |- preserves _ (Py.ret _) => apply preserves_ret
  | |- preserves _ (Py.raise _) => apply preserves_raise
  | |- preserves _ (Py.try_except _ _) => apply preserves_try_except
  | |- preserves _ (Py.try_finally _ _) => apply preserves_try_finally
  | |- preserves _ (fun w => (_, w)) => apply preserves_const
  | |- preserves _ (publish_step_progress _ _ _ _) => apply publish_same_jobs
  | |- preserves _ (publish_progress _ _ _) => apply publish_same_jobs
  | |- preserves _ (publish_result _ _ _) => apply publish_same_jobs
  | |- preserves _ (publish_failure _ _ _) => apply publish_same_jobs
  | |- preserves _ (MainPipeline.spawn _) => apply spawn_same_jobs
  | |- preserves _ (if ?b then _ else _) => destruct b
  | |- preserves _ (match ?x with _ => _ end) => destruct x
  | |- preserves _ (let (_, _) := ?x in _) => destruct x
  end.

Lemma transform_loop_same_jobs env total job rest :
  forall i acc, preserves same_jobs (MainPipeline.transform_loop env total job i rest acc).
Proof.
  induction rest as [|c rest IH]; intros i acc; simpl; pres. apply IH.
Qed.

Lemma image_loop_same_jobs env total job targets :
  forall idx cbs succ,
    preserves same_jobs (MainPipeline.image_loop env total job idx targets cbs succ).
Proof.
  induction targets as [|[ci bi] targets IH]; intros idx cbs succ; simpl;
    pres; apply IH.
Qed.

Lemma main_pipeline_same_jobs env job fname :
  preserves same_jobs (MainPipeline.main_pipeline env job fname).
Proof.
  unfold MainPipeline.main_pipeline, MainPipeline.preprocess_step,
    MainPipeline.transform_step, MainPipeline.image_processing_step,
    MainPipeline.final_assembly_step, MainPipeline.best_effort_report.
  pres; auto using transform_loop_same_jobs, image_loop_same_jobs.
Qed.

Lemma post_same_jobs env : preserves same_jobs (SpringCallback.post env).
Proof. by intros w. Qed.

Lemma send_document_complete_same_jobs env :
  preserves same_jobs (SpringCallback.send_document_complete env).
Proof.
  unfold SpringCallback.send_document_complete.
  pres; apply post_same_jobs.
Qed.

Lemma _set_job_status_same_jobs job st pr err :
  preserves same_jobs (_set_job_status job st pr err).
Proof. by intros w. Qed.

(** The pipeline touches [active_jobs] only in its [finally] block, and
    only to delete its own entry. *)
Lemma process_pdf_pipeline_jobs env job fname w :
  let w' := (process_pdf_pipeline env job fname w).2 in
  active_jobs w' = delete job (active_jobs w) /\ background w' = background w.
Proof.
  assert (Hbody : preserves same_jobs
    (Py.try_except
       (Py.bind (_set_job_status job PROCESSING (Some 0) None) (fun _ =>
        Py.bind (publish_progress (bus env) job 0) (fun _ =>
        Py.bind (MainPipeline.main_pipeline (pipeline env) job fname) (fun _ =>
        Py.bind (publish_step_progress (bus env) job "STORAGE" 85) (fun _ =>
        Py.bind (fun w => (S3JsonUploader.upload_json_result (s3 env) job, w)) (fun s3_url =>
        Py.bind (publish_step_progress (bus env) job "STORAGE" 95) (fun _ =>
        Py.bind (_set_job_status job COMPLETED (Some 100) None) (fun _ =>
        Py.bind (publish_result (bus env) job s3_url) (fun _ =>
        Py.try_except
          (Py.bind (SpringCallback.send_document_complete (callback env))
                   (fun _ => Py.ret tt))
          (fun _ => Py.ret tt))))))))))
       (fun msg =>
          Py.bind (_set_job_status job FAILED None
                     (Some ("교안 생성 중 예상치 못한 오류 발생: " +:+ msg)))
            (fun _ => Py.try_except
                        (publish_failure (bus env) job
                           ("교안 생성 중 예상치 못한 오류 발생: " +:+ msg))
                        (fun _ => Py.ret tt))))).
  { pres; auto using main_pipeline_same_jobs, _set_job_status_same_jobs,
      send_document_complete_same_jobs. }
  intros w'. subst w'. unfold process_pdf_pipeline, Py.try_finally.
  specialize (Hbody w). destruct (Py.try_except _ _ w) as [r w1].
  destruct Hbody as [Ha Hb]. simpl in *. by rewrite Ha, Hb.
Qed.

(** Nothing ever registers a job: [active_jobs] stays empty. *)
Lemma active_jobs_always_empty evs :
  forall w, active_jobs w = ∅ -> active_jobs (run evs w).2 = ∅.
Proof.
  induction evs as [|ev evs IH]; intros w Hw; simpl; [done|].
  destruct (step ev w) as [r w1] eqn:Hstep.
  specialize (IH w1). destruct (run evs w1) as [rs w2]. simpl in *.
  apply IH. destruct ev as [fname job|n env]; simpl in Hstep.
  - unfold process_pdf_async in Hstep.
    repeat case_match; simplify_eq; done.
  - simplify_eq. unfold finish_task.
    destruct (background w !! n) as [[job fname]|]; [|done]. simpl.
    destruct (process_pdf_pipeline_jobs env job fname w) as [-> _].
    rewrite Hw. apply delete_empty.
Qed.

Lemma is_job_active_false evs job :
  is_job_active job (run evs init).2 = false.
Proof.
  unfold is_job_active.
  rewrite (active_jobs_always_empty evs init eq_refl), lookup_empty.
  apply bool_decide_eq_false. by intros [? ?].
Qed.

(** C1 (the code departs from the claim).  In every state the server can
    reach, a well-formed request that carries the job id of a pipeline
    that is still running is admitted like a fresh one: the answer is 202
    with that id, never 409, and one more pipeline task for the same id is
    scheduled. *)
Theorem C1_admission_ignores_running_pipeline (evs : list Event)
    (fname job_id : string) :
  running job_id (run evs init).2 ->
  fname <> "" ->
  PyStr.endswith ".pdf" (PyStr.lower fname) = true ->
  PyStr.is_blank job_id = false ->
  process_pdf_async fname job_id (run evs init).2
  = (Accepted job_id, add_task job_id fname (run evs init).2).
Proof.
  intros _ Hname Hpdf Hid. unfold process_pdf_async.
  rewrite decide_False by done.
  rewrite Hpdf, Hid, is_job_active_false. done.
Qed.

Lemma C1_admission_witness :
  running "J1" (run [Request "a.pdf" "J1"] init).2
  /\ (run [Request "a.pdf" "J1"; Request "a.pdf" "J1"] init).1
     = [Accepted "J1"; Accepted "J1"]
  /\ background (run [Request "a.pdf" "J1"; Request "a.pdf" "J1"] init).2
     = [("J1", "a.pdf"); ("J1", "a.pdf")].
Proof.
  assert (Hrun : running "J1" (run [Request "a.pdf" "J1"] init).2).
  { vm_compute. set_solver. }
  split; [exact Hrun|].
  pose proof (C1_admission_ignores_running_pipeline
                [Request "a.pdf" "J1"] "a.pdf" "J1" Hrun
                ltac:(done) eq_refl eq_refl) as H.
  split.
  - change (run [Request "a.pdf" "J1"; Request "a.pdf" "J1"] init).1
      with [Accepted "J1";
            (process_pdf_async "a.pdf" "J1" (run [Request "a.pdf" "J1"] init).2).1].
    by rewrite H.
  - change (background (run [Request "a.pdf" "J1"; Request "a.pdf" "J1"] init).2)
      with (background (process_pdf_async "a.pdf" "J1"
                          (run [Request "a.pdf" "J1"] init).2).2).
    rewrite H. reflexivity.
Defined.

End PRDFacts.

(** ** The progress tracker (C10) *)

Module ProgressTrackerFacts.
Import ProgressTracker.

Lemma clamp_in_range (v : pyfloat) :
  in_range (fmax (Finite 0) (fmin (Finite 100) v)).
Proof.
  destruct v as [q| | |]; unfold fmax, fmin, flt; simpl.
  - destruct (Qlt_le_dec q 100); simpl.
    + destruct (Qlt_le_dec 0 q); simpl; lra.
    + lra.
  - lra.
  - lra.
  - lra.
Qed.

(** The weighted sum of in-range steps is a finite value in range. *)
Lemma weighted_in_range (p : ProgressData) :
  Forall in_range (steps p) -> in_range (weighted p).
Proof.
  unfold steps. intros H.
  repeat match goal with
         | H : Forall _ (_ :: _) |- _ => apply Forall_cons in H; destruct H as [? H]
         end.
  unfold weighted, w_preprocessing, w_block_transformation,
    w_phoneme_analysis, w_block_word_phoneme_analysis, w_post_processing.
  destruct (preprocessing p), (block_transformation p), (phoneme_analysis p),
    (block_word_phoneme_analysis p), (post_processing p); simpl in *; try done.
  lra.
Qed.

Lemma feq_refl_finite (x : pyfloat) : in_range x -> feq x x.
Proof. destruct x; simpl; [intros _; reflexivity | done ..]. Qed.

Lemma feq_in_range (x y : pyfloat) : feq x y -> in_range y -> in_range x.
Proof. destruct x, y; simpl; try done. intros Hxy Hy. rewrite Hxy. exact Hy. Qed.

(** What every tracker state satisfies. *)
Definition consistent (t : Tracker) : Prop :=
  Forall in_range (steps (progress t))
  /\ feq (overall (progress t)) (weighted (progress t))
  /\ Forall in_range (saved t).

Lemma new_tracker_consistent : consistent new_tracker.
Proof.
  split; [|split]; simpl.
  - unfold steps; simpl. repeat constructor; simpl; lra.
  - reflexivity.
  - repeat constructor; simpl; lra.
Qed.

Lemma set_step_steps name v p p' :
  set_step name v p = Some p' ->
  in_range v -> Forall in_range (steps p) -> Forall in_range (steps p').
Proof.
  unfold set_step, steps. intros Hs Hv H.
  repeat match goal with
         | H : Forall _ (_ :: _) |- _ => apply Forall_cons in H; destruct H as [? H]
         end.
  repeat case_decide; simplify_eq; simpl; repeat constructor; done.
Qed.

Lemma update_progress_consistent name v t :
  consistent t -> consistent (update_progress name v t).
Proof.
  intros (Hsteps & Hov & Hsaved). unfold update_progress.
  destruct (set_step name _ (progress t)) as [p'|] eqn:Hset; [|done].
  pose proof (set_step_steps _ _ _ _ Hset (clamp_in_range v) Hsteps) as Hs'.
  pose proof (weighted_in_range p' Hs') as Hw.
  split; [|split]; simpl.
  - exact Hs'.
  - by apply feq_refl_finite.
  - apply Forall_app; split; [done|]. by repeat constructor.
Qed.

Lemma run_consistent calls : consistent (run calls).
Proof.
  unfold run. generalize new_tracker_consistent.
  generalize new_tracker. induction calls as [|c calls IH]; intros t Ht.
  - done.
  - simpl. apply IH. by apply update_progress_consistent.
Qed.

(** The finite in-range steps have rational values, and the weighted sum
    is the one of the source. *)
Lemma weighted_formula (p : ProgressData) :
  Forall in_range (steps p) ->
  exists a b c d e : Q,
    steps p = [Finite a; Finite b; Finite c; Finite d; Finite e]
    /\ feq (weighted p)
           (Finite (0.20 * a + 0.40 * b + 0.15 * c + 0.15 * d + 0.10 * e)).
Proof.
  unfold steps. intros H.
  repeat match goal with
         | H : Forall _ (_ :: _) |- _ => apply Forall_cons in H; destruct H as [? H]
         end.
  unfold weighted, w_preprocessing, w_block_transformation,
    w_phoneme_analysis, w_block_word_phoneme_analysis, w_post_processing.
  destruct (preprocessing p) as [a| | |], (block_transformation p) as [b| | |],
    (phoneme_analysis p) as [c| | |],
    (block_word_phoneme_analysis p) as [d| | |],
    (post_processing p) as [e| | |]; simpl in *; try done.
  exists a, b, c, d, e. split; [done|]. simpl. lra.
Qed.

Lemma feq_trans (x y z : pyfloat) : feq x y -> feq y z -> feq x z.
Proof.
  destruct x, y, z; simpl; try done. intros H1 H2. by rewrite H1, H2.
Qed.

(** C10.  After any sequence of [update_progress] calls, whatever floats
    were passed (out of range, infinite or NaN), every per-step value is a
    finite number in [0,100], the overall value is the weighted sum with
    the weights 0.20, 0.40, 0.15, 0.15 and 0.10, and the overall value and
    every value handed to [_save_progress] lie in [0,100]. *)
Theorem C10_tracker_clamped_weighted_average (calls : list (string * pyfloat)) :
  let p := progress (run calls) in
  Forall in_range (steps p)
  /\ (exists a b c d e : Q,
        steps p = [Finite a; Finite b; Finite c; Finite d; Finite e]
        /\ feq (overall p)
               (Finite (0.20 * a + 0.40 * b + 0.15 * c + 0.15 * d + 0.10 * e)))
  /\ in_range (overall p)
  /\ Forall in_range (saved (run calls)).
Proof.
  destruct (run_consistent calls) as (Hsteps & Hov & Hsaved).
  intros p. subst p. split; [done|]. split; [|split; [|done]].
  - destruct (weighted_formula _ Hsteps) as (a & b & c & d & e & Hs & Hw).
    exists a, b, c, d, e. split; [done|]. by eapply feq_trans.
  - eapply feq_in_range; [exact Hov|]. by apply weighted_in_range.
Qed.

Example tracker_out_of_range_inputs :
  steps (progress (run [("preprocessing", Finite 250);
                        ("block_transformation", NaN);
                        ("phoneme_analysis", NegInf);
                        ("no_such_step", Finite 50);
                        ("post_processing", PosInf)]))
  = [Finite 100; Finite 100; Finite 0; Finite 0; Finite 100].
Proof. reflexivity. Qed.

End ProgressTrackerFacts.

(** ** Page order of the assembled document (C9) *)

Module MainPipelineFacts.
Import PubSub MainPipeline.

(** The blocks the transformation produced from chunk [i]. *)
Definition produced (env : Env) (i : nat) (bs : list block) : Prop :=
  exists content, llm env i = Ok content /\ bs = clean_json_response env content.

(** A block after the image step: itself, or, for a PAGE_IMAGE block,
    itself with a non-empty ["url"] filled in. *)
Definition url_added (b b' : block) : Prop :=
  b' = b
  \/ (has_type "PAGE_IMAGE" b = true /\ exists u, u <> "" /\ b' = set_url u b).

Lemma has_type_set_url t u b : has_type t (set_url u b) = has_type t b.
Proof.
  destruct b as [d|r]; simpl; [|done].
  destruct (decide (t = t)); [|done].
  by rewrite lookup_insert_ne.
Qed.

Lemma set_url_set_url u u' b : set_url u' (set_url u b) = set_url u' b.
Proof. destruct b; simpl; [|done]. by rewrite insert_insert_eq. Qed.

#[local] Instance url_added_refl : Reflexive url_added.
Proof. intros b. by left. Qed.

#[local] Instance url_added_trans : Transitive url_added.
Proof.
  intros a b c [->|(Ha & u & Hu & ->)] [->|(Hb & u' & Hu' & ->)].
  - by left.
  - right. eauto.
  - right. eauto.
  - right. split; [done|]. exists u'. by rewrite set_url_set_url.
Qed.

Lemma transform_loop_Ok env total job rest :
  forall i acc w cbs w',
    transform_loop env total job i rest acc w = (Ok cbs, w') ->
    exists bl, cbs = acc ++ bl /\ length bl = length rest
               /\ forall j bs, bl !! j = Some bs -> produced env (i + j) bs.
Proof.
  induction rest as [|c rest IH]; intros i acc w cbs w' H; simpl in H.
  - exists []. inversion H. rewrite app_nil_r. split; [done|]. split; [done|].
    intros j bs Hj. by rewrite lookup_nil in Hj.
  - apply bind_inv_Ok in H as (_ & w1 & _ & H).
    apply bind_inv_Ok in H as (content & w2 & Hllm & H).
    apply bind_inv_Ok in H as (_ & w3 & _ & H).
    apply IH in H as (bl & -> & Hlen & Hbl).
    exists (clean_json_response env content :: bl).
    split; [by rewrite <- app_assoc|]. split; [simpl; by rewrite Hlen|].
    intros [|j] bs Hj; simpl in Hj.
    + inversion Hj; subst. exists content. rewrite Nat.add_0_r.
      split; [|done]. by inversion Hllm.
    + replace (i + S j)%nat with (S i + j)%nat by lia. by apply Hbl.
Qed.

Lemma Forall2_alter {A} (R : A -> A -> Prop) `{!Reflexive R} f (l : list A) :
  forall i, (forall x, l !! i = Some x -> R x (f x)) -> Forall2 R l (alter f i l).
Proof.
  induction l as [|y l IH]; intros i Hf; [constructor|].
  destruct i as [|i]; simpl.
  - constructor; [by apply Hf | reflexivity].
  - constructor; [done|]. apply IH. intros x Hx. by apply Hf.
Qed.

(** The relation between [chunk_blocks] before and after the image step. *)
Definition images_added (cbs cbs' : list (list block)) : Prop :=
  Forall2 (Forall2 url_added) cbs cbs'.

#[local] Instance images_added_refl : Reflexive images_added.
Proof. intros cbs. unfold images_added. reflexivity. Qed.

#[local] Instance images_added_trans : Transitive images_added.
Proof. intros a b c. unfold images_added. intros. by etrans. Qed.

(** Every target designates a PAGE_IMAGE block. *)
Definition targets_ok (targets : list (nat * nat)) (cbs : list (list block))
    : Prop :=
  Forall (fun t => exists bs b, cbs !! t.1 = Some bs /\ bs !! t.2 = Some b
                                /\ has_type "PAGE_IMAGE" b = true) targets.

Lemma set_block_url_added cbs ci bi u bs b :
  cbs !! ci = Some bs -> bs !! bi = Some b ->
  has_type "PAGE_IMAGE" b = true -> u <> "" ->
  images_added cbs (set_block_url ci bi u cbs).
Proof.
  intros Hci Hbi Hty Hu. unfold images_added, set_block_url.
  apply Forall2_alter.
  - apply _.
  - intros bs' Hbs'. rewrite Hci in Hbs'. inversion Hbs'; subst bs'.
    apply Forall2_alter; [apply _|]. intros b' Hb'. rewrite Hbi in Hb'.
    inversion Hb'; subst b'. right. eauto.
Qed.

Lemma targets_ok_images_added targets cbs cbs' :
  images_added cbs cbs' -> targets_ok targets cbs -> targets_ok targets cbs'.
Proof.
  intros Hrel Hok. unfold targets_ok. eapply Forall_impl; [exact Hok|].
  intros [ci bi] (bs & b & Hci & Hbi & Hty); simpl in *.
  destruct (Forall2_lookup_l _ _ _ _ _ Hrel Hci) as (bs' & Hci' & Hbs).
  destruct (Forall2_lookup_l _ _ _ _ _ Hbs Hbi) as (b' & Hbi' & Hb).
  exists bs', b'. split; [done|]. split; [done|].
  destruct Hb as [->|(_ & u & _ & ->)]; [done|]. by rewrite has_type_set_url.
Qed.

Lemma image_loop_Ok env total job targets :
  forall idx cbs succ w r w',
    targets_ok targets cbs ->
    image_loop env total job idx targets cbs succ w = (Ok r, w') ->
    images_added cbs r.1.
Proof.
  induction targets as [|[ci bi] targets IH]; intros idx cbs succ w r w' Hok H;
    simpl in H.
  - inversion H. reflexivity.
  - apply Forall_cons in Hok as [(bs & b & Hci & Hbi & Hty) Hok]. simpl in *.
    destruct (result_url (generate_image env idx)) as [u|] eqn:Hu.
    + assert (u <> "") as Hne.
      { unfold result_url in Hu. repeat case_match; simplify_eq; done. }
      pose proof (set_block_url_added _ _ _ u _ _ Hci Hbi Hty Hne) as Hstep.
      apply bind_inv_Ok in H as (_ & w1 & _ & H).
      apply IH in H; [by etrans|]. by eapply targets_ok_images_added.
    + apply bind_inv_Ok in H as (_ & w1 & _ & H). by apply IH in H.
Qed.

Lemma image_targets_ok cbs : targets_ok (image_targets cbs) cbs.
Proof.
  unfold targets_ok, image_targets. apply Forall_forall. intros [ci bi] Hin.
  apply list_elem_of_In, in_concat in Hin as (l & Hl & Hin).
  apply list_elem_of_In, elem_of_lookup_imap in Hl as (i & bs & -> & Hi).
  apply list_elem_of_In, list_elem_of_omap in Hin as (o & Ho & Hsome).
  apply elem_of_lookup_imap in Ho as (j & b & -> & Hj).
  simpl in Hsome. destruct (has_type "PAGE_IMAGE" b) eqn:Hty; [|done].
  inversion Hsome; subst. simpl. eauto.
Qed.

Lemma preprocess_step_Ok env d w d' w' :
  preprocess_step env d w = (Ok d', w') -> preprocess env = Ok (chunks d').
Proof.
  unfold preprocess_step. intros H.
  apply bind_inv_Ok in H as (_ & w1 & _ & H).
  apply bind_inv_Ok in H as (cs & w2 & Hcs & H).
  apply bind_inv_Ok in H as (_ & w3 & _ & H).
  inversion H; subst; simpl. by inversion Hcs.
Qed.

Lemma transform_step_Ok env d w d' w' :
  transform_step env d w = (Ok d', w') ->
  chunk_texts d' = normalize_chunks (chunks d)
  /\ length (chunk_blocks d') = length (chunk_texts d')
  /\ forall j bs, chunk_blocks d' !! j = Some bs -> produced env j bs.
Proof.
  unfold transform_step. intros H.
  apply bind_inv_Ok in H as (_ & w1 & _ & H).
  apply bind_inv_Ok in H as (cbs & w2 & Hloop & H).
  apply bind_inv_Ok in H as (_ & w3 & _ & H).
  inversion H; subst; simpl.
  apply transform_loop_Ok in Hloop as (bl & -> & Hlen & Hbl). simpl.
  split; [done|]. split; [done|]. intros j bs Hj. by apply (Hbl j).
Qed.

Lemma image_processing_step_Ok env d w d' w' :
  image_processing_step env d w = (Ok d', w') ->
  chunk_texts d' = chunk_texts d
  /\ images_added (chunk_blocks d) (chunk_blocks d')
  /\ (enable_images env = false -> chunk_blocks d' = chunk_blocks d).
Proof.
  unfold image_processing_step. intros H.
  apply bind_inv_Ok in H as (_ & w1 & _ & H).
  destruct (enable_images env); simpl in H.
  - pose proof (image_targets_ok (chunk_blocks d)) as Hok.
    destruct (image_targets (chunk_blocks d)) as [|t ts] eqn:Ht.
    + apply bind_inv_Ok in H as (_ & w2 & _ & H). inversion H; subst; simpl.
      split; [done|]. split; [reflexivity|done].
    + apply bind_inv_Ok in H as (r & w2 & Hloop & H).
      apply bind_inv_Ok in H as (_ & w3 & _ & H). inversion H; subst; simpl.
      split; [done|]. split; [|done]. by eapply image_loop_Ok.
  - apply bind_inv_Ok in H as (_ & w2 & _ & H). inversion H; subst; simpl.
    split; [done|]. split; [reflexivity|done].
Qed.

Lemma final_assembly_step_Ok env d w doc w' :
  final_assembly_step env d w = (Ok doc, w') ->
  pages doc = assemble_pages (chunk_texts d) (chunk_blocks d).
Proof.
  unfold final_assembly_step. intros H.
  apply bind_inv_Ok in H as (_ & w1 & _ & H).
  apply bind_inv_Ok in H as (_ & w2 & _ & H).
  by inversion H.
Qed.

(** C9.  Whenever the pipeline returns a document, its pages are the
    chunks in input order: there are as many pages as chunks, and page [i]
    (0-based position [i], [page_number = i + 1]) carries the text of
    chunk [i] and the blocks parsed from the answer for chunk [i], where
    the image step may have filled the ["url"] of PAGE_IMAGE blocks (and
    changes nothing when image generation is disabled).  That a document
    is returned when the calls succeed is [main_pipeline_returns_document]. *)
Theorem C9_pages_follow_chunk_order (env : Env) (job fname : string)
    (w w' : World) (doc : Document) :
  main_pipeline env job fname w = (Ok doc, w') ->
  exists cs,
    preprocess env = Ok cs
    /\ length (pages doc) = length cs
    /\ forall i text,
         normalize_chunks cs !! i = Some text ->
         exists content blocks,
           llm env i = Ok content
           /\ pages doc !! i = Some (mkPage (S i) text blocks)
           /\ Forall2 url_added (clean_json_response env content) blocks
           /\ (enable_images env = false ->
               blocks = clean_json_response env content).
Proof.
  unfold main_pipeline. intros H.
  apply bind_inv_Ok in H as (d1 & w1 & H1 & H).
  apply bind_inv_Ok in H as (d2 & w2 & H2 & H).
  apply bind_inv_Ok in H as (d3 & w3 & H3 & H).
  apply preprocess_step_Ok in H1.
  apply transform_step_Ok in H2 as (Htexts & Hlen & Hprod).
  apply image_processing_step_Ok in H3 as (Htexts3 & Himg & Hoff).
  apply final_assembly_step_Ok in H.
  exists (chunks d1). split; [done|].
  assert (length (normalize_chunks (chunks d1)) = length (chunks d1)) as Hn.
  { unfold normalize_chunks. destruct (chunks d1) as [|c cs]; [done|].
    destruct (is_str c); [done|]. by rewrite length_map. }
  split.
  { rewrite H. unfold assemble_pages. rewrite length_imap.
    by rewrite Htexts3, Htexts. }
  intros i text Hi.
  assert (is_Some (chunk_blocks d2 !! i)) as [bs Hbs].
  { apply lookup_lt_is_Some. rewrite Hlen, Htexts.
    by apply lookup_lt_Some in Hi. }
  destruct (Hprod i bs Hbs) as (content & Hllm & ->).
  destruct (Forall2_lookup_l _ _ _ _ _ Himg Hbs) as (bs' & Hbs' & Hrel).
  exists content, bs'. split; [done|]. split; [|split; [done|]].
  - rewrite H. unfold assemble_pages. rewrite list_lookup_imap.
    rewrite Htexts3, Htexts, Hi. simpl. by rewrite Hbs'.
  - intros Hoff'. rewrite (Hoff Hoff') in Hbs'. congruence.
Qed.

(** *** The pipeline does return a document when its calls succeed *)













(** A run on two chunks; the second answer holds a PAGE_IMAGE block whose
    image is generated. *)
Definition demo_env : Env :=
  mkEnv (fun _ => true)
        (Ok [PStr "first chunk"; PStr "second chunk"])
        (fun i => Ok (if decide (i = 0%nat) then "A" else "B"))
        (fun content =>
           if decide (content = "A")
           then [BDict {[ "type" := "TEXT" ]}]
           else [BDict {[ "type" := "PAGE_IMAGE" ]}; BDict {[ "type" := "TEXT" ]}])
        true
        (fun _ => ImgDone {[ "url" := "https://img/1.jpg" ]})
        false.

Lemma C9_pages_witness :
  exists doc w',
    main_pipeline demo_env "J1" "a.pdf" init = (Ok doc, w')
    /\ pages doc
       = [ mkPage 1 (PStr "first chunk") [BDict {[ "type" := "TEXT" ]}];
           mkPage 2 (PStr "second chunk")
                  [BDict (<["url" := "https://img/1.jpg"]> {[ "type" := "PAGE_IMAGE" ]});
                   BDict {[ "type" := "TEXT" ]}] ]
    /\ exists cs,
         preprocess demo_env = Ok cs
         /\ length (pages doc) = length cs
         /\ forall i text,
              normalize_chunks cs !! i = Some text ->
              exists content blocks,
                llm demo_env i = Ok content
                /\ pages doc !! i = Some (mkPage (S i) text blocks)
                /\ Forall2 url_added (clean_json_response demo_env content) blocks
                /\ (enable_images demo_env = false ->
                    blocks = clean_json_response demo_env content).
Proof.
  destruct (main_pipeline demo_env "J1" "a.pdf" init) as [[doc|e] w'] eqn:Hrun;
    [| by vm_compute in Hrun].
  exists doc, w'. split; [done|]. split.
  - vm_compute in Hrun. by inversion Hrun.
  - exact (C9_pages_follow_chunk_order demo_env "J1" "a.pdf" init w' doc Hrun).
Defined.

End MainPipelineFacts.

(** ** Failing chunks in the transformation (C4) *)

Module TransformationFacts.
Import Transformation.

(** The answer for chunk [i] after the retries: some attempt within the
    budget succeeded with [content]. *)
Definition answered (env : Env) (i : nat) (content : string) : Prop :=
  exists attempt, (attempt <= 2)%nat /\ api_call env i attempt = Ok content.

Lemma retry_loop_Ok {A} env (f : nat -> outcome A) bd md jit :
  forall left attempt w a w',
    retry_loop env f bd md jit left attempt w = (Ok a, w') ->
    exists k, (attempt <= k <= attempt + left)%nat /\ f k = Ok a.
Proof.
  induction left as [|left IH]; intros attempt w a w' H; simpl in H.
  - destruct (f attempt) as [x|[msg|]] eqn:Hf; try done.
    inversion H; subst. exists attempt. split; [lia|done].
  - destruct (f attempt) as [x|[msg|]] eqn:Hf; try done.
    + inversion H; subst. exists attempt. split; [lia|done].
    + apply bind_inv_Ok in H as (d & w1 & _ & H).
      apply bind_inv_Ok in H as (_ & w2 & _ & H).
      apply IH in H as (k & Hk & Hfk). exists k. split; [lia|done].
Qed.

Lemma process_single_chunk_async_Ok env i w r w' :
  process_single_chunk_async env i w = (Ok r, w') ->
  chunk_index r = i
  /\ block_count r = length (cr_blocks r)
  /\ exists content, answered env i content
                     /\ cr_blocks r = clean_json_response env content.
Proof.
  unfold process_single_chunk_async, exponential_backoff_retry. intros H.
  apply bind_inv_Ok in H as (content & w1 & Hretry & H).
  inversion H; subst; simpl. split; [done|]. split; [done|].
  apply retry_loop_Ok in Hretry as (k & Hk & Hfk).
  exists content. split; [|done]. exists k. split; [lia|done].
Qed.

Lemma gather_Ok env content :
  forall i w rs w',
    gather env i content w = (Ok rs, w') ->
    length rs = length content
    /\ forall j r, rs !! j = Some r ->
         chunk_index r = (i + j)%nat
         /\ block_count r = length (cr_blocks r)
         /\ exists c, answered env (i + j) c
                      /\ cr_blocks r = clean_json_response env c.
Proof.
  induction content as [|c content IH]; intros i w rs w' H; simpl in H.
  - inversion H. split; [done|]. intros j r Hj. by rewrite lookup_nil in Hj.
  - apply bind_inv_Ok in H as (r0 & w1 & H0 & H).
    apply bind_inv_Ok in H as (rs0 & w2 & Hrest & H).
    inversion H; subst. apply IH in Hrest as [Hlen Hrs].
    apply process_single_chunk_async_Ok in H0.
    split; [simpl; by rewrite Hlen|].
    intros [|j] r Hj; simpl in Hj.
    + inversion Hj; subst. by rewrite Nat.add_0_r.
    + replace (i + S j)%nat with (S i + j)%nat by lia. by apply Hrs.
Qed.

(** Sorting by [chunk_index] leaves a list alone whose indices already
    ascend, as the gathered results do. *)
Definition ascending (l : list ChunkResult) : Prop :=
  forall j1 j2 r1 r2,
    (j1 <= j2)%nat -> l !! j1 = Some r1 -> l !! j2 = Some r2 ->
    (chunk_index r1 <= chunk_index r2)%nat.

Lemma insert_sorted_last r l :
  Forall (fun x => (chunk_index x <= chunk_index r)%nat) l ->
  insert_sorted r l = l ++ [r].
Proof.
  induction 1 as [|x l Hx Hl IH]; simpl; [done|].
  apply Nat.leb_le in Hx. by rewrite Hx, IH.
Qed.

Lemma sort_results_ascending l : ascending l -> sort_results l = l.
Proof.
  unfold sort_results. intros Hasc.
  cut (forall rest acc, ascending (acc ++ rest) ->
         foldl (fun acc r => insert_sorted r acc) acc rest = acc ++ rest).
  { intros Hcut. by apply (Hcut l []). }
  clear l Hasc. induction rest as [|y rest IH]; intros acc Hasc; simpl.
  - by rewrite app_nil_r.
  - rewrite insert_sorted_last.
    + rewrite IH; rewrite <- app_assoc; done.
    + apply Forall_forall. intros x Hx.
      apply list_elem_of_lookup in Hx as [j Hj].
      apply (Hasc j (length acc) x y).
      * apply lookup_lt_Some in Hj. lia.
      * by rewrite lookup_app_l by (by eapply lookup_lt_Some).
      * by rewrite list_lookup_middle.
Qed.








End TransformationFacts.

(** ** The PRD pipeline: result message and terminal status (C2, C6) *)

Module PipelineFacts.
Import PubSub PRD.

(** Steps that only report progress: no status is written and nothing goes
    to the result or failure channel. *)
Definition only_progress (w w' : World) : Prop :=
  kv_status w' = kv_status w
  /\ status_writes w' = status_writes w
  /\ exists l, published w' = published w ++ l
               /\ filter (fun m => is_result m) l = []
               /\ filter (fun m => is_failure m) l = [].

#[local] Instance only_progress_refl : Reflexive only_progress.
Proof.
  intros w. split; [done|]. split; [done|]. exists [].
  by rewrite app_nil_r.
Qed.

#[local] Instance only_progress_trans : Transitive only_progress.
Proof.
  intros a b c (Hk & Hs & l & Hl & Hr & Hf) (Hk' & Hs' & l' & Hl' & Hr' & Hf').
  split; [congruence|]. split; [congruence|]. exists (l ++ l').
  rewrite Hl', Hl, <- app_assoc. rewrite !filter_app, Hr, Hr', Hf, Hf'. done.
Qed.

Lemma publish_progress_only ok job p step :
  preserves only_progress (publish ok (ProgressMsg job p step)).
Proof.
  intros w. unfold publish. destruct (ok _); simpl.
  - split; [done|]. split; [done|]. by exists [ProgressMsg job p step].
  - split; [done|]. split; [done|]. exists []. by rewrite app_nil_r.
Qed.

Lemma spawn_only t : preserves only_progress (MainPipeline.spawn t).
Proof. intros w. split; [done|]. split; [done|]. exists []. by rewrite app_nil_r. Qed.

Lemma post_only env : preserves only_progress (SpringCallback.post env).
Proof. intros w. split; [done|]. split; [done|]. exists []. by rewrite app_nil_r. Qed.

Ltac pres :=
  repeat lazymatch goal with
  | |- Reflexive _ => typeclasses eauto
  | |- Transitive _ => typeclasses eauto
  | |- forall _, _ => intros ?
  | |- preserves _ (Py.bind _ _) => apply preserves_bind
  | |- preserves _ (Py.ret _) => apply preserves_ret
  | |- preserves _ (Py.raise _) => apply preserves_raise
  | |- preserves _ (Py.try_except _ _) => apply preserves_try_except
  | |- preserves _ (fun w => (_, w)) => apply preserves_const
  | |- preserves _ (publish_step_progress _ _ _ _) => apply publish_progress_only
  | |- preserves _ (publish_progress _ _ _) => apply publish_progress_only
  | |- preserves _ (MainPipeline.spawn _) => apply spawn_only
  | |- preserves _ (SpringCallback.post _) => apply post_only
  | |- preserves _ (if ?b then _ else _) => destruct b
  | |- preserves _ (match ?x with _ => _ end) => destruct x
  | |- preserves _ (let (_, _) := ?x in _) => destruct x
  end.

Lemma transform_loop_only env total job rest :
  forall i acc,
    preserves only_progress (MainPipeline.transform_loop env total job i rest acc).
Proof.
  induction rest as [|c rest IH]; intros i acc; simpl; pres. apply IH.
Qed.

Lemma image_loop_only env total job targets :
  forall idx cbs succ,
    preserves only_progress
      (MainPipeline.image_loop env total job idx targets cbs succ).
Proof.
  induction targets as [|[ci bi] targets IH]; intros idx cbs succ; simpl;
    pres; apply IH.
Qed.

Lemma main_pipeline_only env job fname :
  preserves only_progress (MainPipeline.main_pipeline env job fname).
Proof.
  unfold MainPipeline.main_pipeline, MainPipeline.preprocess_step,
    MainPipeline.transform_step, MainPipeline.image_processing_step,
    MainPipeline.final_assembly_step, MainPipeline.best_effort_report.
  pres; auto using transform_loop_only, image_loop_only.
Qed.

Lemma send_document_complete_only env :
  preserves only_progress (SpringCallback.send_document_complete env).
Proof. unfold SpringCallback.send_document_complete. pres. Qed.

(** The callback never raises an [Exception]: it answers a boolean, or a
    cancellation passes through. *)
Lemma send_document_complete_outcome env w :
  forall msg, (SpringCallback.send_document_complete env w).1
              <> Raise (Exception msg).
Proof.
  intros msg. unfold SpringCallback.send_document_complete.
  destruct (SpringCallback.callback_url env) as [url|]; [|done].
  destruct (decide (url = "")); [done|].
  unfold Py.try_except, Py.bind, SpringCallback.post.
  destruct (SpringCallback.client_post env) as [c|[m|]]; done.
Qed.

(** The messages a run added to the bus. *)
Definition new_messages (w w' : World) : list Message :=
  drop (length (published w)) (published w').

(** State [w] of a run started in [w0]: the status record of the job, and
    the result and failure messages published since [w0]. *)
Definition at_status (job : string) (rec : JobStatusRec) (w0 w : World)
    (rs fs : list Message) : Prop :=
  kv_status w !! job = Some rec
  /\ exists l, published w = published w0 ++ l
               /\ filter (fun m => is_result m) l = rs
               /\ filter (fun m => is_failure m) l = fs.

Lemma at_status_only job rec w0 w w' rs fs :
  at_status job rec w0 w rs fs -> only_progress w w' ->
  at_status job rec w0 w' rs fs.
Proof.
  intros (Hst & l & Hl & Hr & Hf) (Hk & _ & l' & Hl' & Hr' & Hf').
  split; [by rewrite Hk|]. exists (l ++ l').
  rewrite Hl', Hl, <- app_assoc, !filter_app, Hr, Hr', Hf, Hf', !app_nil_r.
  done.
Qed.

Lemma at_status_new_messages job rec w0 w rs fs :
  at_status job rec w0 w rs fs ->
  filter (fun m => is_result m) (new_messages w0 w) = rs
  /\ filter (fun m => is_failure m) (new_messages w0 w) = fs.
Proof.
  intros (_ & l & Hl & Hr & Hf). unfold new_messages.
  by rewrite Hl, drop_app_length.
Qed.

Section Pipeline.
Variables (env : Env) (job fname : string).

Definition error_message (msg : string) : string :=
  "교안 생성 중 예상치 못한 오류 발생: " +:+ msg.

(** The [try] block and the [except Exception] handler of
    [process_pdf_pipeline]. *)
Definition try_block : Py.M World unit :=
  Py.bind (_set_job_status job PROCESSING (Some 0) None) (fun _ =>
  Py.bind (publish_progress (bus env) job 0) (fun _ =>
  Py.bind (MainPipeline.main_pipeline (pipeline env) job fname) (fun _ =>
  Py.bind (publish_step_progress (bus env) job "STORAGE" 85) (fun _ =>
  Py.bind (fun w => (S3JsonUploader.upload_json_result (s3 env) job, w))
          (fun s3_url =>
  Py.bind (publish_step_progress (bus env) job "STORAGE" 95) (fun _ =>
  Py.bind (_set_job_status job COMPLETED (Some 100) None) (fun _ =>
  Py.bind (publish_result (bus env) job s3_url) (fun _ =>
  Py.try_except
    (Py.bind (SpringCallback.send_document_complete (callback env))
             (fun _ => Py.ret tt))
    (fun _ => Py.ret tt))))))))).

Definition handler (msg : string) : Py.M World unit :=
  Py.bind (_set_job_status job FAILED None (Some (error_message msg))) (fun _ =>
  Py.try_except (publish_failure (bus env) job (error_message msg))
                (fun _ => Py.ret tt)).

Lemma process_pdf_pipeline_unfold :
  process_pdf_pipeline env job fname
  = Py.try_finally (Py.try_except try_block handler) (release job).
Proof. reflexivity. Qed.

Definition st_processing : JobStatusRec := mkStatus PROCESSING (Some 0) None.
Definition st_completed : JobStatusRec := mkStatus COMPLETED (Some 100) None.
Definition st_failed (msg : string) : JobStatusRec :=
  mkStatus FAILED None (Some (error_message msg)).

(** How the [try] block can end: before COMPLETED was set; with COMPLETED
    set and the result publication raising; or with the result
    published. *)
Lemma try_block_spec w0 :
  let r := (try_block w0).1 in
  let w := (try_block w0).2 in
  (exists e, r = Raise e /\ at_status job st_processing w0 w [] [])
  \/ (exists msg url, r = Raise (Exception msg)
         /\ S3JsonUploader.upload_json_result (s3 env) job = Ok url
         /\ at_status job st_completed w0 w [] [])
  \/ (exists url, (r = Ok tt \/ r = Raise CancelledError)
         /\ S3JsonUploader.upload_json_result (s3 env) job = Ok url
         /\ at_status job st_completed w0 w [ResultMsg job url] []).
Proof.
  unfold try_block.
  set (w1 := (_set_job_status job PROCESSING (Some 0) None w0).2).
  assert (H1 : at_status job st_processing w0 w1 [] []).
  { split; [apply lookup_insert_eq|]. exists []. by rewrite app_nil_r. }
  rewrite (bind_Ok _ _ w0 tt w1) by reflexivity. clearbody w1.
  (* publish_progress 0 *)
  match goal with |- context [Py.bind ?m ?k w1] =>
    pose proof (publish_progress_only (bus env) job 0 None w1) as P;
    destruct (bind_case m k w1) as [(a & w2 & E & ->)|(e & w2 & E & ->)];
    change m with (publish_progress (bus env) job 0) in E;
    unfold publish_progress in E; rewrite E in P; simpl in P;
    pose proof (at_status_only _ _ _ _ _ _ _ H1 P) as H2
  end; [|left; eauto].
  (* main_pipeline *)
  match goal with |- context [Py.bind ?m ?k w2] =>
    pose proof (main_pipeline_only (pipeline env) job fname w2) as P3;
    destruct (bind_case m k w2) as [(doc & w3 & E3 & ->)|(e & w3 & E3 & ->)];
    rewrite E3 in P3; simpl in P3;
    pose proof (at_status_only _ _ _ _ _ _ _ H2 P3) as H3
  end; [|left; eauto].
  (* STORAGE 85 *)
  match goal with |- context [Py.bind ?m ?k w3] =>
    pose proof (publish_progress_only (bus env) job 85 (Some "STORAGE") w3) as P4;
    destruct (bind_case m k w3) as [(a4 & w4 & E4 & ->)|(e & w4 & E4 & ->)];
    unfold publish_step_progress in E4; rewrite E4 in P4; simpl in P4;
    pose proof (at_status_only _ _ _ _ _ _ _ H3 P4) as H4
  end; [|left; eauto].
  (* upload *)
  match goal with |- context [Py.bind ?m ?k w4] =>
    destruct (bind_case m k w4) as [(url & w5 & E5 & ->)|(e & w5 & E5 & ->)];
    inversion E5; subst w5
  end; [|left; eauto].
  (* STORAGE 95 *)
  match goal with |- context [Py.bind ?m ?k w4] =>
    pose proof (publish_progress_only (bus env) job 95 (Some "STORAGE") w4) as P6;
    destruct (bind_case m k w4) as [(a6 & w6 & E6 & ->)|(e & w6 & E6 & ->)];
    unfold publish_step_progress in E6; rewrite E6 in P6; simpl in P6;
    pose proof (at_status_only _ _ _ _ _ _ _ H4 P6) as H6
  end; [|left; eauto].
  (* COMPLETED *)
  set (w7 := (_set_job_status job COMPLETED (Some 100) None w6).2).
  assert (H7 : at_status job st_completed w0 w7 [] []).
  { destruct H6 as (_ & l & Hl & Hr & Hf).
    split; [apply lookup_insert_eq|]. by exists l. }
  rewrite (bind_Ok _ _ w6 tt w7) by reflexivity. clearbody w7.
  (* publish_result *)
  match goal with |- context [Py.bind ?m ?k w7] =>
    destruct (bind_case m k w7) as [(a8 & w8 & E8 & ->)|(e & w8 & E8 & ->)]
  end.
  - (* published *)
    assert (H8 : at_status job st_completed w0 w8 [ResultMsg job url] []).
    { unfold publish_result, publish in E8.
      destruct (bus env (publish_calls w7)); [|done].
      inversion E8; subst. destruct H7 as (Hst & l & Hl & Hr & Hf).
      split; [done|]. exists (l ++ [ResultMsg job url]). simpl.
      rewrite Hl, <- app_assoc, !filter_app, Hr, Hf. done. }
    right; right. exists url.
    pose proof (send_document_complete_only (callback env) w8) as P9.
    pose proof (send_document_complete_outcome (callback env) w8) as O9.
    unfold Py.try_except, Py.bind.
    destruct (SpringCallback.send_document_complete (callback env) w8)
      as [[b|[msg|]] w9]; simpl in *.
    + split; [by left|]. split; [done|]. by eapply at_status_only.
    + by destruct (O9 msg).
    + split; [by right|]. split; [done|]. by eapply at_status_only.
  - (* the publication raised *)
    right; left. unfold publish_result, publish in E8.
    destruct (bus env (publish_calls w7)); [done|].
    inversion E8; subst. eexists _, url. split; [done|]. split; [done|].
    destruct H7 as (Hst & l & Hl & Hr & Hf). split; [done|]. by exists l.
Qed.

Lemma handler_spec msg w :
  (handler msg w).1 = Ok tt
  /\ kv_status (handler msg w).2 = <[job := st_failed msg]> (kv_status w)
  /\ (published (handler msg w).2 = published w
      \/ published (handler msg w).2
         = published w ++ [FailureMsg job (error_message msg)]).
Proof.
  unfold handler, Py.bind, Py.try_except, _set_job_status, Py.modify,
    publish_failure, publish; simpl.
  destruct (bus env (publish_calls w)); simpl; auto.
Qed.

(** How a run started in [w0] can end. *)
Definition ending (w0 w' : World) : Prop :=
  let results := filter (fun m => is_result m) (new_messages w0 w') in
  let failures := filter (fun m => is_failure m) (new_messages w0 w') in
  (kv_status w' !! job = Some st_processing /\ results = [] /\ failures = [])
  \/ (exists msg,
        kv_status w' !! job = Some (st_failed msg) /\ results = []
        /\ (failures = [] \/ failures = [FailureMsg job (error_message msg)]))
  \/ (exists url,
        kv_status w' !! job = Some st_completed
        /\ S3JsonUploader.upload_json_result (s3 env) job = Ok url
        /\ results = [ResultMsg job url] /\ failures = []).

Lemma at_status_handler rec w0 w msg :
  at_status job rec w0 w [] [] -> ending w0 (handler msg w).2.
Proof.
  intros (_ & l & Hl & Hr & Hf).
  destruct (handler_spec msg w) as (_ & Hk & Hp).
  right; left. exists msg. unfold new_messages.
  split; [rewrite Hk; apply lookup_insert_eq|].
  destruct Hp as [->| ->]; rewrite Hl.
  - rewrite drop_app_length, Hr, Hf. auto.
  - rewrite <- app_assoc, drop_app_length, !filter_app, Hr, Hf. simpl. auto.
Qed.

Lemma release_ending w0 w :
  ending w0 w -> ending w0 (release job w).2.
Proof. done. Qed.

Lemma process_pdf_pipeline_ending w0 :
  ending w0 (process_pdf_pipeline env job fname w0).2.
Proof.
  rewrite process_pdf_pipeline_unfold. unfold Py.try_finally.
  destruct (Py.try_except try_block handler w0) as [r w1] eqn:Hbody.
  change (ending w0 (release job w1).2). apply release_ending.
  unfold Py.try_except in Hbody.
  pose proof (try_block_spec w0) as Hspec. simpl in Hspec.
  destruct (try_block w0) as [r0 w] eqn:Htry. simpl in Hspec.
  destruct Hspec as [(e & -> & Hat)|[(msg & url & -> & Hup & Hat)|(url & Hr & Hup & Hat)]].
  - destruct e as [msg|].
    + replace w1 with (handler msg w).2 by (by rewrite Hbody).
      by eapply at_status_handler.
    + inversion Hbody; subst. left.
      destruct (at_status_new_messages _ _ _ _ _ _ Hat) as [-> ->].
      by destruct Hat as [-> _].
  - replace w1 with (handler msg w).2 by (by rewrite Hbody).
    by eapply at_status_handler.
  - assert (w1 = w) as -> by (destruct Hr as [-> | ->]; by inversion Hbody).
    right; right. exists url.
    destruct (at_status_new_messages _ _ _ _ _ _ Hat) as [-> ->].
    by destruct Hat as [-> _].
Qed.

End Pipeline.

(** The URL handed back by the uploader is not empty, provided the
    presigner does not answer an empty string. *)
Lemma upload_url_nonempty senv job url :
  (forall u, S3JsonUploader.generate_presigned_url senv = Ok u -> u <> "") ->
  S3JsonUploader.upload_json_result senv job = Ok url -> url <> "".
Proof.
  intros Hpre. unfold S3JsonUploader.upload_json_result.
  destruct (S3JsonUploader.json_dumps_ok senv); simpl; [|done].
  destruct (S3JsonUploader.put_object senv); [|done].
  intros H. inversion H as [Hurl]. clear H.
  assert (forall k, S3JsonUploader.domain_url senv k <> "") as Hdom.
  { intros k. unfold S3JsonUploader.domain_url. repeat case_match; done. }
  unfold S3JsonUploader._build_access_url.
  repeat case_match; try apply Hdom; by apply Hpre.
Qed.

(** The claim as it is worded: a result message is published exactly when
    COMPLETED was set and a non-empty URL was obtained. *)
Definition C2_as_stated (env : Env) (job fname : string) (w : World) : Prop :=
  let w' := (process_pdf_pipeline env job fname w).2 in
  (exists m, m ∈ new_messages w w' /\ is_result m = true)
  <-> ((exists rec, (job, rec) ∈ drop (length (status_writes w)) (status_writes w')
                   /\ st_status rec = COMPLETED)
       /\ exists url, S3JsonUploader.upload_json_result (s3 env) job = Ok url
                      /\ url <> "").

(** A run without chunks in which the tenth publication, the one of the
    result message, is refused by the bus. *)
Definition refused_result_env : Env :=
  PRD.mkEnv
    (MainPipeline.mkEnv (fun n => (n <? 9)%nat) (Ok []) (fun _ => Ok "[]")
                        (fun _ => []) true
                        (fun _ => MainPipeline.ImgFailed "unused") false)
    (S3JsonUploader.mkEnv "dyslexia-pdf" "dyslexia-results/" "ap-northeast-2"
                          None "2025/01/01" true (Ok tt)
                          (Raise (Exception "unused")))
    (SpringCallback.mkEnv (Some "http://spring/api/document/complete") (Ok 200)).

(** C2, as stated, fails.  COMPLETED is set and the S3 URL is obtained,
    then [publish_result] raises: no result message is published and the
    status is overwritten by FAILED. *)
Lemma C2_counterexample :
  ~ C2_as_stated refused_result_env "J1" "a.pdf" init.
Proof.
  unfold C2_as_stated. intros [_ H].
  assert (Hw : drop (length (status_writes init))
                 (status_writes
                    (process_pdf_pipeline refused_result_env "J1" "a.pdf" init).2)
               = [("J1", mkStatus PROCESSING (Some 0) None);
                  ("J1", mkStatus COMPLETED (Some 100) None);
                  ("J1", mkStatus FAILED None
                           (Some "교안 생성 중 예상치 못한 오류 발생: publish failed"))])
    by (vm_compute; reflexivity).
  assert (Hm : filter (fun m => is_result m)
                 (new_messages init
                    (process_pdf_pipeline refused_result_env "J1" "a.pdf" init).2)
               = []) by (vm_compute; reflexivity).
  destruct H as (m & Hin & Hres).
  - split.
    + exists (mkStatus COMPLETED (Some 100) None). rewrite Hw.
      split; [|done]. apply list_elem_of_In. simpl. auto.
    + eexists. split; [vm_compute; reflexivity|done].
  - revert Hin Hm.
    generalize (new_messages init
                  (process_pdf_pipeline refused_result_env "J1" "a.pdf" init).2).
    intros msgs Hin Hm.
    assert (m ∈ filter (fun m => is_result m) msgs) as Hf.
    { apply list_elem_of_filter. split; [by rewrite Hres | exact Hin]. }
    rewrite Hm in Hf. by apply not_elem_of_nil in Hf.
Qed.

(** C2, amended.  A run publishes a result message exactly when its
    terminal status is COMPLETED; a run that ends FAILED publishes none;
    and a published result message is the one for this job and carries the
    URL the upload returned, which is not empty (the presigner is assumed
    not to answer an empty string). *)
Theorem C2_result_iff_terminal_completed (env : Env) (job fname : string)
    (w : World) :
  (forall u, S3JsonUploader.generate_presigned_url (s3 env) = Ok u -> u <> "") ->
  let w' := (process_pdf_pipeline env job fname w).2 in
  let final := st_status <$> kv_status w' !! job in
  ((exists m, m ∈ new_messages w w' /\ is_result m = true)
   <-> final = Some COMPLETED)
  /\ (final = Some FAILED ->
      forall m, m ∈ new_messages w w' -> is_result m = false)
  /\ (forall m, m ∈ new_messages w w' -> is_result m = true ->
      exists url, m = ResultMsg job url /\ url <> ""
                  /\ S3JsonUploader.upload_json_result (s3 env) job = Ok url).
Proof.
  intros Hpre w' final. subst w' final.
  pose proof (process_pdf_pipeline_ending env job fname w) as Hend.
  unfold ending in Hend.
  set (msgs := new_messages w (process_pdf_pipeline env job fname w).2) in *.
  assert (Hfilter : forall m, m ∈ msgs -> is_result m = true ->
            m ∈ filter (fun m => is_result m) msgs).
  { intros m Hin Hres. apply list_elem_of_filter. by rewrite Hres. }
  destruct Hend as [(Hst & Hr & _)|[(msg & Hst & Hr & _)|(url & Hst & Hup & Hr & _)]];
    rewrite Hst; simpl.
  - split; [split|split].
    + intros (m & Hin & Hres). apply Hfilter in Hin; [|done].
      rewrite Hr in Hin. by apply not_elem_of_nil in Hin.
    + done.
    + done.
    + intros m Hin Hres. apply Hfilter in Hin; [|done].
      rewrite Hr in Hin. by apply not_elem_of_nil in Hin.
  - split; [split|split].
    + intros (m & Hin & Hres). apply Hfilter in Hin; [|done].
      rewrite Hr in Hin. by apply not_elem_of_nil in Hin.
    + done.
    + intros _ m Hin. destruct (is_result m) eqn:Hres; [|done].
      apply Hfilter in Hin; [|done].
      rewrite Hr in Hin. by apply not_elem_of_nil in Hin.
    + intros m Hin Hres. apply Hfilter in Hin; [|done].
      rewrite Hr in Hin. by apply not_elem_of_nil in Hin.
  - split; [split|split].
    + done.
    + intros _. exists (ResultMsg job url).
      assert (ResultMsg job url ∈ filter (fun m => is_result m) msgs) as Hin
        by (rewrite Hr; by apply list_elem_of_singleton).
      apply list_elem_of_filter in Hin as [_ Hin]. done.
    + done.
    + intros m Hin Hres. apply Hfilter in Hin; [|done]. rewrite Hr in Hin.
      apply list_elem_of_singleton in Hin as ->. exists url.
      split; [done|]. split; [|done]. by eapply upload_url_nonempty.
Qed.

(** A run whose every call succeeds. *)
Definition smooth_env : Env :=
  PRD.mkEnv MainPipelineFacts.demo_env
    (S3JsonUploader.mkEnv "dyslexia-pdf" "dyslexia-results/" "ap-northeast-2"
                          None "2025/01/01" true (Ok tt)
                          (Raise (Exception "unused")))
    (SpringCallback.mkEnv (Some "http://spring/api/document/complete") (Ok 503)).

Lemma C2_result_witness :
  (forall u, S3JsonUploader.generate_presigned_url (s3 smooth_env) = Ok u -> u <> "")
  /\ filter (fun m => is_result m)
       (new_messages init (process_pdf_pipeline smooth_env "J1" "a.pdf" init).2)
     = [ResultMsg "J1"
          "https://dyslexia-pdf.s3.ap-northeast-2.amazonaws.com/dyslexia-results/2025/01/01/J1.json"]
  /\ ((exists m, m ∈ new_messages init
                      (process_pdf_pipeline smooth_env "J1" "a.pdf" init).2
                 /\ is_result m = true)
      <-> st_status
            <$> kv_status (process_pdf_pipeline smooth_env "J1" "a.pdf" init).2
                !! "J1"
          = Some COMPLETED).
Proof.
  assert (Hpre : forall u,
            S3JsonUploader.generate_presigned_url (s3 smooth_env) = Ok u -> u <> "")
    by (intros u Hu; inversion Hu).
  split; [exact Hpre|]. split; [vm_compute; reflexivity|].
  exact (proj1 (C2_result_iff_terminal_completed smooth_env "J1" "a.pdf" init Hpre)).
Defined.

(** *** The document-complete callback (C6) *)

Lemma send_document_complete_posts cenv w :
  (callback_posts (SpringCallback.send_document_complete cenv w).2
   <= S (callback_posts w))%nat.
Proof.
  unfold SpringCallback.send_document_complete.
  destruct (SpringCallback.callback_url cenv) as [url|]; simpl; [|lia].
  destruct (decide (url = "")); simpl; [lia|].
  unfold Py.try_except, Py.bind, SpringCallback.post.
  destruct (SpringCallback.client_post cenv) as [c|[m|]]; simpl; lia.
Qed.

(** The claim as it is worded: after an answer that is neither a success
    nor a client error, the callback is attempted again. *)
Definition C6_as_stated (cenv : SpringCallback.Env) (w : World) : Prop :=
  (exists code, SpringCallback.client_post cenv = Ok code /\ 500 <= code < 600) ->
  (callback_posts w + 2
   <= callback_posts (SpringCallback.send_document_complete cenv w).2)%nat.

Definition unavailable_callback : SpringCallback.Env :=
  SpringCallback.mkEnv (Some "http://spring/api/document/complete") (Ok 503).

(** C6, as stated, fails.  The Spring server answers 503: the callback
    returns [False] after its single POST; there is no second attempt and
    no back-off. *)
Lemma C6_counterexample :
  ~ C6_as_stated unavailable_callback init
  /\ SpringCallback.send_document_complete unavailable_callback init
     = (Ok false,
        mkWorld [] 0 ∅ [] ∅ [] [] 1).
Proof.
  split; [|reflexivity].
  unfold C6_as_stated. intros H.
  assert (Hp : callback_posts
                 (SpringCallback.send_document_complete unavailable_callback init).2
               = 1%nat) by reflexivity.
  rewrite Hp in H. simpl in H.
  assert (2 <= 1)%nat; [|lia]. apply H. exists 503. split; [done|lia].
Qed.

(** C6, amended.  The document-complete callback is attempted at most once
    per run (no retry, no back-off); and whatever its outcome, a run that
    published its result message ends with status COMPLETED. *)
Theorem C6_single_attempt_keeps_completed :
  (forall cenv w,
      (callback_posts (SpringCallback.send_document_complete cenv w).2
       <= S (callback_posts w))%nat)
  /\ (forall penv senv cenv job fname w,
        let w' := (process_pdf_pipeline (PRD.mkEnv penv senv cenv) job fname w).2 in
        (exists m, m ∈ new_messages w w' /\ is_result m = true) ->
        st_status <$> kv_status w' !! job = Some COMPLETED).
Proof.
  split; [apply send_document_complete_posts|].
  intros penv senv cenv job fname w w' (m & Hin & Hres). subst w'.
  pose proof (process_pdf_pipeline_ending (PRD.mkEnv penv senv cenv) job fname w)
    as Hend.
  unfold ending in Hend.
  revert Hin Hend.
  generalize (new_messages w
    (process_pdf_pipeline (PRD.mkEnv penv senv cenv) job fname w).2).
  intros msgs Hin Hend.
  assert (m ∈ filter (fun m => is_result m) msgs) as Hf.
  { apply list_elem_of_filter. split; [by rewrite Hres | exact Hin]. }
  destruct Hend as [(Hst & Hr & _)|[(msg & Hst & Hr & _)|(url & Hst & _)]].
  - rewrite Hr in Hf. by apply not_elem_of_nil in Hf.
  - rewrite Hr in Hf. by apply not_elem_of_nil in Hf.
  - by rewrite Hst.
Qed.

Lemma C6_single_attempt_witness :
  (exists m, m ∈ new_messages init
                   (process_pdf_pipeline smooth_env "J1" "a.pdf" init).2
             /\ is_result m = true)
  /\ callback_posts (process_pdf_pipeline smooth_env "J1" "a.pdf" init).2 = 1%nat
  /\ st_status
       <$> kv_status (process_pdf_pipeline smooth_env "J1" "a.pdf" init).2 !! "J1"
     = Some COMPLETED.
Proof.
  assert (H : exists m,
             m ∈ new_messages init
                   (process_pdf_pipeline smooth_env "J1" "a.pdf" init).2
             /\ is_result m = true).
  { exists (ResultMsg "J1"
      "https://dyslexia-pdf.s3.ap-northeast-2.amazonaws.com/dyslexia-results/2025/01/01/J1.json").
    split; [|reflexivity]. apply list_elem_of_In. vm_compute. tauto. }
  split; [exact H|]. split; [vm_compute; reflexivity|].
  exact (proj2 C6_single_attempt_keeps_completed
           MainPipelineFacts.demo_env (s3 smooth_env) (callback smooth_env)
           "J1" "a.pdf" init H).
Defined.

End PipelineFacts.

(** ** The staged processor: snapshots and results (C3, C5, C7, C8) *)

Module ProcessorFacts.
Import JobManager AsyncJobProcessor.

Lemma py_min_spec a b : (py_min a b <= a /\ py_min a b <= b)%Q.
Proof. unfold py_min. destruct (Qlt_le_dec b a); split; lra. Qed.

Lemma py_clamp_range x : (0 <= py_max 0 (py_min 100 x) <= 100)%Q.
Proof.
  unfold py_max, py_min.
  destruct (Qlt_le_dec x 100); destruct (Qlt_le_dec 0 _); lra.
Qed.

(** The global percentage of a stage report. *)
Definition total_progress (stage : ProcessingStage) (stage_progress : Q) : Q :=
  (start_percent stage
   + (end_percent stage - start_percent stage)
     * (py_max 0 (py_min 100 stage_progress) / 100))%Q.

Lemma total_progress_range stage sp :
  (start_percent stage <= total_progress stage sp <= end_percent stage)%Q.
Proof.
  unfold total_progress. pose proof (py_clamp_range sp) as Hc.
  set (c := py_max 0 (py_min 100 sp)) in *. clearbody c.
  change (c / 100)%Q with (c * (1 # 100))%Q.
  destruct stage; simpl; lra.
Qed.

(** *** What a snapshot with 100 percent looks like (C8) *)

(** A snapshot at 100 percent is terminal, or it is the report that ends
    the FINAL_PROCESSING stage. *)
Definition full_is_final (p : JobProgress) : Prop :=
  (progress_percentage p == 100)%Q ->
  terminal (status p) = true
  \/ (status p = TRANSFORMING /\ current_step p = FINAL_PROCESSING).

Definition new_progress (w w' : World) : list JobProgress :=
  drop (length (progress_writes (redis w))) (progress_writes (redis w')).

Definition new_results (w w' : World) : list JobResult :=
  drop (length (result_writes (redis w))) (result_writes (redis w')).

Definition writes_final (w w' : World) : Prop :=
  exists l, progress_writes (redis w') = progress_writes (redis w) ++ l
            /\ Forall full_is_final l.

#[local] Instance writes_final_refl : Reflexive writes_final.
Proof. intros w. exists []. by rewrite app_nil_r. Qed.

#[local] Instance writes_final_trans : Transitive writes_final.
Proof.
  intros a b c (l & Hl & Hf) (l' & Hl' & Hf'). exists (l ++ l').
  rewrite Hl', Hl, <- app_assoc. split; [done|]. by apply Forall_app.
Qed.

Lemma set_redis_id w : set_redis (redis w) w = w.
Proof. by destruct w. Qed.

Lemma writes_final_id w : writes_final w (set_redis (redis w) w).
Proof. rewrite set_redis_id. reflexivity. Qed.

Lemma setex_progress_final p w :
  full_is_final p ->
  writes_final w (set_redis (setex_progress p (redis w)) w).
Proof. intros Hp. exists [p]. split; [done|]. by constructor. Qed.

Lemma _update_stage_progress_final ctx stage sp :
  preserves writes_final (_update_stage_progress ctx stage sp).
Proof.
  intros w. unfold _update_stage_progress, Py.bind, lift_redis,
    _update_job_progress_direct.
  destruct (get_progress _ _) as [existing|]; simpl; [|by destruct w].
  apply setex_progress_final. intros H100. simpl in *.
  pose proof (total_progress_range stage sp) as Hr.
  unfold total_progress in Hr.
  destruct stage; simpl in *; try lra. by right.
Qed.

Lemma calculate_below_100 step idx :
  index_of step step_weights = Some idx -> step <> STEP_COMPLETED ->
  (_calculate_progress_percentage idx < 100)%Q.
Proof.
  destruct step; simpl; intros H Hne; inversion H; subst; try done;
    vm_compute; reflexivity.
Qed.

Lemma update_progress_final id st step err :
  terminal st = true \/ step <> STEP_COMPLETED ->
  preserves writes_final (lift_redis (update_progress id st step err)).
Proof.
  intros Hcase w. unfold lift_redis, update_progress.
  destruct (get_progress id (redis w)) as [existing|];
    [|apply writes_final_id].
  destruct (index_of step step_weights) as [idx|] eqn:Hidx;
    [|apply writes_final_id].
  simpl. apply setex_progress_final. intros H100. simpl in *.
  destruct Hcase as [Ht|Hne]; [by left|].
  pose proof (calculate_below_100 step idx Hidx Hne). lra.
Qed.

Lemma save_result_final id data fname :
  preserves writes_final (lift_redis (save_result id data fname)).
Proof.
  intros w. unfold lift_redis, save_result.
  destruct (get_progress id (redis w)) as [p|] eqn:Hp; simpl; [|apply writes_final_id].
  pose proof (update_progress_final id COMPLETED STEP_COMPLETED None
                (or_introl eq_refl)
                (set_redis (setex_result (mkJobResult id COMPLETED fname data None)
                                         (redis w)) w)) as H.
  unfold lift_redis in H. simpl in H.
  destruct (update_progress _ _ _ _ _) as [b r2]. simpl in *.
  destruct H as (l & Hl & Hf). exists l. by split.
Qed.

(** The webhook sender works on the network only. *)
Lemma retry_loop_redis env remaining :
  forall attempt w, redis (retry_loop env remaining attempt w).2 = redis w.
Proof.
  induction remaining as [|rem IH]; intros attempt w; simpl; [done|].
  assert (Hcont : forall w1, redis w1 = redis w ->
    redis (Py.bind
             (if (attempt <? max_retry_attempts - 1)%nat
              then asyncio_sleep env (retry_delay * (Z.of_nat attempt + 1))
              else Py.ret tt)
             (fun _ => retry_loop env rem (S attempt)) w1).2 = redis w).
  { intros w1 H1. unfold Py.bind.
    destruct (attempt <? max_retry_attempts - 1)%nat; simpl.
    - unfold asyncio_sleep. destruct (sleep_cancelled env _); simpl; [done|].
      by rewrite IH.
    - by rewrite IH. }
  unfold client_post.
  destruct (post env (posts w)) as [code|[msg|]]; simpl.
  - repeat case_bool_decide; simpl; try done; by apply Hcont.
  - by apply Hcont.
  - done.
Qed.

Lemma retry_loop_outcome env remaining :
  forall attempt w,
    (exists b, (retry_loop env remaining attempt w).1 = Ok b)
    \/ (retry_loop env remaining attempt w).1 = Raise CancelledError.
Proof.
  induction remaining as [|rem IH]; intros attempt w; simpl; [left; eauto|].
  assert (Hcont : forall w1,
    (exists b, (Py.bind
             (if (attempt <? max_retry_attempts - 1)%nat
              then asyncio_sleep env (retry_delay * (Z.of_nat attempt + 1))
              else Py.ret tt)
             (fun _ => retry_loop env rem (S attempt)) w1).1 = Ok b)
    \/ (Py.bind
             (if (attempt <? max_retry_attempts - 1)%nat
              then asyncio_sleep env (retry_delay * (Z.of_nat attempt + 1))
              else Py.ret tt)
             (fun _ => retry_loop env rem (S attempt)) w1).1
        = Raise CancelledError).
  { intros w1. unfold Py.bind.
    destruct (attempt <? max_retry_attempts - 1)%nat; simpl.
    - unfold asyncio_sleep. destruct (sleep_cancelled env _); simpl; [by right|].
      apply IH.
    - apply IH. }
  unfold client_post.
  destruct (post env (posts w)) as [code|[msg|]]; simpl.
  - repeat case_bool_decide; simpl; eauto.
  - apply Hcont.
  - by right.
Qed.

Lemma retry_loop_final env remaining attempt :
  preserves writes_final (retry_loop env remaining attempt).
Proof.
  intros w. exists []. rewrite retry_loop_redis, app_nil_r. done.
Qed.

Ltac pres :=
  repeat lazymatch goal with
  | |- Reflexive _ => typeclasses eauto
  | |- Transitive _ => typeclasses eauto
  | |- forall _, _ => intros ?
  | |- preserves _ (Py.bind _ _) => apply preserves_bind
  | |- preserves _ (Py.ret _) => apply preserves_ret
  | |- preserves _ (Py.raise _) => apply preserves_raise
  | |- preserves _ (Py.try_except _ _) => apply preserves_try_except
  | |- preserves _ (Py.try_finally _ _) => apply preserves_try_finally
  | |- preserves _ (of_outcome _) => apply preserves_const
  | |- preserves _ (_update_stage_progress _ _ _) =>
      apply _update_stage_progress_final
  | |- preserves _ (lift_redis (save_result _ _ _)) => apply save_result_final
  | |- preserves _ (lift_redis (mark_failed _ _)) =>
      apply update_progress_final; by left
  | |- preserves _ (lift_redis (update_progress _ COMPLETED _ _)) =>
      apply update_progress_final; by left
  | |- preserves _ (lift_redis (update_progress _ _ WEBHOOK_NOTIFICATION _)) =>
      apply update_progress_final; by right
  | |- preserves _ (_send_webhook_with_retry _) => apply retry_loop_final
  | |- preserves _ (match ?x with _ => _ end) => destruct x
  end.




(** A job submitted without webhook whose every call succeeds. *)
Definition smooth_env : Env :=
  mkEnv (Ok tt) (Ok (OrchSuccess "document")) (fun _ => Ok 200) (fun _ => false).

Definition empty_world : World := mkWorld empty_redis ∅ ∅ ∅ 0 [].

Definition submitted (hook : option string) : ProcessingContext * World :=
  start_processing "job_1" "a.pdf" hook 1 empty_world.




(** *** A trace logic for the runs on a registered job *)

Definition has_job (id : string) (w : World) : Prop :=
  is_Some (get_progress id (redis w)).

(** What a snapshot says: status, step and percentage (in lowest terms). *)
Definition view : Type := JobStatus * JobStep * Q.

Definition view_of (p : JobProgress) : view :=
  (status p, current_step p, Qred (progress_percentage p)).

(** From [w] to [w'] the snapshots [vs] and [n] results were written, all
    for the job [id], whose record is the last one written. *)
Definition effect (id : string) (w w' : World) (vs : list view) (n : nat)
    : Prop :=
  (exists ps, progress_writes (redis w') = progress_writes (redis w) ++ ps
              /\ map view_of ps = vs)
  /\ (exists rs, result_writes (redis w') = result_writes (redis w) ++ rs
                 /\ length rs = n)
  /\ (exists p, get_progress id (redis w') = Some p
                /\ match last vs with
                   | Some v => view_of p = v
                   | None => get_progress id (redis w) = Some p
                   end).

Lemma effect_has_job id w w' vs n : effect id w w' vs n -> has_job id w'.
Proof. intros (_ & _ & p & Hp & _). by exists p. Qed.

Lemma effect_refl id w : has_job id w -> effect id w w [] 0.
Proof.
  intros [p Hp]. split; [exists []; by rewrite app_nil_r|].
  split; [exists []; by rewrite app_nil_r|]. by exists p.
Qed.

Lemma effect_same_redis id w w' :
  has_job id w -> redis w' = redis w -> effect id w w' [] 0.
Proof.
  intros [p Hp] Hr. unfold effect. rewrite Hr.
  split; [exists []; by rewrite app_nil_r|].
  split; [exists []; by rewrite app_nil_r|]. by exists p.
Qed.

Lemma effect_trans id w w1 w2 vs1 vs2 n1 n2 :
  effect id w w1 vs1 n1 -> effect id w1 w2 vs2 n2 ->
  effect id w w2 (vs1 ++ vs2) (n1 + n2).
Proof.
  intros ((ps1 & Hp1 & Hv1) & (rs1 & Hr1 & Hn1) & (p1 & Hg1 & Hl1))
         ((ps2 & Hp2 & Hv2) & (rs2 & Hr2 & Hn2) & (p2 & Hg2 & Hl2)).
  split; [|split].
  - exists (ps1 ++ ps2). rewrite Hp2, Hp1, <- app_assoc, map_app, Hv1, Hv2. done.
  - exists (rs1 ++ rs2). rewrite Hr2, Hr1, <- app_assoc, length_app, Hn1, Hn2.
    done.
  - exists p2. split; [done|]. rewrite last_app.
    destruct (last vs2) as [v|]; [done|].
    rewrite Hg1 in Hl2. inversion Hl2; subst p2. done.
Qed.

(** [spec id m post]: run on a world where the job [id] is registered,
    [m] ends with an outcome, a list of snapshots and a number of results
    written that satisfy [post]. *)
Definition spec {A} (id : string) (m : Py.M World A)
    (post : outcome A -> list view -> nat -> Prop) : Prop :=
  forall w, has_job id w ->
    exists vs n, effect id w (m w).2 vs n /\ post (m w).1 vs n.

Section Rules.
Context (id : string).

Lemma spec_ret {A} (a : A) post :
  post (Ok a) [] 0%nat -> spec id (Py.ret a) post.
Proof. intros H w Hw. exists [], 0%nat. split; [by apply effect_refl|done]. Qed.

Lemma spec_raise {A} e (post : outcome A -> _) :
  post (Raise e) [] 0%nat -> spec id (Py.raise e) post.
Proof. intros H w Hw. exists [], 0%nat. split; [by apply effect_refl|done]. Qed.

Lemma spec_outcome {A} (o : outcome A) post :
  post o [] 0%nat -> spec id (of_outcome o) post.
Proof. intros H w Hw. exists [], 0%nat. split; [by apply effect_refl|done]. Qed.

Lemma spec_bind {A B} (m : Py.M World A) (k : A -> Py.M World B) post :
  spec id m (fun r vs n =>
    match r with
    | Ok a => spec id (k a) (fun r' vs' n' => post r' (vs ++ vs') (n + n')%nat)
    | Raise e => post (Raise e) vs n
    end) ->
  spec id (Py.bind m k) post.
Proof.
  intros Hm w Hw. destruct (Hm w Hw) as (vs & n & Heff & Hpost).
  unfold Py.bind. destruct (m w) as [[a|e] w1]; simpl in *.
  - destruct (Hpost w1 (effect_has_job _ _ _ _ _ Heff)) as (vs' & n' & Heff' & Hp).
    exists (vs ++ vs'), (n + n')%nat. split; [by eapply effect_trans|done].
  - by exists vs, n.
Qed.

Lemma spec_try_except {A} (m : Py.M World A) h post :
  spec id m (fun r vs n =>
    match r with
    | Raise (Exception msg) =>
        spec id (h msg) (fun r' vs' n' => post r' (vs ++ vs') (n + n')%nat)
    | _ => post r vs n
    end) ->
  spec id (Py.try_except m h) post.
Proof.
  intros Hm w Hw. destruct (Hm w Hw) as (vs & n & Heff & Hpost).
  unfold Py.try_except. destruct (m w) as [[a|[msg|]] w1]; simpl in *.
  - by exists vs, n.
  - destruct (Hpost w1 (effect_has_job _ _ _ _ _ Heff)) as (vs' & n' & Heff' & Hp).
    exists (vs ++ vs'), (n + n')%nat. split; [by eapply effect_trans|done].
  - by exists vs, n.
Qed.

Lemma spec_try_finally {A} (m : Py.M World A) fin post :
  spec id m (fun r vs n =>
    spec id fin (fun rf vs' n' =>
      match rf with
      | Ok _ => post r (vs ++ vs') (n + n')%nat
      | Raise e => post (Raise e) (vs ++ vs') (n + n')%nat
      end)) ->
  spec id (Py.try_finally m fin) post.
Proof.
  intros Hm w Hw. destruct (Hm w Hw) as (vs & n & Heff & Hpost).
  unfold Py.try_finally. destruct (m w) as [r w1]; simpl in *.
  destruct (Hpost w1 (effect_has_job _ _ _ _ _ Heff)) as (vs' & n' & Heff' & Hp).
  exists (vs ++ vs'), (n + n')%nat.
  destruct (fin w1) as [[[]|e] w2]; simpl in *;
    (split; [by eapply effect_trans|done]).
Qed.

End Rules.

(** The snapshots the processor writes. *)
Definition v_stage (stage : ProcessingStage) (sp : Q) : view :=
  (_get_job_status stage, _get_job_step stage, Qred (total_progress stage sp)).

Definition v_step (st : JobStatus) (step : JobStep) (idx : nat) : view :=
  (st, step, Qred (_calculate_progress_percentage idx)).

Definition v_completed : view := v_step COMPLETED STEP_COMPLETED 10.
Definition v_failed : view := v_step FAILED STEP_COMPLETED 10.
Definition v_webhook : view := v_step WEBHOOK_SENDING WEBHOOK_NOTIFICATION 9.

Lemma effect_setex id p w :
  job_id p = id ->
  effect id w (set_redis (setex_progress p (redis w)) w) [view_of p] 0.
Proof.
  intros <-. split; [by exists [p]|]. split; [exists []; by rewrite app_nil_r|].
  exists p. split; [|done]. apply lookup_insert_eq.
Qed.

Lemma spec_stage ctx stage sp post :
  post (Ok tt) [v_stage stage sp] 0%nat ->
  spec (ctx_job_id ctx) (_update_stage_progress ctx stage sp) post.
Proof.
  intros H w [p0 Hp0]. exists [v_stage stage sp], 0%nat.
  unfold _update_stage_progress, Py.bind, lift_redis,
    _update_job_progress_direct. rewrite Hp0. simpl.
  split; [|done]. by apply (effect_setex (ctx_job_id ctx)).
Qed.

Lemma spec_update id st step err idx post :
  index_of step step_weights = Some idx ->
  post (Ok true) [v_step st step idx] 0%nat ->
  spec id (lift_redis (update_progress id st step err)) post.
Proof.
  intros Hidx H w [p0 Hp0]. exists [v_step st step idx], 0%nat.
  unfold lift_redis, update_progress. rewrite Hp0, Hidx. simpl.
  split; [|done]. by apply (effect_setex id).
Qed.

Lemma spec_mark_failed id err post :
  post (Ok true) [v_failed] 0%nat ->
  spec id (lift_redis (mark_failed id err)) post.
Proof. intros H. unfold mark_failed. by eapply spec_update. Qed.

Lemma spec_save id data fname post :
  post (Ok true) [v_completed] 1%nat ->
  spec id (lift_redis (save_result id data fname)) post.
Proof.
  intros H w [p0 Hp0]. exists [v_completed], 1%nat.
  unfold lift_redis, save_result. rewrite Hp0.
  unfold update_progress.
  replace (get_progress id
             (setex_result (mkJobResult id COMPLETED fname data None) (redis w)))
    with (Some p0) by done.
  simpl. split; [|done].
  split; [by eexists [_]|]. split; [by eexists [_]|].
  eexists. split; [apply lookup_insert_eq|done].
Qed.

Lemma spec_retry id env post :
  (forall b, post (Ok b) [] 0%nat) -> post (Raise CancelledError) [] 0%nat ->
  spec id (_send_webhook_with_retry env) post.
Proof.
  intros Hok Hcancel w Hw. exists [], 0%nat. unfold _send_webhook_with_retry.
  split; [apply effect_same_redis; [done|apply retry_loop_redis]|].
  destruct (retry_loop_outcome env max_retry_attempts 0 w) as [[b ->]| ->]; auto.
Qed.

Lemma spec_cleanup id ctx post :
  post (Ok tt) [] 0%nat -> spec id (_cleanup ctx) post.
Proof.
  intros H w Hw. exists [], 0%nat. split; [by apply effect_same_redis|done].
Qed.

(** The snapshots of a run that reaches the completion handling. *)
Definition v_stages : list view :=
  [ v_stage ST_INITIALIZATION 0; v_stage ST_PDF_EXTRACTION 0;
    v_stage ST_PDF_EXTRACTION 100;
    v_stage ST_BLOCK_TRANSFORMATION 0; v_stage ST_BLOCK_TRANSFORMATION 100;
    v_stage ST_IMAGE_GENERATION 0; v_stage ST_IMAGE_GENERATION 100;
    v_stage ST_PHONEME_ANALYSIS 0; v_stage ST_PHONEME_ANALYSIS 100;
    v_stage ST_FINAL_PROCESSING 0; v_stage ST_FINAL_PROCESSING 100 ].

(** The snapshots written before a run leaves the stages early. *)
Definition early (vs : list view) : Prop :=
  vs = [v_stage ST_INITIALIZATION 0]
  \/ vs = [v_stage ST_INITIALIZATION 0; v_stage ST_PDF_EXTRACTION 0].

Definition reaches_completion (env : Env) : Prop :=
  file_read env = Ok tt /\ exists data, orchestrator env = Ok (OrchSuccess data).

(** The shapes a run on a registered job can take: outcome, snapshots
    written and number of results written. *)
Inductive run_shape (env : Env) (ctx : ProcessingContext)
    : outcome unit -> list view -> nat -> Prop :=
  | shape_cancelled vs :
      early vs -> ~ reaches_completion env ->
      run_shape env ctx (Raise CancelledError) vs 0
  | shape_failed vs :
      early vs -> ~ reaches_completion env ->
      run_shape env ctx (Ok tt) (vs ++ [v_failed]) 0
  | shape_completed :
      reaches_completion env -> truthy (webhook_url ctx) = None ->
      run_shape env ctx (Ok tt) (v_stages ++ [v_completed; v_completed]) 1
  | shape_notified url :
      reaches_completion env -> truthy (webhook_url ctx) = Some url ->
      run_shape env ctx (Ok tt) (v_stages ++ [v_webhook; v_completed]) 1
  | shape_cancelled_notifying url :
      reaches_completion env -> truthy (webhook_url ctx) = Some url ->
      run_shape env ctx (Raise CancelledError) (v_stages ++ [v_webhook]) 0.

Ltac hoare :=
  repeat (lazy beta iota;
    lazymatch goal with
    | |- spec _ (Py.bind _ _) _ => apply spec_bind
    | |- spec _ (Py.try_except _ _) _ => apply spec_try_except
    | |- spec _ (Py.try_finally _ _) _ => apply spec_try_finally
    | |- spec _ (Py.ret _) _ => apply spec_ret
    | |- spec _ (Py.raise _) _ => apply spec_raise
    | |- spec _ (of_outcome _) _ => apply spec_outcome
    | |- spec _ (_update_stage_progress _ _ _) _ => apply spec_stage
    | |- spec _ (lift_redis (save_result _ _ _)) _ => apply spec_save
    | |- spec _ (lift_redis (mark_failed _ _)) _ => apply spec_mark_failed
    | |- spec _ (lift_redis (update_progress _ _ _ _)) _ =>
        eapply spec_update; [reflexivity|]
    | |- spec _ (_send_webhook_with_retry _) _ => apply spec_retry; [intros ?|]
    | |- spec _ (_cleanup _) _ => apply spec_cleanup
    | |- spec _ (match ?x with _ => _ end) _ => destruct x eqn:?
    | |- match ?x with _ => _ end => destruct x eqn:?
    end).

Lemma _process_pipeline_shape env ctx :
  spec (ctx_job_id ctx) (_process_pipeline env ctx) (run_shape env ctx).
Proof.
  unfold _process_pipeline, _execute_pdf_extraction,
    _execute_block_transformation, _execute_image_generation,
    _execute_phoneme_analysis, _execute_final_processing,
    _handle_completion, _handle_failure, send_completion_webhook,
    send_failure_webhook.
  hoare.
  all: cbn [app Nat.add].
  all: repeat match goal with a : unit |- _ => destruct a end.
  all: try (assert (~ reaches_completion env)
              by (intros [Hf (d & Ho)]; congruence)).
  all: try (assert (reaches_completion env) by (split; [done|eauto])).
  all: first
    [ by eapply shape_completed
    | by eapply shape_notified
    | by eapply shape_cancelled_notifying
    | apply shape_cancelled; [by (left + right)|done]
    | apply (shape_failed env ctx [v_stage ST_INITIALIZATION 0]);
        [by left|done]
    | apply (shape_failed env ctx [v_stage ST_INITIALIZATION 0;
                                   v_stage ST_PDF_EXTRACTION 0]);
        [by right|done] ].
Qed.

Lemma effect_new_writes id w w' vs n :
  effect id w w' vs n ->
  map view_of (new_progress w w') = vs /\ length (new_results w w') = n.
Proof.
  intros ((ps & Hp & Hv) & (rs & Hr & Hn) & _). unfold new_progress, new_results.
  by rewrite Hp, Hr, !drop_app_length.
Qed.


(** *** Monotonicity of the stored percentage (C3) *)



Fixpoint nondecreasing (l : list Q) : bool :=
  match l with
  | a :: (b :: _) as rest => Qle_bool a b && nondecreasing rest
  | _ => true
  end.

Lemma nondecreasing_lookup l :
  nondecreasing l = true ->
  forall i a b, l !! i = Some a -> l !! S i = Some b -> (a <= b)%Q.
Proof.
  induction l as [|x l IH]; intros H i a b Ha Hb; [done|].
  destruct l as [|y l]; [by destruct i|].
  simpl in H. apply andb_true_iff in H as [Hxy Hrest].
  destruct i as [|i]; simpl in *.
  - inversion Ha; inversion Hb; subst. by apply Qle_bool_iff.
  - by apply (IH Hrest i).
Qed.

(** X29.  Without webhook URL the stored percentage never decreases, whether
    the run completes, fails or is cancelled: the decrease of C3 belongs to
    the webhook path alone. *)
Lemma progress_monotone_without_webhook env ctx w :
  has_job (ctx_job_id ctx) w ->
  truthy (webhook_url ctx) = None ->
  forall i p q,
    new_progress w (_process_pipeline env ctx w).2 !! i = Some p ->
    new_progress w (_process_pipeline env ctx w).2 !! S i = Some q ->
    (progress_percentage p <= progress_percentage q)%Q.
Proof.
  intros Hjob Hhook.
  destruct (_process_pipeline_shape env ctx w Hjob) as (vs & n & Heff & Hshape).
  apply effect_new_writes in Heff as [Hvs _].
  revert Hvs Hshape.
  generalize (new_progress w (_process_pipeline env ctx w).2).
  generalize ((_process_pipeline env ctx w).1).
  intros r l Hvs Hshape i p q Hp Hq.
  assert (nondecreasing (map snd vs) = true) as Hmono.
  { inversion Hshape as [vs0 [-> | ->]|vs0 [-> | ->]| | |]; subst;
      try congruence; vm_compute; reflexivity. }
  assert (map snd vs = map (fun p => Qred (progress_percentage p)) l) as Hsnd.
  { rewrite <- Hvs, map_map. done. }
  rewrite Hsnd in Hmono.
  rewrite <- (Qred_correct (progress_percentage p)),
          <- (Qred_correct (progress_percentage q)).
  apply (nondecreasing_lookup _ Hmono i); rewrite list_lookup_fmap.
  - by rewrite Hp.
  - by rewrite Hq.
Qed.

(** *** Cancellation (C5) *)

Lemma no_cancelled_status (s : JobStatus) :
  JobStatus_value s <> "cancelled" /\ JobStatus_value s <> "CANCELLED".
Proof. by destruct s. Qed.

(** The stored status of a job at the end of a run. *)
Definition stored_status (id : string) (w : World) : option JobStatus :=
  status <$> get_progress id (redis w).

(** The claim as it is worded: once an active job is cancelled and its
    task has stopped, the stored status is the terminal status
    CANCELLED. *)
Definition C5_as_stated (env : Env) (ctx : ProcessingContext) (w : World)
    : Prop :=
  let w1 := (cancel_job (ctx_job_id ctx) w).2 in
  let w2 := (_process_pipeline env ctx w1).2 in
  exists s, stored_status (ctx_job_id ctx) w2 = Some s
            /\ JobStatus_value s = "cancelled".

(** The cancellation reaches the task while it awaits the orchestrator. *)
Definition cancelled_env : Env :=
  mkEnv (Ok tt) (Raise CancelledError) (fun _ => Ok 200) (fun _ => false).

(** C5, as stated, fails.  The job is active and is cancelled: the request
    is answered with success, the task stops at its await, and the stored
    status is still PREPROCESSING; no status is written. *)
Lemma C5_counterexample :
  ~ C5_as_stated cancelled_env (submitted None).1 (submitted None).2
  /\ (cancel_job "job_1" (submitted None).2).1 = Http200
  /\ stored_status "job_1"
       (_process_pipeline cancelled_env (submitted None).1
          (cancel_job "job_1" (submitted None).2).2).2
     = Some PREPROCESSING.
Proof.
  split; [|split; vm_compute; reflexivity].
  intros (s & _ & Hs). by destruct (no_cancelled_status s).
Qed.

(** C5, amended.  Cancelling an active job answers with success, marks its
    task as cancelled and removes the job from the active map, and writes
    nothing to the store; the job-status type has no CANCELLED value.  A
    run on a registered job that ends by the cancellation writes no result
    and no FAILED status: the stored status stays the last non-terminal
    one. *)
Theorem C5_cancel_leaves_status :
  (forall id w task,
      active_jobs w !! id = Some task ->
      (cancel_job id w).1 = Http200
      /\ redis (cancel_job id w).2 = redis w
      /\ active_jobs (cancel_job id w).2 !! id = None
      /\ task ∈ cancel_requested (cancel_job id w).2)
  /\ (forall s, JobStatus_value s <> "cancelled" /\ JobStatus_value s <> "CANCELLED")
  /\ (forall env ctx w,
        has_job (ctx_job_id ctx) w ->
        (_process_pipeline env ctx w).1 = Raise CancelledError ->
        new_results w (_process_pipeline env ctx w).2 = []
        /\ exists s, stored_status (ctx_job_id ctx) (_process_pipeline env ctx w).2
                     = Some s
                     /\ terminal s = false).
Proof.
  split; [|split; [apply no_cancelled_status|]].
  - intros id w task Hact. unfold cancel_job. rewrite Hact. simpl.
    split; [done|]. split; [done|]. split; [apply lookup_delete_eq|].
    set_solver.
  - intros env ctx w Hjob Hr.
    destruct (_process_pipeline_shape env ctx w Hjob) as (vs & n & Heff & Hshape).
    pose proof (effect_new_writes _ _ _ _ _ Heff) as [_ Hn].
    destruct Heff as (_ & _ & p & Hp & Hlast).
    unfold stored_status. rewrite Hp. simpl.
    revert Hn Hshape Hr Hlast.
    generalize (new_results w (_process_pipeline env ctx w).2).
    generalize ((_process_pipeline env ctx w).1).
    intros r l Hn Hshape Hr Hlast. subst r.
    inversion Hshape as [vs0 [-> | ->]| | | |]; subst; simpl in Hlast.
    + split; [by apply nil_length_inv|]. exists (status p). split; [done|].
      unfold view_of in Hlast. inversion Hlast as [[Hst Hstep Hq]]. by rewrite Hst.
    + split; [by apply nil_length_inv|]. exists (status p). split; [done|].
      unfold view_of in Hlast. inversion Hlast as [[Hst Hstep Hq]]. by rewrite Hst.
    + split; [by apply nil_length_inv|]. exists (status p). split; [done|].
      unfold view_of in Hlast. inversion Hlast as [[Hst Hstep Hq]]. by rewrite Hst.
Qed.

Lemma C5_cancel_witness :
  active_jobs (submitted None).2 !! "job_1" = Some 1%nat
  /\ has_job "job_1" (cancel_job "job_1" (submitted None).2).2
  /\ (_process_pipeline cancelled_env (submitted None).1
        (cancel_job "job_1" (submitted None).2).2).1 = Raise CancelledError
  /\ (cancel_job "job_1" (submitted None).2).1 = Http200
  /\ new_results (cancel_job "job_1" (submitted None).2).2
       (_process_pipeline cancelled_env (submitted None).1
          (cancel_job "job_1" (submitted None).2).2).2 = [].
Proof.
  assert (Hact : active_jobs (submitted None).2 !! "job_1" = Some 1%nat)
    by (vm_compute; reflexivity).
  assert (Hjob : has_job (ctx_job_id (submitted None).1)
                         (cancel_job "job_1" (submitted None).2).2)
    by (vm_compute; eauto).
  assert (Hr : (_process_pipeline cancelled_env (submitted None).1
                  (cancel_job "job_1" (submitted None).2).2).1
               = Raise CancelledError) by (vm_compute; reflexivity).
  split; [exact Hact|]. split; [exact Hjob|]. split; [exact Hr|]. split.
  - exact (proj1 (proj1 C5_cancel_leaves_status "job_1" (submitted None).2
                    1%nat Hact)).
  - exact (proj1 (proj2 (proj2 C5_cancel_leaves_status) cancelled_env
                    (submitted None).1 (cancel_job "job_1" (submitted None).2).2
                    Hjob Hr)).
Defined.

(** *** Writing the result (C7) *)

(** The claim as it is worded: a result write on a job whose status is
    already terminal is rejected. *)
Definition C7_as_stated (id data fname : string) (r : Redis) : Prop :=
  (exists p, get_progress id r = Some p /\ terminal (status p) = true) ->
  (save_result id data fname r).1 = false
  /\ result_writes (save_result id data fname r).2 = result_writes r.

Definition completed_store : Redis :=
  redis (_process_pipeline smooth_env (submitted None).1 (submitted None).2).2.

(** C7, as stated, fails.  The job is COMPLETED and its result stored; a
    second [save_result] is accepted and replaces the stored result. *)
Lemma C7_counterexample :
  ~ C7_as_stated "job_1" "other document" "b.pdf" completed_store
  /\ result_data <$> get_result "job_1" completed_store = Some "document"
  /\ result_data
       <$> get_result "job_1"
             (save_result "job_1" "other document" "b.pdf" completed_store).2
     = Some "other document".
Proof.
  split; [|split; vm_compute; reflexivity].
  unfold C7_as_stated.
  assert (Hget : get_progress "job_1" completed_store
                 = Some (mkJobProgress "job_1" COMPLETED STEP_COMPLETED 100
                                       10 10 None))
    by (vm_compute; reflexivity).
  assert (Htrue : (save_result "job_1" "other document" "b.pdf"
                               completed_store).1 = true)
    by (vm_compute; reflexivity).
  revert Hget Htrue. generalize completed_store. intros r Hget Htrue H.
  destruct H as [Hfalse _].
  - eexists. split; [exact Hget|reflexivity].
  - rewrite Htrue in Hfalse. discriminate.
Qed.

Lemma save_result_guard id data fname r :
  (save_result id data fname r).1 = true <-> is_Some (get_progress id r).
Proof.
  unfold save_result. destruct (get_progress id r) as [p|]; simpl.
  - split; [eauto|done].
  - split; [done|]. by intros [? ?].
Qed.

Lemma save_result_overwrites id data fname r :
  is_Some (get_progress id r) ->
  get_result id (save_result id data fname r).2
  = Some (mkJobResult id COMPLETED fname data None)
  /\ result_writes (save_result id data fname r).2
     = result_writes r ++ [mkJobResult id COMPLETED fname data None].
Proof.
  intros [p Hp]. unfold save_result. rewrite Hp. simpl.
  unfold update_progress.
  replace (get_progress id
             (setex_result (mkJobResult id COMPLETED fname data None) r))
    with (Some p) by done.
  simpl. split; [apply lookup_insert_eq|done].
Qed.

(** C7, amended.  A run on a registered job writes the result at most
    once, and exactly once when it ends with the stored status COMPLETED.
    [save_result] itself is guarded by the existence of the job's progress
    record only, not by its status: on every registered job, also one that
    is already COMPLETED, it succeeds and replaces the stored result. *)
Theorem C7_result_written_once_unguarded :
  (forall env ctx w,
      has_job (ctx_job_id ctx) w ->
      (length (new_results w (_process_pipeline env ctx w).2) <= 1)%nat
      /\ (length (new_results w (_process_pipeline env ctx w).2) = 1%nat
          <-> stored_status (ctx_job_id ctx) (_process_pipeline env ctx w).2
              = Some COMPLETED))
  /\ (forall id data fname r,
        ((save_result id data fname r).1 = true <-> is_Some (get_progress id r))
        /\ (is_Some (get_progress id r) ->
            get_result id (save_result id data fname r).2
            = Some (mkJobResult id COMPLETED fname data None)
            /\ result_writes (save_result id data fname r).2
               = result_writes r ++ [mkJobResult id COMPLETED fname data None])).
Proof.
  split.
  - intros env ctx w Hjob.
    destruct (_process_pipeline_shape env ctx w Hjob) as (vs & n & Heff & Hshape).
    pose proof (effect_new_writes _ _ _ _ _ Heff) as [_ Hn].
    destruct Heff as (_ & _ & p & Hp & Hlast).
    unfold stored_status. rewrite Hp, Hn. simpl.
    revert Hshape Hlast.
    generalize ((_process_pipeline env ctx w).1). intros r Hshape Hlast.
    unfold view_of in Hlast.
    inversion Hshape as [vs0 [-> | ->]|vs0 [-> | ->]| | |]; subst;
      simpl in Hlast; inversion Hlast as [[Hst Hstep Hq]];
      (split; [lia|]); rewrite Hst; split; (done || lia || congruence).
  - intros id data fname r. split; [apply save_result_guard|].
    apply save_result_overwrites.
Qed.

Lemma C7_result_witness :
  has_job "job_1" (submitted None).2
  /\ length (new_results (submitted None).2
               (_process_pipeline smooth_env (submitted None).1
                                  (submitted None).2).2) = 1%nat
  /\ stored_status "job_1"
       (_process_pipeline smooth_env (submitted None).1 (submitted None).2).2
     = Some COMPLETED
  /\ is_Some (get_progress "job_1" completed_store)
  /\ get_result "job_1"
       (save_result "job_1" "other document" "b.pdf" completed_store).2
     = Some (mkJobResult "job_1" COMPLETED "b.pdf" "other document" None).
Proof.
  assert (Hjob : has_job (ctx_job_id (submitted None).1) (submitted None).2)
    by (vm_compute; eauto).
  assert (Hsome : is_Some (get_progress "job_1" completed_store))
    by (vm_compute; eauto).
  assert (Hone : length (new_results (submitted None).2
                   (_process_pipeline smooth_env (submitted None).1
                                      (submitted None).2).2) = 1%nat)
    by (vm_compute; reflexivity).
  split; [exact Hjob|]. split; [exact Hone|]. split; [|split; [exact Hsome|]].
  - exact (proj1 (proj2 (proj1 C7_result_written_once_unguarded smooth_env
                           (submitted None).1 (submitted None).2 Hjob)) Hone).
  - exact (proj1 (proj2 (proj2 C7_result_written_once_unguarded "job_1"
                           "other document" "b.pdf" completed_store) Hsome)).
Defined.

End ProcessorFacts.

(** ** The job registry: percentages and updates *)

Module JobManagerFacts.
Import JobManager.

Lemma percentage_at_end i :
  (10 <= i)%nat -> _calculate_progress_percentage i = 100%Q.
Proof.
  intros H. unfold _calculate_progress_percentage.
  replace (length step_weights - 1 <=? i)%nat with true; [done|].
  symmetry. apply Nat.leb_le. simpl. lia.
Qed.

Lemma percentage_step i :
  (0 <= _calculate_progress_percentage i)%Q
  /\ (_calculate_progress_percentage i
      <= _calculate_progress_percentage (S i))%Q
  /\ (_calculate_progress_percentage i <= 100)%Q.
Proof.
  destruct (decide (10 <= i)%nat) as [Hge|Hlt].
  - rewrite !percentage_at_end by lia. repeat split; by vm_compute.
  - do 10 (destruct i as [|i]; [repeat split; by vm_compute|]). lia.
Qed.

(** X1.  The percentage computed from the step weights grows with the
    step index and stays between 0 and 100, for every index (also one
    past the table). *)
Theorem calculate_progress_percentage_monotone (i j : nat) :
  (i <= j)%nat ->
  (0 <= _calculate_progress_percentage i)%Q
  /\ (_calculate_progress_percentage i <= _calculate_progress_percentage j)%Q
  /\ (_calculate_progress_percentage j <= 100)%Q.
Proof.
  intros Hij. split; [apply percentage_step|]. split; [|apply percentage_step].
  induction Hij as [|j Hij IH]; [apply Qle_refl|].
  eapply Qle_trans; [exact IH|apply percentage_step].
Qed.

Lemma calculate_progress_percentage_witness :
  (4 <= 5)%nat
  /\ Qred (_calculate_progress_percentage 4) = 35%Q
  /\ Qred (_calculate_progress_percentage 5) = 65%Q
  /\ (0 <= _calculate_progress_percentage 4)%Q
  /\ (_calculate_progress_percentage 4 <= _calculate_progress_percentage 5)%Q
  /\ (_calculate_progress_percentage 5 <= 100)%Q.
Proof.
  split; [lia|]. split; [vm_compute; reflexivity|].
  split; [vm_compute; reflexivity|].
  apply (calculate_progress_percentage_monotone 4 5). lia.
Defined.

(** Every step has its place in the weight table. *)
Lemma index_of_total step : is_Some (index_of step step_weights).
Proof. destruct step; vm_compute; eauto. Qed.

Lemma update_progress_run id st step err r p0 idx :
  get_progress id r = Some p0 ->
  index_of step step_weights = Some idx ->
  update_progress id st step err r
  = (true,
     setex_progress
       (mkJobProgress id st step (_calculate_progress_percentage idx)
                      (total_steps p0) idx err) r).
Proof. intros Hp Hidx. unfold update_progress. by rewrite Hp, Hidx. Qed.

(** X2.  [update_progress] succeeds exactly on a registered job.  It then
    stores the requested status, step and error text with the percentage
    of the step's index, keeps [total_steps], and issues one write; the
    records of the other jobs and every stored result stay as they were.
    On an unknown job the store is left untouched. *)
Theorem update_progress_registered (id : string) (st : JobStatus)
    (step : JobStep) (err : option string) (r : Redis) :
  let out := update_progress id st step err r in
  (out.1 = true <-> is_Some (get_progress id r))
  /\ (out.1 = false -> out.2 = r)
  /\ (forall p0, get_progress id r = Some p0 ->
        exists idx,
          index_of step step_weights = Some idx
          /\ get_progress id out.2
             = Some (mkJobProgress id st step
                       (_calculate_progress_percentage idx)
                       (total_steps p0) idx err)
          /\ length (progress_writes out.2)
             = S (length (progress_writes r)))
  /\ (forall id', id' <> id -> get_progress id' out.2 = get_progress id' r)
  /\ kv_result out.2 = kv_result r
  /\ result_writes out.2 = result_writes r.
Proof.
  intros out. subst out. unfold update_progress.
  destruct (index_of_total step) as [idx Hidx]. rewrite Hidx.
  destruct (get_progress id r) as [p0|] eqn:Hp; simpl.
  - split; [split; eauto|]. split; [done|]. split.
    + intros p Heq. inversion Heq; subst p. exists idx. split; [done|].
      split; [apply lookup_insert_eq|]. rewrite length_app. simpl. lia.
    + split; [|done]. intros id' Hne. unfold get_progress. simpl.
      by rewrite lookup_insert_ne.
  - split; [split; [done|by intros [? ?]]|]. split; [done|].
    split; [done|]. done.
Qed.

(** X3.  [mark_failed] on a registered job stores the status FAILED at
    the step COMPLETED, hence with 100 percent, together with the error
    text; a result stored earlier stays in place. *)
Theorem mark_failed_stores_full_percentage (id err : string) (r : Redis)
    (p0 : JobProgress) :
  get_progress id r = Some p0 ->
  (mark_failed id err r).1 = true
  /\ (exists p,
        get_progress id (mark_failed id err r).2 = Some p
        /\ status p = FAILED /\ current_step p = STEP_COMPLETED
        /\ (progress_percentage p == 100)%Q
        /\ error_message p = Some err
        /\ total_steps p = total_steps p0)
  /\ get_result id (mark_failed id err r).2 = get_result id r.
Proof.
  intros Hp. unfold mark_failed, update_progress. rewrite Hp.
  replace (index_of STEP_COMPLETED step_weights) with (Some 10%nat)
    by (vm_compute; reflexivity).
  simpl. split; [done|]. split; [|done].
  eexists. split; [apply lookup_insert_eq|]. simpl.
  repeat split; try done.
Qed.

Lemma mark_failed_witness :
  let r := create_job "job_1" empty_redis in
  (mark_failed "job_1" "boom" r).1 = true
  /\ (exists p,
        get_progress "job_1" (mark_failed "job_1" "boom" r).2 = Some p
        /\ status p = FAILED /\ current_step p = STEP_COMPLETED
        /\ (progress_percentage p == 100)%Q
        /\ error_message p = Some "boom"
        /\ total_steps p = 10%nat)
  /\ get_result "job_1" (mark_failed "job_1" "boom" r).2 = None.
Proof.
  exact (mark_failed_stores_full_percentage "job_1" "boom"
           (create_job "job_1" empty_redis)
           (mkJobProgress "job_1" PENDING INITIALIZATION 0 10 0 None)
           eq_refl).
Defined.

End JobManagerFacts.

(** ** The webhook sender *)

Module WebhookFacts.
Import JobManager AsyncJobProcessor.

(** The status codes the sender takes for a delivery. *)
Definition accepted (code : Z) : Prop := code = 200 \/ code = 201 \/ code = 202.

(** What one pass through the loop, entered at [attempt], leaves behind:
    at most [remaining] requests, the pauses of the attempts it went
    through, and nothing else. *)
Lemma retry_loop_bounds env remaining :
  forall attempt w,
    (attempt + remaining = 3)%nat ->
    let r := (retry_loop env remaining attempt w).1 in
    let w' := (retry_loop env remaining attempt w).2 in
    (posts w <= posts w' <= posts w + remaining)%nat
    /\ ((0 < remaining)%nat -> (posts w < posts w')%nat)
    /\ (exists k, sleeps w' = sleeps w ++ take k (drop attempt [2; 4]))
    /\ active_jobs w' = active_jobs w
    /\ cancel_requested w' = cancel_requested w
    /\ temp_files w' = temp_files w
    /\ (r = Ok true ->
        exists code, post env (posts w' - 1) = Ok code /\ accepted code)
    /\ (forall msg, r <> Raise (Exception msg)).
Proof.
  induction remaining as [|rem IH]; intros attempt w Hsum; simpl.
  { split; [lia|]. split; [lia|]. split; [exists 0%nat; by rewrite app_nil_r|].
    repeat split; done. }
  assert (Hcont : forall w1,
    posts w1 = S (posts w) -> sleeps w1 = sleeps w ->
    active_jobs w1 = active_jobs w -> cancel_requested w1 = cancel_requested w ->
    temp_files w1 = temp_files w ->
    let m := Py.bind
               (if (attempt <? max_retry_attempts - 1)%nat
                then asyncio_sleep env (retry_delay * (Z.of_nat attempt + 1))
                else Py.ret tt)
               (fun _ => retry_loop env rem (S attempt)) in
    (posts w <= posts (m w1).2 <= posts w + S rem)%nat
    /\ ((0 < S rem)%nat -> (posts w < posts (m w1).2)%nat)
    /\ (exists k, sleeps (m w1).2 = sleeps w ++ take k (drop attempt [2; 4]))
    /\ active_jobs (m w1).2 = active_jobs w
    /\ cancel_requested (m w1).2 = cancel_requested w
    /\ temp_files (m w1).2 = temp_files w
    /\ ((m w1).1 = Ok true ->
        exists code, post env (posts (m w1).2 - 1) = Ok code /\ accepted code)
    /\ (forall msg, (m w1).1 <> Raise (Exception msg))).
  { intros w1 Hp Hs Ha Hc Ht m. subst m. unfold Py.bind.
    destruct (attempt <? max_retry_attempts - 1)%nat eqn:Hlast; simpl.
    - apply Nat.ltb_lt in Hlast. unfold max_retry_attempts in Hlast.
      unfold asyncio_sleep.
      assert (drop attempt [2; 4]
              = retry_delay * (Z.of_nat attempt + 1) :: drop (S attempt) [2; 4])
        as Hdrop.
      { destruct attempt as [|[|a]]; [done|done|lia]. }
      destruct (sleep_cancelled env _); simpl.
      + split; [lia|]. split; [lia|].
        split; [exists 1%nat; by rewrite Hdrop, Hs|]. repeat split; done.
      + match goal with |- context [retry_loop env rem (S attempt) ?w2] =>
          specialize (IH (S attempt) w2 ltac:(lia)); simpl in IH;
          destruct IH as (Hpo & Hpos & (k & Hk) & Ha' & Hc' & Ht' & Htrue & Hexn)
        end.
        split; [lia|]. split; [lia|]. split.
        { exists (S k). rewrite Hk, Hs, Hdrop. simpl. by rewrite <- app_assoc. }
        split; [congruence|]. split; [congruence|]. split; [congruence|].
        split; done.
    - apply Nat.ltb_ge in Hlast. unfold max_retry_attempts in Hlast.
      specialize (IH (S attempt) w1 ltac:(lia)); simpl in IH.
      destruct IH as (Hpo & Hpos & (k & Hk) & Ha' & Hc' & Ht' & Htrue & Hexn).
      split; [lia|]. split; [lia|]. split.
      { exists 0%nat. rewrite Hk, Hs. rewrite !drop_ge by (simpl; lia).
        by rewrite take_nil. }
      split; [congruence|]. split; [congruence|]. split; [congruence|].
      split; done. }
  unfold client_post.
  destruct (post env (posts w)) as [code|[msg|]] eqn:Hpost; simpl.
  - case_bool_decide as Hacc; simpl.
    { split; [lia|]. split; [lia|].
      split; [exists 0%nat; by rewrite app_nil_r|].
      repeat split; try done. intros _. exists code.
      rewrite Nat.sub_0_r. split; [done|exact Hacc]. }
    case_bool_decide; simpl.
    { split; [lia|]. split; [lia|].
      split; [exists 0%nat; by rewrite app_nil_r|]. repeat split; done. }
    by apply Hcont.
  - by apply Hcont.
  - split; [lia|]. split; [lia|].
    split; [exists 0%nat; by rewrite app_nil_r|]. repeat split; done.
Qed.

(** X4.  One call of the sender issues between one and three requests;
    the pauses it takes are 2 seconds, then 4 seconds, and never a third
    one; it answers True only when its last request was answered 200, 201
    or 202; it lets no [Exception] escape; and it touches neither the
    store nor the job table. *)
Theorem send_webhook_with_retry_bounds (env : Env) (w : World) :
  let r := (_send_webhook_with_retry env w).1 in
  let w' := (_send_webhook_with_retry env w).2 in
  (posts w < posts w' <= posts w + 3)%nat
  /\ (exists k, sleeps w' = sleeps w ++ take k [2; 4])
  /\ redis w' = redis w
  /\ active_jobs w' = active_jobs w
  /\ temp_files w' = temp_files w
  /\ (r = Ok true ->
      exists code, post env (posts w' - 1) = Ok code /\ accepted code)
  /\ (forall msg, r <> Raise (Exception msg)).
Proof.
  intros r w'. subst r w'. unfold _send_webhook_with_retry, max_retry_attempts.
  destruct (retry_loop_bounds env 3 0 w eq_refl)
    as (Hpo & Hpos & Hk & Ha & _ & Ht & Htrue & Hexn).
  split; [lia|]. split; [exact Hk|].
  split; [apply ProcessorFacts.retry_loop_redis|]. by repeat split.
Qed.

(** The answers after which the sender tries again. *)
Definition retried (o : outcome Z) : Prop :=
  match o with
  | Ok code => ~ accepted code /\ ~ (400 <= code < 500)
  | Raise (Exception _) => True
  | Raise CancelledError => False
  end.

Lemma retry_loop_exhausts env :
  (forall n, retried (post env n)) ->
  (forall n, sleep_cancelled env n = false) ->
  forall remaining attempt w,
    (attempt + remaining = 3)%nat ->
    (retry_loop env remaining attempt w).1 = Ok false
    /\ posts (retry_loop env remaining attempt w).2
       = (posts w + remaining)%nat
    /\ sleeps (retry_loop env remaining attempt w).2
       = sleeps w ++ drop attempt [2; 4].
Proof.
  intros Hpost Hsleep.
  induction remaining as [|rem IH]; intros attempt w Hsum; simpl.
  { split; [done|]. split; [lia|].
    rewrite drop_ge by (simpl; lia). by rewrite app_nil_r. }
  unfold client_post. specialize (Hpost (posts w)).
  assert (Hcont : forall w1,
    posts w1 = S (posts w) -> sleeps w1 = sleeps w ->
    let m := Py.bind
               (if (attempt <? max_retry_attempts - 1)%nat
                then asyncio_sleep env (retry_delay * (Z.of_nat attempt + 1))
                else Py.ret tt)
               (fun _ => retry_loop env rem (S attempt)) in
    (m w1).1 = Ok false
    /\ posts (m w1).2 = (posts w + S rem)%nat
    /\ sleeps (m w1).2 = sleeps w ++ drop attempt [2; 4]).
  { intros w1 Hp Hs m. subst m. unfold Py.bind.
    destruct (attempt <? max_retry_attempts - 1)%nat eqn:Hlast; simpl.
    - apply Nat.ltb_lt in Hlast. unfold max_retry_attempts in Hlast.
      unfold asyncio_sleep. rewrite Hsleep. simpl.
      match goal with |- context [retry_loop env rem (S attempt) ?w2] =>
        destruct (IH (S attempt) w2 ltac:(lia)) as (Hr & Hpo & Hsl)
      end.
      simpl in *. split; [done|]. split; [lia|]. rewrite Hsl, Hs.
      rewrite <- app_assoc. f_equal.
      destruct attempt as [|[|a]]; [done|done|lia].
    - apply Nat.ltb_ge in Hlast. unfold max_retry_attempts in Hlast.
      destruct (IH (S attempt) w1 ltac:(lia)) as (Hr & Hpo & Hsl).
      split; [done|]. split; [lia|]. rewrite Hsl, Hs.
      by rewrite !drop_ge by (simpl; lia). }
  destruct (post env (posts w)) as [code|[msg|]]; simpl in *; [| |done].
  - destruct Hpost as [Hna Hn4]. unfold accepted in Hna.
    rewrite !bool_decide_eq_false_2 by done. by apply Hcont.
  - by apply Hcont.
Qed.

(** X5.  When every request fails in a way that is retried (a status
    outside 200-202 and 4xx, or an exception) and no pause is cancelled,
    the sender makes exactly three requests, pauses 2 and then 4 seconds,
    takes no pause after the last attempt, and answers False. *)
Theorem send_webhook_exhausts_three_attempts (env : Env) (w : World) :
  (forall n, retried (post env n)) ->
  (forall n, sleep_cancelled env n = false) ->
  (_send_webhook_with_retry env w).1 = Ok false
  /\ posts (_send_webhook_with_retry env w).2 = (posts w + 3)%nat
  /\ sleeps (_send_webhook_with_retry env w).2 = sleeps w ++ [2; 4].
Proof.
  intros Hpost Hsleep.
  exact (retry_loop_exhausts env Hpost Hsleep 3 0 w eq_refl).
Qed.

Definition unavailable_hook : Env :=
  mkEnv (Ok tt) (Ok (OrchSuccess "document")) (fun _ => Ok 503)
        (fun _ => false).

Lemma send_webhook_exhausts_witness :
  (forall n, retried (post unavailable_hook n))
  /\ (forall n, sleep_cancelled unavailable_hook n = false)
  /\ (_send_webhook_with_retry unavailable_hook ProcessorFacts.empty_world).1
     = Ok false
  /\ posts (_send_webhook_with_retry unavailable_hook
              ProcessorFacts.empty_world).2 = 3%nat
  /\ sleeps (_send_webhook_with_retry unavailable_hook
               ProcessorFacts.empty_world).2 = [2; 4].
Proof.
  assert (H1 : forall n, retried (post unavailable_hook n)).
  { intros n. simpl. unfold accepted. lia. }
  assert (H2 : forall n, sleep_cancelled unavailable_hook n = false) by done.
  split; [exact H1|]. split; [exact H2|].
  exact (send_webhook_exhausts_three_attempts unavailable_hook
           ProcessorFacts.empty_world H1 H2).
Defined.

End WebhookFacts.

(** ** The staged processor: clean-up, outcomes and failures *)

Module ProcessorExtra.
Import JobManager AsyncJobProcessor ProcessorFacts.

(** *** The job table and the temporary files *)

Definition same_tasks (w w' : World) : Prop :=
  active_jobs w' = active_jobs w
  /\ cancel_requested w' = cancel_requested w
  /\ temp_files w' = temp_files w.

#[local] Instance same_tasks_refl : Reflexive same_tasks.
Proof. by intros w. Qed.

#[local] Instance same_tasks_trans : Transitive same_tasks.
Proof. intros a b c (? & ? & ?) (? & ? & ?). repeat split; congruence. Qed.

Lemma lift_redis_same_tasks {A} (f : Redis -> A * Redis) :
  preserves same_tasks (lift_redis f).
Proof. intros w. unfold lift_redis. by destruct (f (redis w)). Qed.

Lemma retry_same_tasks env : preserves same_tasks (_send_webhook_with_retry env).
Proof.
  intros w. unfold _send_webhook_with_retry, max_retry_attempts.
  destruct (WebhookFacts.retry_loop_bounds env 3 0 w eq_refl)
    as (_ & _ & _ & Ha & Hc & Ht & _).
  by repeat split.
Qed.

Ltac tasks :=
  repeat lazymatch goal with
  | |- Reflexive _ => typeclasses eauto
  | |- Transitive _ => typeclasses eauto
  | |- forall _, _ => intros ?
  | |- preserves _ (Py.bind _ _) => apply preserves_bind
  | |- preserves _ (Py.ret _) => apply preserves_ret
  | |- preserves _ (Py.raise _) => apply preserves_raise
  | |- preserves _ (Py.try_except _ _) => apply preserves_try_except
  | |- preserves _ (of_outcome _) => apply preserves_const
  | |- preserves _ (lift_redis _) => apply lift_redis_same_tasks
  | |- preserves _ (_send_webhook_with_retry _) => apply retry_same_tasks
  | |- preserves _ (match ?x with _ => _ end) => destruct x
  end.

(** The [try] block of [_process_pipeline] with its handler. *)
Definition stages (env : Env) (ctx : ProcessingContext) : Py.M World unit :=
  Py.bind (_update_stage_progress ctx ST_INITIALIZATION 0) (fun _ =>
  Py.bind (of_outcome (file_read env)) (fun _ =>
  Py.bind (_execute_pdf_extraction env ctx) (fun final_result =>
  Py.bind (_execute_block_transformation ctx) (fun _ =>
  Py.bind (_execute_image_generation ctx) (fun _ =>
  Py.bind (_execute_phoneme_analysis ctx) (fun _ =>
  Py.bind (_execute_final_processing ctx) (fun _ =>
  _handle_completion env ctx final_result))))))).

Definition guarded (env : Env) (ctx : ProcessingContext) : Py.M World unit :=
  Py.try_except (stages env ctx) (fun msg => _handle_failure env ctx msg).

Lemma _process_pipeline_unfold env ctx :
  _process_pipeline env ctx = Py.try_finally (guarded env ctx) (_cleanup ctx).
Proof. reflexivity. Qed.

Lemma _process_pipeline_run env ctx w :
  _process_pipeline env ctx w
  = ((guarded env ctx w).1, (_cleanup ctx (guarded env ctx w).2).2).
Proof.
  rewrite _process_pipeline_unfold. unfold Py.try_finally.
  by destruct (guarded env ctx w) as [r w1].
Qed.

Lemma guarded_same_tasks env ctx : preserves same_tasks (guarded env ctx).
Proof.
  unfold guarded, stages, _execute_pdf_extraction, _execute_block_transformation,
    _execute_image_generation, _execute_phoneme_analysis,
    _execute_final_processing, _handle_completion, _handle_failure,
    send_completion_webhook, send_failure_webhook, _update_stage_progress.
  tasks.
Qed.

Lemma _process_pipeline_tasks env ctx w :
  active_jobs (_process_pipeline env ctx w).2
  = delete (ctx_job_id ctx) (active_jobs w)
  /\ temp_files (_process_pipeline env ctx w).2
     = temp_files w ∖ {[file_path ctx]}
  /\ cancel_requested (_process_pipeline env ctx w).2 = cancel_requested w.
Proof.
  rewrite _process_pipeline_run. simpl.
  destruct (guarded_same_tasks env ctx w) as (-> & -> & ->). done.
Qed.

(** X6.  However a run ends (completed, failed or cancelled), its
    [finally] block has removed the job from the table of active jobs and
    the job's temporary file from the disk; the entries of the other jobs,
    the other files and the cancellation requests are as before. *)
Theorem process_pipeline_always_cleans_up (env : Env)
    (ctx : ProcessingContext) (w : World) :
  let w' := (_process_pipeline env ctx w).2 in
  active_jobs w' !! ctx_job_id ctx = None
  /\ (file_path ctx ∉ temp_files w')
  /\ active_jobs w' = delete (ctx_job_id ctx) (active_jobs w)
  /\ temp_files w' = temp_files w ∖ {[file_path ctx]}
  /\ cancel_requested w' = cancel_requested w.
Proof.
  intros w'. subst w'.
  destruct (_process_pipeline_tasks env ctx w) as (Ha & Ht & Hc).
  revert Ha Ht Hc. generalize ((_process_pipeline env ctx w).2).
  intros w' Ha Ht Hc.
  split; [rewrite Ha; apply lookup_delete_eq|].
  split; [|done]. rewrite Ht. intros Hin.
  apply elem_of_difference in Hin as [_ Hn]. apply Hn. by apply elem_of_singleton.
Qed.

(** X7.  [DELETE /jobs/{job_id}] answers 404 and changes nothing for a
    job whose run has ended, and for a job that was cancelled before: a
    job can be cancelled at most once. *)
Theorem cancel_job_only_while_active (env : Env) (ctx : ProcessingContext)
    (id : string) (w : World) :
  cancel_job (ctx_job_id ctx) (_process_pipeline env ctx w).2
  = (Http404, (_process_pipeline env ctx w).2)
  /\ cancel_job id (cancel_job id w).2 = (Http404, (cancel_job id w).2).
Proof.
  split.
  - destruct (_process_pipeline_tasks env ctx w) as (Ha & _).
    revert Ha. generalize ((_process_pipeline env ctx w).2). intros w' Ha.
    unfold cancel_job. by rewrite Ha, lookup_delete_eq.
  - unfold cancel_job at 2 3.
    destruct (active_jobs w !! id) as [task|] eqn:Hact; simpl.
    + unfold cancel_job. simpl. by rewrite lookup_delete_eq.
    + unfold cancel_job. by rewrite Hact.
Qed.


(** *** What a run can raise *)

(** Every exception [m] raises satisfies [E]. *)
Definition raises_only {A} (E : exn -> Prop) (m : Py.M World A) : Prop :=
  forall w e, (m w).1 = Raise e -> E e.

Lemma raises_only_ret {A} E (a : A) : raises_only E (Py.ret a).
Proof. by intros w e. Qed.

Lemma raises_only_raise {A} (E : exn -> Prop) e :
  E e -> raises_only E (@Py.raise World A e).
Proof. intros He w e' H. by inversion H; subst. Qed.

Lemma raises_only_outcome {A} (E : exn -> Prop) (o : outcome A) :
  (forall e, o = Raise e -> E e) -> raises_only E (of_outcome o).
Proof. intros Ho w e H. by apply Ho. Qed.

Lemma raises_only_lift {A} E (f : Redis -> A * Redis) :
  raises_only E (lift_redis f).
Proof. intros w e. unfold lift_redis. by destruct (f (redis w)). Qed.

Lemma raises_only_bind {A B} E (m : Py.M World A) (k : A -> Py.M World B) :
  raises_only E m -> (forall a, raises_only E (k a)) ->
  raises_only E (Py.bind m k).
Proof.
  intros Hm Hk w e. unfold Py.bind. specialize (Hm w).
  destruct (m w) as [[a|e'] w1]; simpl in *.
  - apply Hk.
  - intros H. inversion H; subst. by apply Hm.
Qed.

Lemma raises_only_try_except {A} (E' E : exn -> Prop) (m : Py.M World A) h :
  raises_only E' m -> (forall msg, raises_only E (h msg)) ->
  (E' CancelledError -> E CancelledError) ->
  raises_only E (Py.try_except m h).
Proof.
  intros Hm Hh Hc w e. unfold Py.try_except. specialize (Hm w).
  destruct (m w) as [[a|[msg|]] w1]; simpl in *; [done|apply Hh|].
  intros H. inversion H; subst. by apply Hc, Hm.
Qed.

Lemma raises_only_stage E ctx stage sp :
  raises_only E (_update_stage_progress ctx stage sp).
Proof.
  unfold _update_stage_progress.
  apply raises_only_bind; [apply raises_only_lift|].
  intros _. apply raises_only_ret.
Qed.

(** The sender is interrupted only by a cancellation that reaches one of
    its requests or pauses. *)
Definition webhook_cancelled (env : Env) : Prop :=
  exists n, post env n = Raise CancelledError \/ sleep_cancelled env n = true.

Lemma retry_loop_raises env remaining :
  forall attempt,
    raises_only (fun e => e = CancelledError /\ webhook_cancelled env)
                (retry_loop env remaining attempt).
Proof.
  induction remaining as [|rem IH]; intros attempt w e; simpl; [done|].
  assert (Hcont : forall w1,
    (Py.bind
       (if (attempt <? max_retry_attempts - 1)%nat
        then asyncio_sleep env (retry_delay * (Z.of_nat attempt + 1))
        else Py.ret tt)
       (fun _ => retry_loop env rem (S attempt)) w1).1 = Raise e ->
    e = CancelledError /\ webhook_cancelled env).
  { intros w1. unfold Py.bind.
    destruct (attempt <? max_retry_attempts - 1)%nat; simpl; [|apply IH].
    unfold asyncio_sleep.
    destruct (sleep_cancelled env (length (sleeps w1))) eqn:Hs; simpl;
      [|apply IH].
    intros H. inversion H; subst. split; [done|]. eexists. by right. }
  unfold client_post.
  destruct (post env (posts w)) as [code|[msg|]] eqn:Hpost; simpl.
  - repeat case_bool_decide; simpl; try done. apply Hcont.
  - apply Hcont.
  - intros H. inversion H; subst. split; [done|]. eexists. by left.
Qed.

(** A cancellation reached one of the calls the run awaits. *)
Definition awaited_call_cancelled (env : Env) (ctx : ProcessingContext)
    : Prop :=
  file_read env = Raise CancelledError
  \/ orchestrator env = Raise CancelledError
  \/ (truthy (webhook_url ctx) <> None /\ webhook_cancelled env).

Lemma guarded_raises env ctx :
  raises_only (fun e => e = CancelledError /\ awaited_call_cancelled env ctx)
              (guarded env ctx).
Proof.
  unfold guarded, stages.
  apply (raises_only_try_except
           (fun e => e = CancelledError -> awaited_call_cancelled env ctx)).
  - apply raises_only_bind; [apply raises_only_stage|]. intros _.
    apply raises_only_bind.
    { apply raises_only_outcome. intros e He ->. by left. }
    intros _. apply raises_only_bind.
    { unfold _execute_pdf_extraction.
      apply raises_only_bind; [apply raises_only_stage|]. intros _.
      apply raises_only_bind.
      { apply raises_only_outcome. intros e He ->. right. by left. }
      intros [data|error].
      - apply raises_only_bind; [apply raises_only_stage|]. intros _.
        apply raises_only_ret.
      - by apply raises_only_raise. }
    intros final_result.
    unfold _execute_block_transformation, _execute_image_generation,
      _execute_phoneme_analysis, _execute_final_processing.
    repeat (apply raises_only_bind;
            [first [apply raises_only_stage
                   |apply raises_only_bind; [apply raises_only_stage|];
                    intros _; apply raises_only_stage]|]; intros _).
    unfold _handle_completion.
    destruct (truthy (webhook_url ctx)) as [url|] eqn:Hurl.
    + apply raises_only_bind; [apply raises_only_lift|]. intros _.
      apply raises_only_bind; [|intros _; apply raises_only_ret].
      unfold send_completion_webhook.
      apply (raises_only_try_except
               (fun e => e = CancelledError -> awaited_call_cancelled env ctx)).
      * apply raises_only_bind.
        { intros w e He ->.
          destruct (retry_loop_raises env _ _ w _ He) as [_ Hc].
          right; right. split; [by rewrite Hurl|done]. }
        intros b. apply raises_only_bind; [apply raises_only_lift|].
        intros _. apply raises_only_ret.
      * intros msg. apply raises_only_bind; [apply raises_only_lift|].
        intros _. apply raises_only_ret.
      * done.
    + apply raises_only_bind; [apply raises_only_lift|]. intros _.
      apply raises_only_bind; [apply raises_only_lift|]. intros _.
      apply raises_only_ret.
  - intros msg. unfold _handle_failure.
    destruct (truthy (webhook_url ctx)) as [url|] eqn:Hurl.
    + apply raises_only_bind; [|intros _; apply raises_only_ret].
      unfold send_failure_webhook.
      apply (raises_only_try_except
               (fun e => e = CancelledError /\ awaited_call_cancelled env ctx)).
      * apply raises_only_bind.
        { intros w e He.
          destruct (retry_loop_raises env _ _ w _ He) as [-> Hc].
          split; [done|]. right; right. split; [by rewrite Hurl|done]. }
        intros b. apply raises_only_bind; [apply raises_only_lift|].
        intros _. apply raises_only_ret.
      * intros msg'. apply raises_only_bind; [apply raises_only_lift|].
        intros _. apply raises_only_ret.
      * done.
    + apply raises_only_bind; [apply raises_only_lift|]. intros _.
      apply raises_only_ret.
  - intros H. split; [done|]. by apply H.
Qed.

(** X8.  A run never lets an [Exception] escape: it ends normally, or it
    is cancelled, and then a cancellation did reach one of the calls it
    awaits (reading the file, the orchestrator, or, with a webhook URL, a
    request or a pause of the webhook sender). *)
Theorem process_pipeline_never_raises_exception (env : Env)
    (ctx : ProcessingContext) (w : World) :
  (_process_pipeline env ctx w).1 = Ok tt
  \/ ((_process_pipeline env ctx w).1 = Raise CancelledError
      /\ awaited_call_cancelled env ctx).
Proof.
  rewrite _process_pipeline_run. simpl.
  destruct (guarded env ctx w).1 as [[]|e] eqn:Hr; [by left|right].
  by destruct (guarded_raises env ctx w e Hr) as [-> Hc].
Qed.

(** *** Stage reports *)


(** *** Failed runs *)

(** The store after a step that writes no result. *)
Definition quiet (id : string) (w w' : World) : Prop :=
  has_job id w'
  /\ kv_result (redis w') = kv_result (redis w)
  /\ result_writes (redis w') = result_writes (redis w).

Lemma quiet_trans id w w1 w2 : quiet id w w1 -> quiet id w1 w2 -> quiet id w w2.
Proof. intros (? & ? & ?) (? & ? & ?). repeat split; [done|congruence..]. Qed.

Lemma stage_quiet ctx stage sp w :
  has_job (ctx_job_id ctx) w ->
  exists w1, _update_stage_progress ctx stage sp w = (Ok tt, w1)
             /\ quiet (ctx_job_id ctx) w w1.
Proof.
  intros [p0 Hp]. unfold _update_stage_progress, Py.bind, lift_redis,
    _update_job_progress_direct. rewrite Hp. simpl.
  eexists. split; [reflexivity|]. split; [|done].
  eexists. apply lookup_insert_eq.
Qed.

(** The text of the exception that ends the stages early, if any. *)
Definition failure_text (env : Env) : option string :=
  match file_read env with
  | Raise (Exception msg) => Some msg
  | Raise CancelledError => None
  | Ok _ =>
      match orchestrator env with
      | Raise (Exception msg) => Some msg
      | Ok (OrchFailure error) =>
          Some ("파이프라인 실패: " +:+ default "Unknown error" error)
      | _ => None
      end
  end.

Lemma stages_fail env ctx w msg :
  has_job (ctx_job_id ctx) w ->
  failure_text env = Some msg ->
  exists w1, stages env ctx w = (Raise (Exception msg), w1)
             /\ quiet (ctx_job_id ctx) w w1.
Proof.
  intros Hjob Htext. unfold stages, failure_text in *.
  destruct (stage_quiet ctx ST_INITIALIZATION 0 w Hjob) as (w1 & E1 & Q1).
  rewrite (bind_Ok _ _ _ _ _ E1).
  destruct (file_read env) as [[]|[m|]] eqn:Hread; [| |done].
  - rewrite (bind_Ok _ _ w1 tt w1) by done.
    unfold _execute_pdf_extraction.
    destruct Q1 as (Hjob1 & Hq1).
    destruct (stage_quiet ctx ST_PDF_EXTRACTION 0 w1 Hjob1) as (w2 & E2 & Q2).
    assert (quiet (ctx_job_id ctx) w w2) as Q by (by eapply quiet_trans).
    exists w2. split; [|done].
    erewrite bind_Raise; [reflexivity|].
    rewrite (bind_Ok _ _ _ _ _ E2).
    destruct (orchestrator env) as [[data|error]|[m|]] eqn:Horch; try done.
    + rewrite (bind_Ok _ _ w2 (OrchFailure error) w2) by done.
      by inversion Htext.
    + inversion Htext; subst. by erewrite bind_Raise.
  - inversion Htext; subst. exists w1. split; [|done].
    by erewrite bind_Raise.
Qed.

Lemma mark_failed_quiet id err w :
  has_job id w ->
  exists w1 p,
    lift_redis (mark_failed id err) w = (Ok true, w1)
    /\ quiet id w w1
    /\ get_progress id (redis w1) = Some p
    /\ status p = FAILED /\ error_message p = Some err
    /\ (progress_percentage p == 100)%Q.
Proof.
  intros [p0 Hp]. unfold lift_redis, mark_failed.
  rewrite (JobManagerFacts.update_progress_run id FAILED STEP_COMPLETED
             (Some err) (redis w) p0 10 Hp eq_refl).
  eexists _, _. split; [reflexivity|]. simpl.
  split; [split; [eexists; apply lookup_insert_eq|done]|].
  split; [apply lookup_insert_eq|]. done.
Qed.

Lemma _handle_failure_run env ctx msg w :
  has_job (ctx_job_id ctx) w ->
  truthy (webhook_url ctx) = None \/ ~ webhook_cancelled env ->
  exists w1 p,
    _handle_failure env ctx msg w = (Ok tt, w1)
    /\ quiet (ctx_job_id ctx) w w1
    /\ get_progress (ctx_job_id ctx) (redis w1) = Some p
    /\ status p = FAILED /\ error_message p = Some msg
    /\ (progress_percentage p == 100)%Q.
Proof.
  intros Hjob Hhook. unfold _handle_failure.
  destruct (truthy (webhook_url ctx)) as [url|] eqn:Hurl.
  - destruct Hhook as [?|Hnc]; [done|].
    unfold send_failure_webhook, Py.try_except.
    pose proof (retry_loop_redis env max_retry_attempts 0 w) as Hredis.
    pose proof (retry_loop_raises env max_retry_attempts 0 w) as Hraise.
    pose proof (retry_loop_outcome env max_retry_attempts 0 w) as Hout.
    unfold Py.bind at 1 2. unfold _send_webhook_with_retry.
    destruct (retry_loop env max_retry_attempts 0 w) as [[b|e] w0];
      simpl in *.
    + assert (has_job (ctx_job_id ctx) w0) as Hjob0
        by (unfold has_job; by rewrite Hredis).
      destruct (mark_failed_quiet (ctx_job_id ctx) msg w0 Hjob0)
        as (w1 & p & E & (Hj & Hk & Hr) & Hp & Hrest).
      unfold Py.bind. rewrite E. simpl. exists w1, p.
      split; [done|]. split; [|done].
      split; [done|]. by rewrite Hk, Hr, Hredis.
    + destruct (Hraise e eq_refl) as [_ Hc]. by destruct Hnc.
  - destruct (mark_failed_quiet (ctx_job_id ctx) msg w Hjob)
      as (w1 & p & E & Hq & Hp & Hrest).
    unfold Py.bind. rewrite E. simpl. by exists w1, p.
Qed.

(** X10.  When reading the file or the orchestrator raises an exception,
    or the orchestrator reports a failure, the run ends normally with the
    job marked FAILED: the stored record carries the text of the exception
    (for a reported failure, the orchestrator's error behind a fixed
    prefix, or "Unknown error"), 100 percent, and no result is written.
    With a webhook URL this holds as long as the webhook sender is not
    cancelled, whatever the webhook answers. *)
Theorem failed_run_is_recorded (env : Env) (ctx : ProcessingContext)
    (w : World) (msg : string) :
  has_job (ctx_job_id ctx) w ->
  failure_text env = Some msg ->
  truthy (webhook_url ctx) = None \/ ~ webhook_cancelled env ->
  let w' := (_process_pipeline env ctx w).2 in
  (_process_pipeline env ctx w).1 = Ok tt
  /\ (exists p,
        get_progress (ctx_job_id ctx) (redis w') = Some p
        /\ status p = FAILED /\ error_message p = Some msg
        /\ (progress_percentage p == 100)%Q)
  /\ result_writes (redis w') = result_writes (redis w)
  /\ kv_result (redis w') = kv_result (redis w).
Proof.
  intros Hjob Htext Hhook w'. subst w'.
  rewrite _process_pipeline_run. simpl. unfold guarded, Py.try_except.
  destruct (stages_fail env ctx w msg Hjob Htext) as (w1 & E1 & Q1).
  rewrite E1.
  destruct (_handle_failure_run env ctx msg w1 (proj1 Q1) Hhook)
    as (w2 & p & E2 & Q2 & Hp & Hrest).
  rewrite E2. simpl. split; [done|].
  destruct (quiet_trans _ _ _ _ Q1 Q2) as (_ & Hk & Hr).
  split; [by exists p|]. done.
Qed.

Definition refusing_orchestrator : Env :=
  mkEnv (Ok tt) (Ok (OrchFailure (Some "corrupt PDF"))) (fun _ => Ok 200)
        (fun _ => false).

Lemma failed_run_witness :
  let ctx := (submitted None).1 in
  let w := (submitted None).2 in
  let w' := (_process_pipeline refusing_orchestrator ctx w).2 in
  (_process_pipeline refusing_orchestrator ctx w).1 = Ok tt
  /\ (exists p,
        get_progress (ctx_job_id ctx) (redis w') = Some p
        /\ status p = FAILED
        /\ error_message p = Some "파이프라인 실패: corrupt PDF"
        /\ (progress_percentage p == 100)%Q)
  /\ result_writes (redis w') = result_writes (redis w)
  /\ kv_result (redis w') = kv_result (redis w).
Proof.
  assert (Hjob : has_job (ctx_job_id (submitted None).1) (submitted None).2).
  { vm_compute. eauto. }
  exact (failed_run_is_recorded refusing_orchestrator (submitted None).1
           (submitted None).2 _ Hjob eq_refl (or_introl eq_refl)).
Defined.

End ProcessorExtra.

(** ** The read endpoints after a run *)

Module RouterFacts.
Import JobManager AsyncJobProcessor ProcessorFacts ProcessorExtra RouterV2.

(** From [w] to [w'] the results [l] were stored, each for the job [id]
    with a document that satisfies [P]. *)
Definition stored (id fname : string) (P : string -> Prop) (w w' : World)
    : Prop :=
  exists l,
    result_writes (redis w') = result_writes (redis w) ++ l
    /\ kv_result (redis w')
       = foldl (fun m x => <[result_job_id x := x]> m) (kv_result (redis w)) l
    /\ Forall (fun x => exists data,
                 P data /\ x = mkJobResult id COMPLETED fname data None) l.

#[local] Instance stored_refl id fname P : Reflexive (stored id fname P).
Proof. intros w. exists []. by rewrite app_nil_r. Qed.

#[local] Instance stored_trans id fname P : Transitive (stored id fname P).
Proof.
  intros a b c (l & Hl & Hk & Hf) (l' & Hl' & Hk' & Hf'). exists (l ++ l').
  rewrite Hl', Hl, <- app_assoc, Hk', Hk, foldl_app.
  split; [done|]. split; [done|]. by apply Forall_app.
Qed.

Lemma stored_same_results id fname P w w' :
  kv_result (redis w') = kv_result (redis w) ->
  result_writes (redis w') = result_writes (redis w) ->
  stored id fname P w w'.
Proof. intros Hk Hr. exists []. by rewrite app_nil_r. Qed.

Lemma update_progress_stored id fname P id' st step err :
  preserves (stored id fname P) (lift_redis (update_progress id' st step err)).
Proof.
  intros w. unfold lift_redis, update_progress.
  destruct (get_progress id' (redis w)); [|by apply stored_same_results].
  destruct (index_of step step_weights); by apply stored_same_results.
Qed.

Lemma stage_stored id fname P ctx stage sp :
  preserves (stored id fname P) (_update_stage_progress ctx stage sp).
Proof.
  intros w. unfold _update_stage_progress, Py.bind, lift_redis,
    _update_job_progress_direct.
  destruct (get_progress _ (redis w)); by apply stored_same_results.
Qed.

Lemma retry_stored id fname P env :
  preserves (stored id fname P) (_send_webhook_with_retry env).
Proof.
  intros w. unfold _send_webhook_with_retry.
  apply stored_same_results; by rewrite retry_loop_redis.
Qed.

Lemma save_result_stored id fname P data :
  P data ->
  preserves (stored id fname P) (lift_redis (save_result id data fname)).
Proof.
  intros HP w. unfold lift_redis, save_result.
  destruct (get_progress id (redis w)) as [p0|] eqn:Hp;
    [|by apply stored_same_results].
  unfold update_progress.
  replace (get_progress id
             (setex_result (mkJobResult id COMPLETED fname data None) (redis w)))
    with (Some p0) by done.
  simpl. exists [mkJobResult id COMPLETED fname data None].
  split; [done|]. split; [done|]. constructor; [|done]. by exists data.
Qed.

Lemma preserves_bind_value {A B} (R : World -> World -> Prop)
    `{!Reflexive R} `{!Transitive R} (V : A -> Prop)
    (m : Py.M World A) (k : A -> Py.M World B) :
  preserves R m ->
  (forall w a w', m w = (Ok a, w') -> V a) ->
  (forall a, V a -> preserves R (k a)) ->
  preserves R (Py.bind m k).
Proof.
  intros Hm HV Hk w. unfold Py.bind. specialize (Hm w). specialize (HV w).
  destruct (m w) as [[a|e] w1]; simpl in *; [|done].
  etrans; [exact Hm|]. apply Hk. by eapply HV.
Qed.

(** The document a run stores is the one the orchestrator returned. *)
Definition returned (env : Env) (data : string) : Prop :=
  orchestrator env = Ok (OrchSuccess data).

Lemma _execute_pdf_extraction_value env ctx w data w' :
  _execute_pdf_extraction env ctx w = (Ok data, w') -> returned env data.
Proof.
  unfold _execute_pdf_extraction. intros H.
  apply bind_inv_Ok in H as (_ & w1 & _ & H).
  apply bind_inv_Ok in H as (res & w2 & Hres & H).
  unfold of_outcome in Hres. inversion Hres; subst.
  destruct res as [d|error]; [|done].
  apply bind_inv_Ok in H as (_ & w3 & _ & H). inversion H; subst. done.
Qed.

Ltac stored :=
  repeat lazymatch goal with
  | |- Reflexive _ => typeclasses eauto
  | |- Transitive _ => typeclasses eauto
  | |- forall _, _ => intros ?
  | |- preserves _ (Py.bind (_execute_pdf_extraction ?env _) _) =>
      apply (preserves_bind_value _ (returned env))
  | |- preserves _ (_execute_pdf_extraction _ _) =>
      unfold _execute_pdf_extraction
  | |- preserves _ (Py.bind _ _) => apply preserves_bind
  | |- preserves _ (Py.ret _) => apply preserves_ret
  | |- preserves _ (Py.raise _) => apply preserves_raise
  | |- preserves _ (Py.try_except _ _) => apply preserves_try_except
  | |- preserves _ (of_outcome _) => apply preserves_const
  | |- preserves _ (_update_stage_progress _ _ _) => apply stage_stored
  | |- preserves _ (lift_redis (update_progress _ _ _ _)) =>
      apply update_progress_stored
  | |- preserves _ (lift_redis (mark_failed _ _)) =>
      apply update_progress_stored
  | |- preserves _ (lift_redis (save_result _ _ _)) =>
      apply save_result_stored; assumption
  | |- preserves _ (_send_webhook_with_retry _) => apply retry_stored
  | |- preserves _ (match ?x with _ => _ end) => destruct x
  end.

Lemma guarded_stored env ctx :
  preserves (stored (ctx_job_id ctx) (ctx_filename ctx) (returned env))
            (guarded env ctx).
Proof.
  unfold guarded, stages, _execute_block_transformation,
    _execute_image_generation, _execute_phoneme_analysis,
    _execute_final_processing, _handle_completion, send_completion_webhook,
    _handle_failure, send_failure_webhook.
  stored. by eapply _execute_pdf_extraction_value.
Qed.

Lemma _process_pipeline_stored env ctx w :
  stored (ctx_job_id ctx) (ctx_filename ctx) (returned env) w
         (_process_pipeline env ctx w).2.
Proof.
  rewrite _process_pipeline_run. simpl.
  destruct (guarded_stored env ctx w) as (l & Hl & Hk & Hf). by exists l.
Qed.

(** X11.  The result endpoint after a run on a registered job that had
    no result yet.  If the run ended normally, [GET /result/{job_id}]
    answers 200 with the document the orchestrator returned (the job is
    COMPLETED) or 400 (the job is FAILED), never 202 or 404.  If the run
    was cancelled, the endpoint keeps answering 202, as for a job in
    progress. *)
Theorem result_endpoint_after_run (env : Env) (ctx : ProcessingContext)
    (w : World) :
  has_job (ctx_job_id ctx) w ->
  get_result (ctx_job_id ctx) (redis w) = None ->
  let out := _process_pipeline env ctx w in
  let reply := get_job_result (ctx_job_id ctx) (redis out.2) in
  (out.1 = Ok tt
   /\ stored_status (ctx_job_id ctx) out.2 = Some COMPLETED
   /\ exists data,
        orchestrator env = Ok (OrchSuccess data)
        /\ reply = Reply200 (mkJobResultResponse (ctx_job_id ctx) "completed"
                               (ctx_filename ctx) data None))
  \/ (out.1 = Ok tt
      /\ stored_status (ctx_job_id ctx) out.2 = Some FAILED
      /\ reply = HTTPException 400)
  \/ (out.1 = Raise CancelledError /\ reply = HTTPException 202).
Proof.
  intros Hjob Hnone out reply. subst out reply.
  destruct (_process_pipeline_shape env ctx w Hjob) as (vs & n & Heff & Hshape).
  destruct (_process_pipeline_stored env ctx w) as (l & Hl & Hk & Hf).
  destruct Heff as (_ & (rs & Hrs & Hn) & p & Hp & Hlast).
  rewrite Hl in Hrs. apply app_inv_head in Hrs. subst rs.
  unfold stored_status, get_job_result, get_result. rewrite Hp, Hk.
  revert Hshape Hlast Hl Hk.
  generalize ((_process_pipeline env ctx w).1).
  generalize ((_process_pipeline env ctx w).2).
  intros w' r Hshape Hlast _ _. clear w'.
  unfold get_result in Hnone. unfold view_of in Hlast.
  assert (Hnil : n = 0%nat ->
            foldl (fun m x => <[result_job_id x := x]> m)
                  (kv_result (redis w)) l !! ctx_job_id ctx = None).
  { intros ->. apply nil_length_inv in Hn. by subst l. }
  assert (Hone : n = 1%nat ->
            exists data, returned env data
              /\ foldl (fun m x => <[result_job_id x := x]> m)
                       (kv_result (redis w)) l !! ctx_job_id ctx
                 = Some (mkJobResult (ctx_job_id ctx) COMPLETED
                                     (ctx_filename ctx) data None)).
  { intros ->. destruct l as [|x [|y l]]; [done| |done].
    apply Forall_cons in Hf as [(data & Hdata & ->) _]. exists data.
    split; [done|]. simpl. apply lookup_insert_eq. }
  clear Hn Hf.
  inversion Hshape as [vs0 [-> | ->]|vs0 [-> | ->]| | |]; subst;
    simpl in Hlast; inversion Hlast as [[Hst Hstep Hq]].
  - right; right. split; [done|]. rewrite Hnil by done.
    destruct (decide (status p = FAILED)) as [Hs|]; [|done].
    rewrite Hs in Hst. discriminate.
  - right; right. split; [done|]. rewrite Hnil by done.
    destruct (decide (status p = FAILED)) as [Hs|]; [|done].
    rewrite Hs in Hst. discriminate.
  - right; left. split; [done|]. rewrite Hnil by done. simpl.
    split; [by rewrite Hst|]. by rewrite decide_True.
  - right; left. split; [done|]. rewrite Hnil by done. simpl.
    split; [by rewrite Hst|]. by rewrite decide_True.
  - left. split; [done|]. simpl. split; [by rewrite Hst|].
    destruct (Hone eq_refl) as (data & Hdata & ->). by exists data.
  - left. split; [done|]. simpl. split; [by rewrite Hst|].
    destruct (Hone eq_refl) as (data & Hdata & ->). by exists data.
  - right; right. split; [done|]. rewrite Hnil by done.
    destruct (decide (status p = FAILED)) as [Hs|]; [|done].
    rewrite Hs in Hst. discriminate.
Qed.

Lemma result_endpoint_witness :
  let ctx := (submitted None).1 in
  let w := (submitted None).2 in
  get_job_result "job_1" (redis w) = HTTPException 202
  /\ get_job_result "job_1"
       (redis (_process_pipeline smooth_env ctx w).2)
     = Reply200 (mkJobResultResponse "job_1" "completed" "a.pdf" "document"
                                     None)
  /\ let out := _process_pipeline smooth_env ctx w in
     let reply := get_job_result (ctx_job_id ctx) (redis out.2) in
     (out.1 = Ok tt
      /\ stored_status (ctx_job_id ctx) out.2 = Some COMPLETED
      /\ exists data,
           orchestrator smooth_env = Ok (OrchSuccess data)
           /\ reply = Reply200 (mkJobResultResponse (ctx_job_id ctx)
                                  "completed" (ctx_filename ctx) data None))
     \/ (out.1 = Ok tt
         /\ stored_status (ctx_job_id ctx) out.2 = Some FAILED
         /\ reply = HTTPException 400)
     \/ (out.1 = Raise CancelledError /\ reply = HTTPException 202).
Proof.
  assert (Hjob : has_job (ctx_job_id (submitted None).1) (submitted None).2).
  { vm_compute. eauto. }
  split; [vm_compute; reflexivity|]. split; [vm_compute; reflexivity|].
  exact (result_endpoint_after_run smooth_env (submitted None).1
           (submitted None).2 Hjob eq_refl).
Defined.

End RouterFacts.

(** ** What a PRD run puts on the bus *)

Module BusFacts.
Import PubSub PRD PipelineFacts.

Definition progress_of (m : Message) : option Z :=
  match m with
  | ProgressMsg _ p _ => Some p
  | _ => None
  end.

Definition job_of (m : Message) : string :=
  match m with
  | ProgressMsg j _ _ | ResultMsg j _ | FailureMsg j _ => j
  end.

(** The percentages on the progress channel, in publication order. *)
Definition progress_values (l : list Message) : list Z := omap progress_of l.

(** From [w] to [w'] the published percentages never decrease and lie
    between [lo] and [hi]. *)
Definition rises (lo hi : Z) (w w' : World) : Prop :=
  exists l, published w' = published w ++ l
            /\ StronglySorted Z.le (progress_values l)
            /\ Forall (fun v => lo <= v <= hi) (progress_values l).

Definition climbs {A} (lo hi : Z) (m : Py.M World A) : Prop :=
  forall w, rises lo hi w (m w).2.

(** A step that publishes nothing. *)
Definition silent {A} (m : Py.M World A) : Prop :=
  forall w, published (m w).2 = published w.

Lemma rises_refl lo hi w : rises lo hi w w.
Proof.
  exists []. rewrite app_nil_r. split; [done|]. split; constructor.
Qed.

Lemma rises_same lo hi w w' : published w' = published w -> rises lo hi w w'.
Proof.
  intros H. exists []. rewrite app_nil_r. split; [done|]. split; constructor.
Qed.

Lemma rises_trans a b c d w w1 w2 :
  a <= b -> b <= c -> c <= d ->
  rises a b w w1 -> rises c d w1 w2 -> rises a d w w2.
Proof.
  intros Hab Hbc Hcd (l1 & Hl1 & Hs1 & Hf1) (l2 & Hl2 & Hs2 & Hf2).
  exists (l1 ++ l2). rewrite Hl2, Hl1, <- app_assoc. split; [done|].
  unfold progress_values in *. rewrite omap_app. split.
  - apply StronglySorted_app. split; [|done].
    intros x y Hx Hy.
    pose proof (proj1 (Forall_forall _ _) Hf1 x Hx).
    pose proof (proj1 (Forall_forall _ _) Hf2 y Hy). simpl in *. lia.
  - apply Forall_app. split.
    + eapply Forall_impl; [exact Hf1|]. simpl. intros; lia.
    + eapply Forall_impl; [exact Hf2|]. simpl. intros; lia.
Qed.

Lemma climbs_weaken {A} a b a' b' (m : Py.M World A) :
  a' <= a -> b <= b' -> climbs a b m -> climbs a' b' m.
Proof.
  intros Ha Hb Hm w. destruct (Hm w) as (l & Hl & Hs & Hf). exists l.
  split; [done|]. split; [done|].
  eapply Forall_impl; [exact Hf|]. simpl. intros; lia.
Qed.

Lemma silent_climbs {A} lo hi (m : Py.M World A) : silent m -> climbs lo hi m.
Proof. intros Hm w. by apply rises_same. Qed.

Lemma climbs_ret {A} lo hi (a : A) : climbs lo hi (Py.ret a).
Proof. intros w. apply rises_refl. Qed.

Lemma climbs_raise {A} lo hi e : climbs lo hi (@Py.raise World A e).
Proof. intros w. apply rises_refl. Qed.

Lemma climbs_bind {A B} a b c d (m : Py.M World A) (k : A -> Py.M World B) :
  a <= b -> b <= c -> c <= d ->
  climbs a b m -> (forall x, climbs c d (k x)) -> climbs a d (Py.bind m k).
Proof.
  intros Hab Hbc Hcd Hm Hk w. unfold Py.bind. specialize (Hm w).
  destruct (m w) as [[x|e] w1]; simpl in *.
  - eapply rises_trans; [exact Hab|exact Hbc|exact Hcd|exact Hm|apply Hk].
  - destruct Hm as (l & Hl & Hs & Hf). exists l. split; [done|]. split; [done|].
    eapply Forall_impl; [exact Hf|]. simpl. intros; lia.
Qed.

Lemma climbs_try_except {A} a b c d (m : Py.M World A) h :
  a <= b -> b <= c -> c <= d ->
  climbs a b m -> (forall msg, climbs c d (h msg)) ->
  climbs a d (Py.try_except m h).
Proof.
  intros Hab Hbc Hcd Hm Hh w. unfold Py.try_except. specialize (Hm w).
  assert (Hweak : rises a d w (m w).2).
  { destruct Hm as (l & Hl & Hs & Hf). exists l. split; [done|].
    split; [done|]. eapply Forall_impl; [exact Hf|]. simpl. intros; lia. }
  destruct (m w) as [[x|[msg|]] w1]; simpl in *; try done.
  eapply rises_trans; [exact Hab|exact Hbc|exact Hcd|exact Hm|apply Hh].
Qed.

Lemma climbs_publish_progress ok lo hi job p step :
  lo <= p <= hi -> climbs lo hi (publish ok (ProgressMsg job p step)).
Proof.
  intros Hp w. unfold publish. destruct (ok _); simpl.
  - exists [ProgressMsg job p step]. split; [done|]. simpl.
    split; repeat constructor; lia.
  - by apply rises_same.
Qed.

Lemma climbs_publish_other ok lo hi m :
  progress_of m = None -> climbs lo hi (publish ok m).
Proof.
  intros Hm w. unfold publish. destruct (ok _); simpl.
  - exists [m]. split; [done|]. unfold progress_values. simpl. rewrite Hm.
    split; constructor.
  - by apply rises_same.
Qed.

(** A report followed by the rest of the work. *)
Lemma climbs_report {B} ok lo hi job p step (k : unit -> Py.M World B) :
  lo <= p <= hi -> (forall x, climbs p hi (k x)) ->
  climbs lo hi (Py.bind (publish ok (ProgressMsg job p step)) k).
Proof.
  intros Hp Hk. apply (climbs_bind lo p p hi); [lia..| |done].
  apply climbs_publish_progress. lia.
Qed.

Lemma climbs_silent_bind {A B} lo hi (m : Py.M World A) (k : A -> Py.M World B) :
  lo <= hi -> silent m -> (forall x, climbs lo hi (k x)) ->
  climbs lo hi (Py.bind m k).
Proof.
  intros Hle Hm Hk. apply (climbs_bind lo lo lo hi); [lia..| |done].
  by apply silent_climbs.
Qed.

Lemma spawn_silent t : silent (MainPipeline.spawn t).
Proof. by intros w. Qed.

Lemma const_silent {A} (o : outcome A) : silent (fun w : World => (o, w)).
Proof. by intros w. Qed.

Lemma _set_job_status_silent job st pr err :
  silent (_set_job_status job st pr err).
Proof. by intros w. Qed.

(** *** The percentages of the two loops *)

Definition transform_percent (total i : nat) : Z :=
  30 + (Z.of_nat i * 30) / Z.of_nat (max total 1).

Definition image_percent (total idx : nat) : Z :=
  65 + (Z.of_nat idx * 15) / Z.of_nat (max total 1).

Lemma transform_percent_range total i :
  (i < total)%nat ->
  30 <= transform_percent total i <= 60
  /\ transform_percent total i <= transform_percent total (S i).
Proof.
  intros Hi. unfold transform_percent.
  replace (max total 1) with total by lia.
  assert (0 < Z.of_nat total) by lia.
  assert (0 <= Z.of_nat i * 30 / Z.of_nat total) by (apply Z.div_pos; lia).
  assert (Z.of_nat i * 30 / Z.of_nat total <= Z.of_nat (S i) * 30 / Z.of_nat total)
    by (apply Z.div_le_mono; lia).
  assert (Z.of_nat i * 30 / Z.of_nat total <= 30).
  { apply Z.div_le_upper_bound; [lia|]. nia. }
  lia.
Qed.

Lemma image_percent_range total idx :
  (idx <= total)%nat ->
  65 <= image_percent total idx <= 80
  /\ image_percent total idx <= image_percent total (S idx).
Proof.
  intros Hi. unfold image_percent.
  assert (0 < Z.of_nat (max total 1)) by lia.
  assert (0 <= Z.of_nat idx * 15 / Z.of_nat (max total 1))
    by (apply Z.div_pos; lia).
  assert (Z.of_nat idx * 15 / Z.of_nat (max total 1)
          <= Z.of_nat (S idx) * 15 / Z.of_nat (max total 1))
    by (apply Z.div_le_mono; lia).
  assert (Z.of_nat idx * 15 / Z.of_nat (max total 1) <= 15).
  { apply Z.div_le_upper_bound; [lia|]. nia. }
  lia.
Qed.

Lemma transform_loop_climbs env total job rest :
  forall i acc,
    (i + length rest = total)%nat ->
    climbs (if rest is [] then 30 else transform_percent total i) 60
           (MainPipeline.transform_loop env total job i rest acc).
Proof.
  induction rest as [|c rest IH]; intros i acc Hlen; simpl.
  { apply climbs_ret. }
  simpl in Hlen.
  destruct (transform_percent_range total i ltac:(lia)) as [Hr Hstep].
  apply climbs_report; [fold (transform_percent total i); lia|]. intros _.
  fold (transform_percent total i).
  apply climbs_silent_bind; [lia|apply const_silent|]. intros content.
  apply climbs_silent_bind; [lia|apply spawn_silent|]. intros _.
  specialize (IH (S i) (acc ++ [MainPipeline.clean_json_response env content])
                 ltac:(lia)).
  destruct rest as [|c' rest'].
  - apply climbs_ret.
  - eapply climbs_weaken; [| |exact IH]; lia.
Qed.

Lemma image_loop_climbs env total job targets :
  forall idx cbs succ,
    (idx + length targets = total)%nat ->
    climbs (image_percent total idx) 80
           (MainPipeline.image_loop env total job idx targets cbs succ).
Proof.
  induction targets as [|[ci bi] targets IH]; intros idx cbs succ Hlen; simpl.
  { apply climbs_ret. }
  simpl in Hlen.
  destruct (image_percent_range total idx ltac:(lia)) as [Hr Hstep].
  destruct (image_percent_range total (S idx) ltac:(lia)) as [Hr' _].
  destruct (MainPipeline.result_url _);
    (apply climbs_report; [fold (image_percent total (S idx)); lia|];
     intros _; fold (image_percent total (S idx)); apply IH; lia).
Qed.

Lemma best_effort_report_climbs env job p :
  climbs p p (MainPipeline.best_effort_report env job p).
Proof.
  unfold MainPipeline.best_effort_report.
  apply (climbs_try_except p p p p); [lia..| |intros; apply climbs_ret].
  destruct (MainPipeline.anyio_available env).
  - apply climbs_publish_progress. lia.
  - apply climbs_raise.
Qed.

Lemma main_pipeline_climbs env job fname :
  climbs 10 84 (MainPipeline.main_pipeline env job fname).
Proof.
  unfold MainPipeline.main_pipeline.
  apply (climbs_bind 10 25 30 84); [lia..| |intros d1].
  { unfold MainPipeline.preprocess_step.
    apply climbs_report; [lia|]. intros _.
    apply climbs_silent_bind; [lia|apply const_silent|]. intros cs.
    apply climbs_report; [lia|]. intros _. apply climbs_ret. }
  apply (climbs_bind 30 60 65 84); [lia..| |intros d2].
  { unfold MainPipeline.transform_step.
    apply climbs_report; [lia|]. intros _.
    apply (climbs_bind 30 60 60 60); [lia..| |intros cbs].
    - eapply climbs_weaken;
        [| |apply (transform_loop_climbs env _ _ _ 0%nat []); reflexivity].
      + destruct (normalize_chunks _) as [|c cs] eqn:Hcs; [lia|].
        destruct (transform_percent_range (length (c :: cs)) 0
                    ltac:(simpl; lia)). lia.
      + lia.
    - apply climbs_report; [lia|]. intros _. apply climbs_ret. }
  apply (climbs_bind 65 80 82 84); [lia..| |intros d3].
  { unfold MainPipeline.image_processing_step.
    apply climbs_report; [lia|]. intros _.
    assert (Hskip : forall d : MainPipeline.PipelineData,
      climbs 65 80
        (Py.bind (publish_step_progress (MainPipeline.bus_ok env)
                    (MainPipeline.job_id d2) "IMAGE_PROCESSING" 80)
                 (fun _ => Py.ret d))).
    { intros d. apply climbs_report; [lia|]. intros _. apply climbs_ret. }
    destruct (negb (MainPipeline.enable_images env)); [apply Hskip|].
    destruct (MainPipeline.image_targets (MainPipeline.chunk_blocks d2))
      as [|t ts] eqn:Ht; [apply Hskip|].
    apply (climbs_bind 65 80 80 80); [lia..| |intros r].
    - eapply climbs_weaken;
        [| |apply (image_loop_climbs env _ _ _ 0%nat); reflexivity].
      + destruct (image_percent_range (length (t :: ts)) 0 ltac:(lia)). lia.
      + lia.
    - apply climbs_report; [lia|]. intros _. apply climbs_ret. }
  unfold MainPipeline.final_assembly_step.
  apply (climbs_bind 82 82 84 84); [lia..| |intros _].
  { apply best_effort_report_climbs. }
  apply (climbs_bind 84 84 84 84); [lia..| |intros _].
  { apply best_effort_report_climbs. }
  apply climbs_ret.
Qed.

Lemma send_document_complete_silent cenv :
  silent (SpringCallback.send_document_complete cenv).
Proof.
  intros w. unfold SpringCallback.send_document_complete.
  destruct (SpringCallback.callback_url cenv) as [url|]; [|done].
  destruct (decide (url = "")); [done|].
  unfold Py.try_except, Py.bind, SpringCallback.post.
  by destruct (SpringCallback.client_post cenv) as [c|[m|]].
Qed.

Lemma process_pdf_pipeline_climbs env job fname :
  climbs 0 95 (process_pdf_pipeline env job fname).
Proof.
  intros w. rewrite process_pdf_pipeline_unfold. unfold Py.try_finally.
  assert (Hbody : climbs 0 95 (Py.try_except (try_block env job fname)
                                             (handler env job))).
  { apply (climbs_try_except 0 95 95 95); [lia..| |].
    - unfold try_block.
      apply climbs_silent_bind; [lia|apply _set_job_status_silent|]. intros _.
      apply climbs_report; [lia|]. intros _.
      apply (climbs_bind 0 84 85 95); [lia..| |intros doc].
      { eapply climbs_weaken; [| |apply main_pipeline_climbs]; lia. }
      apply climbs_report; [lia|]. intros _.
      apply climbs_silent_bind; [lia|apply const_silent|]. intros url.
      apply climbs_report; [lia|]. intros _.
      apply climbs_silent_bind; [lia|apply _set_job_status_silent|]. intros _.
      apply (climbs_bind 95 95 95 95); [lia..| |intros _].
      { by apply climbs_publish_other. }
      apply silent_climbs. intros w0. unfold Py.try_except, Py.bind.
      pose proof (send_document_complete_silent (callback env) w0) as Hs.
      by destruct (SpringCallback.send_document_complete (callback env) w0)
        as [[b|[m|]] w1].
    - intros msg. unfold handler.
      apply climbs_silent_bind; [lia|apply _set_job_status_silent|]. intros _.
      apply (climbs_try_except 95 95 95 95); [lia..| |intros; apply climbs_ret].
      by apply climbs_publish_other. }
  specialize (Hbody w).
  destruct (Py.try_except (try_block env job fname) (handler env job) w)
    as [r w1]. simpl in *.
  destruct Hbody as (l & Hl & Hs & Hf). exists l. split; [|done].
  unfold release, Py.modify. simpl. done.
Qed.

Lemma StronglySorted_lookup_le (l : list Z) :
  StronglySorted Z.le l ->
  forall i j a b, (i <= j)%nat -> l !! i = Some a -> l !! j = Some b -> a <= b.
Proof.
  induction 1 as [|x l Hs IH Hx]; intros i j a b Hij Ha Hb; [done|].
  destruct i as [|i], j as [|j]; simpl in *; try lia.
  - inversion Ha; inversion Hb; subst. lia.
  - inversion Ha; subst. apply (proj1 (Forall_forall _ _) Hx).
    by eapply list_elem_of_lookup_2.
  - apply (IH i j); [lia|done|done].
Qed.

(** X12.  In every run of the PRD pipeline, whatever fails and wherever,
    the percentages published on the progress channel never decrease
    (a later message never carries a smaller value than an earlier one)
    and lie between 0 and 95. *)
Theorem published_progress_never_decreases (env : Env) (job fname : string)
    (w : World) :
  let vs := progress_values
              (new_messages w (process_pdf_pipeline env job fname w).2) in
  (forall i j a b,
     (i <= j)%nat -> vs !! i = Some a -> vs !! j = Some b -> a <= b)
  /\ Forall (fun v => 0 <= v <= 95) vs.
Proof.
  intros vs. subst vs.
  destruct (process_pdf_pipeline_climbs env job fname w) as (l & Hl & Hs & Hf).
  unfold new_messages. rewrite Hl, drop_app_length.
  split; [by apply StronglySorted_lookup_le|done].
Qed.

Lemma published_progress_witness :
  progress_values
    (new_messages init (process_pdf_pipeline smooth_env "J1" "a.pdf" init).2)
  = [0; 10; 25; 30; 30; 45; 60; 65; 80; 80; 85; 95]
  /\ let vs := progress_values
                 (new_messages init
                    (process_pdf_pipeline smooth_env "J1" "a.pdf" init).2) in
     (forall i j a b,
        (i <= j)%nat -> vs !! i = Some a -> vs !! j = Some b -> a <= b)
     /\ Forall (fun v => 0 <= v <= 95) vs.
Proof.
  split; [vm_compute; reflexivity|].
  exact (published_progress_never_decreases smooth_env "J1" "a.pdf" init).
Defined.

(** *** Whose messages a run publishes *)

(** From [w] to [w'] only messages of the job [job] were published. *)
Definition tagged (job : string) (w w' : World) : Prop :=
  exists l, published w' = published w ++ l
            /\ Forall (fun m => job_of m = job) l.

#[local] Instance tagged_refl job : Reflexive (tagged job).
Proof. intros w. exists []. by rewrite app_nil_r. Qed.

#[local] Instance tagged_trans job : Transitive (tagged job).
Proof.
  intros a b c (l & Hl & Hf) (l' & Hl' & Hf'). exists (l ++ l').
  rewrite Hl', Hl, <- app_assoc. split; [done|]. by apply Forall_app.
Qed.

Lemma silent_tagged {A} job (m : Py.M World A) :
  silent m -> preserves (tagged job) m.
Proof. intros Hm w. exists []. by rewrite app_nil_r. Qed.

Lemma publish_tagged ok m :
  preserves (tagged (job_of m)) (publish ok m).
Proof.
  intros w. unfold publish. destruct (ok _); simpl.
  - exists [m]. split; [done|]. by constructor.
  - exists []. by rewrite app_nil_r.
Qed.

Ltac tag :=
  repeat lazymatch goal with
  | |- Reflexive _ => typeclasses eauto
  | |- Transitive _ => typeclasses eauto
  | |- forall _, _ => intros ?
  | |- preserves _ (Py.bind _ _) => apply preserves_bind
  | |- preserves _ (Py.ret _) => apply preserves_ret
  | |- preserves _ (Py.raise _) => apply preserves_raise
  | |- preserves _ (Py.try_except _ _) => apply preserves_try_except
  | |- preserves _ (fun w => (_, w)) => apply preserves_const
  | |- preserves (tagged ?j) (publish_step_progress ?ok ?j ?s ?p) =>
      apply (publish_tagged ok (ProgressMsg j p (Some s)))
  | |- preserves (tagged ?j) (publish_progress ?ok ?j ?p) =>
      apply (publish_tagged ok (ProgressMsg j p None))
  | |- preserves (tagged ?j) (publish_result ?ok ?j ?u) =>
      apply (publish_tagged ok (ResultMsg j u))
  | |- preserves (tagged ?j) (publish_failure ?ok ?j ?e) =>
      apply (publish_tagged ok (FailureMsg j e))
  | |- preserves _ (MainPipeline.spawn _) =>
      apply silent_tagged, spawn_silent
  | |- preserves _ (_set_job_status _ _ _ _) =>
      apply silent_tagged, _set_job_status_silent
  | |- preserves _ (SpringCallback.send_document_complete _) =>
      apply silent_tagged, send_document_complete_silent
  | |- preserves _ (if ?b then _ else _) => destruct b
  | |- preserves _ (match ?x with _ => _ end) => destruct x
  | |- preserves _ (let (_, _) := ?x in _) => destruct x
  end.

Lemma transform_loop_tagged env total job rest :
  forall i acc,
    preserves (tagged job)
      (MainPipeline.transform_loop env total job i rest acc).
Proof.
  induction rest as [|c rest IH]; intros i acc; simpl; tag. apply IH.
Qed.

Lemma image_loop_tagged env total job targets :
  forall idx cbs succ,
    preserves (tagged job)
      (MainPipeline.image_loop env total job idx targets cbs succ).
Proof.
  induction targets as [|[ci bi] targets IH]; intros idx cbs succ; simpl;
    tag; apply IH.
Qed.

Lemma main_pipeline_tagged env job fname :
  preserves (tagged job) (MainPipeline.main_pipeline env job fname).
Proof.
  unfold MainPipeline.main_pipeline.
  assert (H1 : forall d, MainPipeline.job_id d = job ->
    preserves (tagged job) (MainPipeline.preprocess_step env d)
    /\ forall w d' w', MainPipeline.preprocess_step env d w = (Ok d', w') ->
                       MainPipeline.job_id d' = job).
  { intros d Hd. split.
    - unfold MainPipeline.preprocess_step. rewrite Hd. tag.
    - intros w d' w' H. unfold MainPipeline.preprocess_step in H.
      apply bind_inv_Ok in H as (_ & w1 & _ & H).
      apply bind_inv_Ok in H as (cs & w2 & _ & H).
      apply bind_inv_Ok in H as (_ & w3 & _ & H). by inversion H. }
  assert (H2 : forall d, MainPipeline.job_id d = job ->
    preserves (tagged job) (MainPipeline.transform_step env d)
    /\ forall w d' w', MainPipeline.transform_step env d w = (Ok d', w') ->
                       MainPipeline.job_id d' = job).
  { intros d Hd. split.
    - unfold MainPipeline.transform_step. rewrite Hd. tag.
      apply transform_loop_tagged.
    - intros w d' w' H. unfold MainPipeline.transform_step in H.
      apply bind_inv_Ok in H as (_ & w1 & _ & H).
      apply bind_inv_Ok in H as (cs & w2 & _ & H).
      apply bind_inv_Ok in H as (_ & w3 & _ & H). by inversion H. }
  assert (H3 : forall d, MainPipeline.job_id d = job ->
    preserves (tagged job) (MainPipeline.image_processing_step env d)
    /\ forall w d' w', MainPipeline.image_processing_step env d w = (Ok d', w') ->
                       MainPipeline.job_id d' = job).
  { intros d Hd. split.
    - unfold MainPipeline.image_processing_step. rewrite Hd. tag.
      apply image_loop_tagged.
    - intros w d' w' H. unfold MainPipeline.image_processing_step in H.
      apply bind_inv_Ok in H as (_ & w1 & _ & H).
      destruct (negb (MainPipeline.enable_images env)).
      { apply bind_inv_Ok in H as (_ & w2 & _ & H). by inversion H. }
      destruct (MainPipeline.image_targets _).
      { apply bind_inv_Ok in H as (_ & w2 & _ & H). by inversion H. }
      apply bind_inv_Ok in H as (r & w2 & _ & H).
      apply bind_inv_Ok in H as (_ & w3 & _ & H). by inversion H. }
  assert (H4 : forall d, MainPipeline.job_id d = job ->
    preserves (tagged job) (MainPipeline.final_assembly_step env d)).
  { intros d Hd. unfold MainPipeline.final_assembly_step,
      MainPipeline.best_effort_report. rewrite Hd. tag. }
  intros w. unfold Py.bind.
  destruct (H1 (MainPipeline.mkData job fname [] [] [] [] 0 false) eq_refl)
    as [P1 V1].
  specialize (P1 w). specialize (V1 w).
  destruct (MainPipeline.preprocess_step env _ w) as [[d1|e] w1];
    simpl in *; [|done].
  destruct (H2 d1 (V1 _ _ eq_refl)) as [P2 V2].
  specialize (P2 w1). specialize (V2 w1).
  destruct (MainPipeline.transform_step env d1 w1) as [[d2|e] w2];
    simpl in *; [|by etrans].
  destruct (H3 d2 (V2 _ _ eq_refl)) as [P3 V3].
  specialize (P3 w2). specialize (V3 w2).
  destruct (MainPipeline.image_processing_step env d2 w2) as [[d3|e] w3];
    simpl in *; [|by etrans; [|etrans]].
  pose proof (H4 d3 (V3 _ _ eq_refl) w3) as P4.
  etrans; [exact P1|]. etrans; [exact P2|]. etrans; [exact P3|exact P4].
Qed.

(** X13.  Every message a run publishes, on any of the three channels,
    carries the job id of that run. *)
Theorem run_publishes_for_its_job_only (env : Env) (job fname : string)
    (w : World) :
  Forall (fun m => job_of m = job)
         (new_messages w (process_pdf_pipeline env job fname w).2).
Proof.
  assert (Hbody : preserves (tagged job)
            (Py.try_except (try_block env job fname) (handler env job))).
  { unfold try_block, handler. tag. apply main_pipeline_tagged. }
  rewrite process_pdf_pipeline_unfold. unfold Py.try_finally.
  specialize (Hbody w).
  destruct (Py.try_except (try_block env job fname) (handler env job) w)
    as [r w1]. simpl in *.
  destruct Hbody as (l & Hl & Hf). unfold new_messages. simpl.
  by rewrite Hl, drop_app_length.
Qed.

End BusFacts.

(** ** The verdict of a PRD run and the status query *)

Module VerdictFacts.
Import PubSub PRD PipelineFacts PRDStatus.

Lemma prefix_app (p s : string) : String.prefix p (p +:+ s) = true.
Proof.
  induction p as [|c p IH]; simpl; [by destruct s|].
  destruct (Ascii.ascii_dec c c); [exact IH|done].
Qed.

(** X14.  A run publishes at most one message on the result and failure
    channels together, never one on each.  A failure message carries
    exactly the error text stored in the job's status record, which is
    then FAILED without a percentage, and that text starts with the fixed
    prefix of [process_pdf_pipeline]. *)
Theorem run_publishes_one_verdict (env : Env) (job fname : string)
    (w : World) :
  let w' := (process_pdf_pipeline env job fname w).2 in
  let msgs := new_messages w w' in
  (length (filter (fun m => is_result m) msgs)
   + length (filter (fun m => is_failure m) msgs) <= 1)%nat
  /\ (forall m, m ∈ msgs -> is_failure m = true ->
        exists err,
          m = FailureMsg job err
          /\ kv_status w' !! job = Some (mkStatus FAILED None (Some err))
          /\ PyStr.startswith "교안 생성 중 예상치 못한 오류 발생: " err = true).
Proof.
  intros w' msgs. subst w' msgs.
  pose proof (process_pdf_pipeline_ending env job fname w) as Hend.
  unfold ending in Hend. revert Hend.
  generalize (new_messages w (process_pdf_pipeline env job fname w).2).
  generalize (kv_status (process_pdf_pipeline env job fname w).2).
  intros kv msgs Hend.
  assert (Hin : forall m, m ∈ msgs -> is_failure m = true ->
                  m ∈ filter (fun m => is_failure m) msgs).
  { intros m Hm Hf. apply list_elem_of_filter. split; [by rewrite Hf|done]. }
  destruct Hend as [(Hst & -> & Hf)|[(msg & Hst & -> & Hf)|(url & Hst & _ & -> & Hf)]].
  - rewrite Hf. split; [simpl; lia|]. intros m Hm Hfm.
    apply Hin in Hm; [|done]. rewrite Hf in Hm. by apply not_elem_of_nil in Hm.
  - destruct Hf as [Hf|Hf]; rewrite Hf in *.
    + split; [simpl; lia|]. intros m Hm Hfm.
      apply Hin in Hm; [|done]. by apply not_elem_of_nil in Hm.
    + split; [simpl; lia|]. intros m Hm Hfm.
      apply Hin in Hm; [|done]. apply list_elem_of_singleton in Hm as ->.
      exists (error_message msg). split; [done|]. split; [exact Hst|].
      apply prefix_app.
  - rewrite Hf. split; [simpl; lia|]. intros m Hm Hfm.
    apply Hin in Hm; [|done]. rewrite Hf in Hm. by apply not_elem_of_nil in Hm.
Qed.

(** How a run ends: its outcome and the status record it leaves. *)
Lemma process_pdf_pipeline_outcome env job fname w :
  let r := (process_pdf_pipeline env job fname w).1 in
  let kv := kv_status (process_pdf_pipeline env job fname w).2 in
  (r = Raise CancelledError /\ kv !! job = Some st_processing)
  \/ (exists msg, r = Ok tt /\ kv !! job = Some (st_failed msg))
  \/ ((r = Ok tt \/ r = Raise CancelledError) /\ kv !! job = Some st_completed).
Proof.
  rewrite process_pdf_pipeline_unfold. unfold Py.try_finally, Py.try_except.
  pose proof (try_block_spec env job fname w) as Hspec. simpl in Hspec.
  destruct (try_block env job fname w) as [r0 w1] eqn:Htry. simpl in Hspec.
  assert (Hfail : forall msg,
    let out := handler env job msg w1 in
    out.1 = Ok tt /\ kv_status out.2 !! job = Some (st_failed msg)).
  { intros msg. destruct (handler_spec env job msg w1) as (Hr & Hk & _).
    split; [done|]. rewrite Hk. apply lookup_insert_eq. }
  destruct Hspec as [(e & -> & Hat)|[(msg & url & -> & _ & Hat)|(url & Hr & _ & Hat)]].
  - destruct e as [msg|].
    + right; left. exists msg. destruct (Hfail msg) as [Ho Hk].
      destruct (handler env job msg w1) as [r2 w2]. simpl in *. by subst.
    + left. simpl. by destruct Hat as [-> _].
  - right; left. exists msg. destruct (Hfail msg) as [Ho Hk].
    destruct (handler env job msg w1) as [r2 w2]. simpl in *. by subst.
  - right; right. destruct Hat as [Hst _].
    destruct Hr as [-> | ->]; simpl; auto.
Qed.

(** X15.  A run never lets an [Exception] escape, and once it has ended
    [GET /process/status/{job_id}] finds the job (no 404): COMPLETED with
    100 and no error; or FAILED with no percentage and the prefixed error
    text, after a run that ended normally; or still PROCESSING at 0, which
    happens only when the run was cancelled. *)
Theorem status_endpoint_after_run (env : Env) (job fname : string)
    (w : World) :
  let r := (process_pdf_pipeline env job fname w).1 in
  let w' := (process_pdf_pipeline env job fname w).2 in
  (r = Ok tt \/ r = Raise CancelledError)
  /\ exists resp,
       status_endpoint job w' = inl resp
       /\ sr_job_id resp = job
       /\ ((sr_status resp = "COMPLETED" /\ sr_progress resp = Some 100
            /\ sr_error resp = None)
           \/ (sr_status resp = "FAILED" /\ sr_progress resp = None
               /\ (exists msg,
                     sr_error resp
                     = Some ("교안 생성 중 예상치 못한 오류 발생: " +:+ msg))
               /\ r = Ok tt)
           \/ (sr_status resp = "PROCESSING" /\ sr_progress resp = Some 0
               /\ sr_error resp = None /\ r = Raise CancelledError)).
Proof.
  intros r w'. subst r w'.
  pose proof (process_pdf_pipeline_outcome env job fname w) as H.
  simpl in H. unfold status_endpoint, get_job_status.
  revert H. generalize (kv_status (process_pdf_pipeline env job fname w).2).
  generalize ((process_pdf_pipeline env job fname w).1).
  intros r kv [(-> & ->)|[(msg & -> & ->)|(Hr & ->)]].
  - split; [by right|]. eexists. split; [reflexivity|]. simpl.
    split; [done|]. right; right. done.
  - split; [by left|]. eexists. split; [reflexivity|]. simpl.
    split; [done|]. right; left. split; [done|]. split; [done|].
    split; [by exists msg|done].
  - split; [exact Hr|]. eexists. split; [reflexivity|]. simpl.
    split; [done|]. by left.
Qed.

(** X16.  [POST /process/async]: a refused request leaves the state
    untouched; an accepted one schedules exactly one task, for
    the job id and file name it was given, whose name ends in ".pdf"
    (in any letter case) and whose id is not blank.  In both cases no
    status record is written and nothing is published, so the status
    query keeps answering what it answered before (404 for a new job)
    until the task itself starts. *)
Theorem admission_effects (fname job : string) (w : World) :
  let out := process_pdf_async fname job w in
  (forall id, out.1 = Accepted id ->
     id = job
     /\ background out.2 = background w ++ [(job, fname)]
     /\ PyStr.endswith ".pdf" (PyStr.lower fname) = true
     /\ PyStr.is_blank job = false)
  /\ (forall code, out.1 = HttpError code -> out.2 = w)
  /\ (forall j, status_endpoint j out.2 = status_endpoint j w)
  /\ published out.2 = published w
  /\ active_jobs out.2 = active_jobs w.
Proof.
  intros out. subst out. unfold process_pdf_async.
  destruct (decide (fname = "")) as [Hf|Hf]; simpl.
  { done. }
  destruct (PyStr.endswith ".pdf" (PyStr.lower fname)) eqn:Hpdf; simpl.
  2:{ done. }
  destruct (PyStr.is_blank job) eqn:Hblank; simpl.
  { done. }
  destruct (is_job_active job w); simpl.
  { done. }
  split; [|done]. intros id H. inversion H. done.
Qed.

End VerdictFacts.

(** ** The assembled document and the vocabulary tasks *)

Module DocumentFacts.
Import PubSub MainPipeline MainPipelineFacts.

Lemma publish_spawned ok m w : spawned (publish ok m w).2 = spawned w.
Proof. unfold publish. by destruct (ok _). Qed.

Lemma publish_Ok_spawned ok m w u w' :
  publish ok m w = (Ok u, w') -> spawned w' = spawned w.
Proof. intros H. by rewrite <- (publish_spawned ok m w), H. Qed.

(** The steps hand the job id and the file name on. *)
Lemma preprocess_step_ids env d w d' w' :
  preprocess_step env d w = (Ok d', w') ->
  job_id d' = job_id d /\ filename d' = filename d
  /\ spawned w' = spawned w.
Proof.
  unfold preprocess_step. intros H.
  apply bind_inv_Ok in H as (u1 & w1 & H1 & H).
  apply publish_Ok_spawned in H1.
  apply bind_inv_Ok in H as (cs & w2 & Hcs & H).
  apply bind_inv_Ok in H as (u3 & w3 & H3 & H).
  apply publish_Ok_spawned in H3.
  inversion Hcs as [[Hpre Hw]]. inversion H as [[Hd Hw']].
  simpl. split; [done|]. split; [done|]. congruence.
Qed.

(** The tasks of one page: its TEXT blocks, tagged with the page
    number. *)
Definition text_tasks (page : nat) (bs : list block) : list (nat * block) :=
  map (fun b => (page, b)) (filter (fun b => has_type "TEXT" b) bs).

Lemma transform_loop_spawned env total job rest :
  forall i acc w cbs w',
    transform_loop env total job i rest acc w = (Ok cbs, w') ->
    exists bl, cbs = acc ++ bl
               /\ spawned w'
                  = spawned w
                    ++ concat (imap (fun j bs => text_tasks (S (i + j)) bs) bl).
Proof.
  induction rest as [|c rest IH]; intros i acc w cbs w' H; simpl in H.
  - inversion H; subst. exists []. by rewrite !app_nil_r.
  - apply bind_inv_Ok in H as (? & w1 & H1 & H).
    apply publish_Ok_spawned in H1.
    apply bind_inv_Ok in H as (content & w2 & Hllm & H).
    inversion Hllm; subst w2.
    apply bind_inv_Ok in H as (? & w3 & Hsp & H).
    inversion Hsp; subst w3. simpl in H.
    apply IH in H as (bl & -> & Hs).
    exists (clean_json_response env content :: bl).
    split; [by rewrite <- app_assoc|].
    rewrite Hs. simpl. rewrite H1, <- app_assoc. f_equal.
    rewrite Nat.add_0_r. unfold text_tasks at 1. f_equal. f_equal.
    apply imap_ext. intros j bs _. simpl. by rewrite Nat.add_succ_r.
Qed.

Lemma image_loop_spawned env total job targets :
  forall idx cbs succ w,
    spawned (image_loop env total job idx targets cbs succ w).2 = spawned w.
Proof.
  induction targets as [|[ci bi] targets IH]; intros idx cbs succ w; simpl;
    [done|].
  destruct (result_url _); unfold Py.bind;
    match goal with |- context [publish_step_progress ?ok ?j ?s ?p w] =>
      pose proof (publish_spawned ok (ProgressMsg j p (Some s)) w) as Hp;
      unfold publish_step_progress;
      destruct (publish ok (ProgressMsg j p (Some s)) w) as [[u|e] w1]
    end; simpl in *; try done; by rewrite IH.
Qed.

Lemma transform_step_spawned env d w d' w' :
  transform_step env d w = (Ok d', w') ->
  job_id d' = job_id d /\ filename d' = filename d
  /\ spawned w'
     = spawned w
       ++ concat (imap (fun j bs => text_tasks (S j) bs) (chunk_blocks d')).
Proof.
  unfold transform_step. intros H.
  apply bind_inv_Ok in H as (? & w1 & H1 & H).
  apply publish_Ok_spawned in H1.
  apply bind_inv_Ok in H as (cbs & w2 & Hloop & H).
  apply bind_inv_Ok in H as (? & w3 & H3 & H).
  apply publish_Ok_spawned in H3.
  inversion H; subst; simpl.
  apply transform_loop_spawned in Hloop as (bl & -> & Hs). simpl.
  split; [done|]. split; [done|]. by rewrite H3, Hs, H1.
Qed.

Lemma image_processing_step_ids env d w d' w' :
  image_processing_step env d w = (Ok d', w') ->
  job_id d' = job_id d /\ filename d' = filename d
  /\ spawned w' = spawned w.
Proof.
  unfold image_processing_step. intros H.
  apply bind_inv_Ok in H as (? & w1 & H1 & H).
  apply publish_Ok_spawned in H1.
  destruct (negb (enable_images env)).
  { apply bind_inv_Ok in H as (? & w2 & H2 & H).
    apply publish_Ok_spawned in H2. inversion H; subst; simpl.
    by rewrite H2, H1. }
  destruct (image_targets (chunk_blocks d)) as [|t ts].
  { apply bind_inv_Ok in H as (? & w2 & H2 & H).
    apply publish_Ok_spawned in H2. inversion H; subst; simpl.
    by rewrite H2, H1. }
  apply bind_inv_Ok in H as (r & w2 & Hloop & H).
  apply bind_inv_Ok in H as (? & w3 & H3 & H).
  apply publish_Ok_spawned in H3.
  pose proof (image_loop_spawned env (length (t :: ts)) (job_id d) (t :: ts)
                0 (chunk_blocks d) 0 w1) as Hl.
  rewrite Hloop in Hl. simpl in Hl.
  inversion H; subst; simpl.
  split; [done|]. split; [done|]. congruence.
Qed.

Lemma best_effort_report_spawned env job p w :
  spawned (best_effort_report env job p w).2 = spawned w.
Proof.
  unfold best_effort_report, Py.try_except, Py.raise, publish_step_progress,
    publish.
  destruct (anyio_available env); [|done].
  by destruct (bus_ok env (publish_calls w)).
Qed.

Lemma final_assembly_step_fields env d w doc w' :
  final_assembly_step env d w = (Ok doc, w') ->
  doc = mkDocument (job_id d) (filename d) "COMPLETED"
          (length (chunk_texts d)) (sum_list (map length (chunk_blocks d)))
          (assemble_pages (chunk_texts d) (chunk_blocks d))
  /\ spawned w' = spawned w.
Proof.
  unfold final_assembly_step. intros H.
  apply bind_inv_Ok in H as (? & w1 & H1 & H).
  apply bind_inv_Ok in H as (? & w2 & H2 & H).
  pose proof (best_effort_report_spawned env (job_id d) 82 w) as S1.
  pose proof (best_effort_report_spawned env (job_id d) 84 w1) as S2.
  rewrite H1 in S1. rewrite H2 in S2. simpl in *.
  inversion H; subst. split; [done|]. congruence.
Qed.

(** Pages put together from as many texts as block lists. *)
Lemma assemble_pages_blocks texts cbs :
  length texts = length cbs ->
  map blocks (assemble_pages texts cbs) = cbs.
Proof.
  intros Hlen. apply list_eq. intros i. unfold assemble_pages.
  rewrite list_lookup_fmap, list_lookup_imap.
  destruct (texts !! i) as [t|] eqn:Ht; simpl.
  - apply lookup_lt_Some in Ht. rewrite Hlen in Ht.
    apply lookup_lt_is_Some_2 in Ht as [bs Hbs]. by rewrite Hbs.
  - apply lookup_ge_None in Ht. rewrite Hlen in Ht.
    symmetry. by apply lookup_ge_None.
Qed.

Lemma assemble_pages_numbers texts cbs :
  map page_number (assemble_pages texts cbs) = seq 1 (length texts).
Proof.
  apply list_eq. intros i. unfold assemble_pages.
  rewrite list_lookup_fmap, list_lookup_imap.
  destruct (texts !! i) as [t|] eqn:Ht; simpl.
  - apply lookup_lt_Some in Ht. symmetry. by apply lookup_seq.
  - apply lookup_ge_None in Ht. symmetry. apply lookup_ge_None.
    by rewrite length_seq.
Qed.

Lemma images_added_lengths cbs cbs' :
  images_added cbs cbs' ->
  length cbs' = length cbs /\ map length cbs' = map length cbs.
Proof.
  unfold images_added. induction 1 as [|bs bs' cbs cbs' Hb _ IH]; [done|].
  destruct IH as [Hl Hm]. simpl. rewrite Hl, Hm.
  by rewrite (Forall2_length _ _ _ Hb).
Qed.

(** The image step leaves the TEXT blocks alone. *)
Lemma url_added_text bs bs' :
  Forall2 url_added bs bs' ->
  filter (fun b => has_type "TEXT" b) bs'
  = filter (fun b => has_type "TEXT" b) bs.
Proof.
  induction 1 as [|b b' bs bs' Hb _ IH]; [done|].
  rewrite !filter_cons, IH.
  destruct Hb as [->|(Hty & u & _ & ->)]; [done|].
  rewrite has_type_set_url.
  destruct b as [d|r]; simpl in *; [|done].
  apply bool_decide_eq_true in Hty.
  rewrite Hty. simpl. done.
Qed.

(** What a run that returns a document went through. *)
Lemma main_pipeline_Ok env job fname w doc w' :
  main_pipeline env job fname w = (Ok doc, w') ->
  exists texts cbs cbs',
    length cbs = length texts
    /\ images_added cbs cbs'
    /\ doc = mkDocument job fname "COMPLETED" (length texts)
               (sum_list (map length cbs')) (assemble_pages texts cbs')
    /\ spawned w'
       = spawned w ++ concat (imap (fun j bs => text_tasks (S j) bs) cbs).
Proof.
  unfold main_pipeline. intros H.
  apply bind_inv_Ok in H as (d1 & w1 & H1 & H).
  apply bind_inv_Ok in H as (d2 & w2 & H2 & H).
  apply bind_inv_Ok in H as (d3 & w3 & H3 & H).
  apply preprocess_step_ids in H1 as (Hj1 & Hf1 & Hs1).
  pose proof (transform_step_Ok _ _ _ _ _ H2) as (_ & Hlen & _).
  apply transform_step_spawned in H2 as (Hj2 & Hf2 & Hs2).
  pose proof (image_processing_step_Ok _ _ _ _ _ H3) as (Htexts & Himg & _).
  apply image_processing_step_ids in H3 as (Hj3 & Hf3 & Hs3).
  apply final_assembly_step_fields in H as (-> & Hs4).
  exists (chunk_texts d2), (chunk_blocks d2), (chunk_blocks d3).
  split; [done|]. split; [done|]. split.
  - rewrite Hj3, Hj2, Hj1, Hf3, Hf2, Hf1, Htexts. done.
  - by rewrite Hs4, Hs3, Hs2, Hs1.
Qed.

(** X17.  The document a run returns is consistent with itself: it names
    the job and the file of the run, [total_chunks] is its number of
    pages, [total_blocks] is the number of blocks on its pages, and the
    pages are numbered 1, 2, 3, ... in order. *)
Theorem document_counts_match_pages (env : Env) (job fname : string)
    (w w' : World) (doc : Document) :
  main_pipeline env job fname w = (Ok doc, w') ->
  jobId doc = job /\ fileName doc = fname /\ doc_status doc = "COMPLETED"
  /\ total_chunks doc = length (pages doc)
  /\ total_blocks doc
     = sum_list (map (fun pg => length (blocks pg)) (pages doc))
  /\ map page_number (pages doc) = seq 1 (length (pages doc)).
Proof.
  intros H.
  apply main_pipeline_Ok in H as (texts & cbs & cbs' & Hlen & Himg & -> & _).
  apply images_added_lengths in Himg as [Hlen' _]. simpl.
  assert (length (assemble_pages texts cbs') = length texts) as Hpages
    by (unfold assemble_pages; apply length_imap).
  split; [done|]. split; [done|]. split; [done|]. split; [done|]. split.
  - rewrite <- (assemble_pages_blocks texts cbs') at 1 by congruence.
    by rewrite map_map.
  - rewrite Hpages. apply assemble_pages_numbers.
Qed.

Lemma document_counts_witness :
  exists doc w',
    main_pipeline demo_env "J1" "a.pdf" init = (Ok doc, w')
    /\ total_chunks doc = 2%nat /\ total_blocks doc = 3%nat
    /\ jobId doc = "J1" /\ fileName doc = "a.pdf"
    /\ doc_status doc = "COMPLETED"
    /\ total_chunks doc = length (pages doc)
    /\ total_blocks doc
       = sum_list (map (fun pg => length (blocks pg)) (pages doc))
    /\ map page_number (pages doc) = seq 1 (length (pages doc)).
Proof.
  destruct (main_pipeline demo_env "J1" "a.pdf" init) as [[doc|e] w'] eqn:Hrun;
    [| by vm_compute in Hrun].
  exists doc, w'. split; [done|].
  split; [vm_compute in Hrun; by inversion Hrun|].
  split; [vm_compute in Hrun; by inversion Hrun|].
  exact (document_counts_match_pages demo_env "J1" "a.pdf" init w' doc Hrun).
Defined.

(** X18.  When a run returns a document, the vocabulary tasks it has
    spawned are exactly the TEXT blocks of that document, one task per
    block, each tagged with the number of its page, in document order
    (the image step, which runs after the tasks are spawned, changes no
    TEXT block). *)
Theorem vocabulary_tasks_cover_text_blocks (env : Env) (job fname : string)
    (w w' : World) (doc : Document) :
  main_pipeline env job fname w = (Ok doc, w') ->
  spawned w'
  = spawned w
    ++ concat (map (fun pg => text_tasks (page_number pg) (blocks pg))
                   (pages doc)).
Proof.
  intros H.
  apply main_pipeline_Ok in H as (texts & cbs & cbs' & Hlen & Himg & -> & ->).
  simpl. f_equal. f_equal.
  pose proof (images_added_lengths _ _ Himg) as [Hlen' _].
  apply list_eq. intros i. unfold assemble_pages.
  rewrite list_lookup_fmap, !list_lookup_imap.
  destruct (cbs !! i) as [bs|] eqn:Hbs; simpl.
  - destruct (Forall2_lookup_l _ _ _ _ _ Himg Hbs) as (bs' & Hbs' & Hrel).
    assert (is_Some (texts !! i)) as [t Ht].
    { apply lookup_lt_is_Some. rewrite <- Hlen. by eapply lookup_lt_Some. }
    rewrite Ht. simpl. rewrite Hbs'. simpl. unfold text_tasks.
    by rewrite (url_added_text _ _ Hrel).
  - apply lookup_ge_None in Hbs. rewrite Hlen in Hbs.
    apply lookup_ge_None in Hbs. by rewrite Hbs.
Qed.

Lemma vocabulary_tasks_witness :
  exists doc w',
    main_pipeline demo_env "J1" "a.pdf" init = (Ok doc, w')
    /\ spawned w'
       = [ (1%nat, BDict {[ "type" := "TEXT" ]});
           (2%nat, BDict {[ "type" := "TEXT" ]}) ]
    /\ spawned w'
       = spawned init
         ++ concat (map (fun pg => text_tasks (page_number pg) (blocks pg))
                        (pages doc)).
Proof.
  destruct (main_pipeline demo_env "J1" "a.pdf" init) as [[doc|e] w'] eqn:Hrun;
    [| by vm_compute in Hrun].
  exists doc, w'. split; [done|].
  split; [vm_compute in Hrun; by inversion Hrun|].
  exact (vocabulary_tasks_cover_text_blocks demo_env "J1" "a.pdf" init w' doc
           Hrun).
Defined.

End DocumentFacts.

(** ** Runs that succeed *)

Module SuccessFacts.


Lemma progress_monotone_witness :
  let ctx := (ProcessorFacts.submitted None).1 in
  let w := (ProcessorFacts.submitted None).2 in
  ProcessorFacts.has_job (AsyncJobProcessor.ctx_job_id ctx) w
  /\ AsyncJobProcessor.truthy (AsyncJobProcessor.webhook_url ctx) = None
  /\ map (fun p => Qred (JobManager.progress_percentage p))
         (ProcessorFacts.new_progress w
            (AsyncJobProcessor._process_pipeline ProcessorFacts.smooth_env
               ctx w).2)
     = [0; 5; 20; 30; 60; 60; 75; 75; 90; 90; 100; 100; 100]%Q
  /\ forall i p q,
       ProcessorFacts.new_progress w
         (AsyncJobProcessor._process_pipeline ProcessorFacts.smooth_env
            ctx w).2 !! i = Some p ->
       ProcessorFacts.new_progress w
         (AsyncJobProcessor._process_pipeline ProcessorFacts.smooth_env
            ctx w).2 !! S i = Some q ->
       (JobManager.progress_percentage p <= JobManager.progress_percentage q)%Q.
Proof.
  assert (Hjob : ProcessorFacts.has_job
                   (AsyncJobProcessor.ctx_job_id (ProcessorFacts.submitted None).1)
                   (ProcessorFacts.submitted None).2).
  { vm_compute. eauto. }
  split; [exact Hjob|]. split; [reflexivity|].
  split; [vm_compute; reflexivity|].
  exact (ProcessorFacts.progress_monotone_without_webhook
           ProcessorFacts.smooth_env (ProcessorFacts.submitted None).1
           (ProcessorFacts.submitted None).2 Hjob eq_refl).
Defined.

End SuccessFacts.

(** ** The concurrent transformer: retries, sorting and the result *)

Module TransformationExtra.
Import Transformation TransformationFacts.

(** *** The back-off *)












(** *** Sorting the chunk results *)

Definition by_index (a b : ChunkResult) : Prop :=
  (chunk_index a <= chunk_index b)%nat.

(** The results with the index [k], in list order. *)
Definition with_index (k : nat) (l : list ChunkResult) : list ChunkResult :=
  filter (fun r => chunk_index r = k) l.

Lemma insert_sorted_perm r l : insert_sorted r l ≡ₚ r :: l.
Proof.
  induction l as [|x l IH]; simpl; [done|].
  destruct (chunk_index x <=? chunk_index r)%nat; [|done].
  rewrite IH. apply Permutation_swap.
Qed.

Lemma insert_sorted_sorted r l :
  StronglySorted by_index l -> StronglySorted by_index (insert_sorted r l).
Proof.
  induction 1 as [|x l Hs IH Hx]; simpl; [repeat constructor|].
  destruct (chunk_index x <=? chunk_index r)%nat eqn:Hle.
  - apply Nat.leb_le in Hle. constructor; [done|].
    rewrite insert_sorted_perm. by constructor.
  - apply Nat.leb_gt in Hle. constructor; [by constructor|].
    constructor; [unfold by_index; lia|].
    eapply Forall_impl; [exact Hx|]. unfold by_index. simpl. intros; lia.
Qed.

Lemma with_index_none k l :
  Forall (fun x => chunk_index x <> k) l -> with_index k l = [].
Proof.
  unfold with_index. induction 1 as [|x l Hx _ IH]; [done|].
  by rewrite filter_cons, decide_False, IH.
Qed.

Lemma insert_sorted_stable k r l :
  StronglySorted by_index l ->
  with_index k (insert_sorted r l) = with_index k (l ++ [r]).
Proof.
  unfold with_index.
  induction 1 as [|x l Hs IH Hx]; simpl; [done|].
  destruct (chunk_index x <=? chunk_index r)%nat eqn:Hle.
  - by rewrite !filter_cons, IH.
  - apply Nat.leb_gt in Hle.
    rewrite !filter_cons, filter_app, filter_cons, filter_nil.
    destruct (decide (chunk_index r = k)) as [Hr|Hr].
    + assert (filter (fun r0 => chunk_index r0 = k) l = []) as ->.
      { apply with_index_none. eapply Forall_impl; [exact Hx|].
        unfold by_index. simpl. intros; lia. }
      destruct (decide (chunk_index x = k)); [lia|done].
    + rewrite app_nil_r. by destruct (decide (chunk_index x = k)).
Qed.

Lemma sort_results_snoc l r :
  sort_results (l ++ [r]) = insert_sorted r (sort_results l).
Proof. unfold sort_results. by rewrite foldl_app. Qed.

(** X21.  [chunk_results.sort(key=chunk_index)]: the sorted list holds
    the same results, in ascending order of [chunk_index], and results
    with equal index keep their relative order (the sort is stable). *)
Theorem sort_results_sorted_permutation (l : list ChunkResult) :
  sort_results l ≡ₚ l
  /\ StronglySorted by_index (sort_results l)
  /\ forall k, with_index k (sort_results l) = with_index k l.
Proof.
  induction l as [|r l IH] using rev_ind.
  - split; [done|]. split; [constructor|done].
  - destruct IH as (Hp & Hs & Hk). rewrite sort_results_snoc.
    split; [|split].
    + rewrite insert_sorted_perm, Hp. by rewrite Permutation_app_comm.
    + by apply insert_sorted_sorted.
    + intros k. rewrite insert_sorted_stable by done.
      unfold with_index in *. by rewrite !filter_app, Hk.
Qed.

(** *** The images of the flat list *)

Lemma apply_images_length env targets :
  forall k all, length (apply_images env k targets all) = length all.
Proof.
  induction targets as [|i targets IH]; intros k all; simpl; [done|].
  rewrite IH. destruct (image_for_block env k); [|done].
  apply length_insert.
Qed.

Lemma apply_images_other env targets i :
  i ∉ targets ->
  forall k all, apply_images env k targets all !! i = all !! i.
Proof.
  induction targets as [|t targets IH]; intros Hi k all; simpl; [done|].
  apply not_elem_of_cons in Hi as [Hne Hi]. rewrite IH by done.
  destruct (image_for_block env k); [|done].
  by rewrite list_lookup_insert_ne.
Qed.

Lemma page_image_blocks_targets all targets i :
  page_image_blocks all = Some targets -> i ∈ targets ->
  exists b, all !! i = Some b /\ has_type "PAGE_IMAGE" b = true.
Proof.
  unfold page_image_blocks. destruct (forallb _ all); [|done].
  intros H Hi. inversion H; subst. clear H.
  apply list_elem_of_omap in Hi as (o & Ho & Hsome).
  apply elem_of_lookup_imap in Ho as (j & b & -> & Hj).
  simpl in Hsome. destruct (has_type "PAGE_IMAGE" b) eqn:Hty; [|done].
  inversion Hsome; subst. eauto.
Qed.

Lemma generate_page_images_spec env all :
  length (generate_page_images env all) = length all
  /\ forall i b, all !! i = Some b -> has_type "PAGE_IMAGE" b = false ->
       generate_page_images env all !! i = Some b.
Proof.
  unfold generate_page_images.
  destruct (page_image_blocks all) as [targets|] eqn:Ht; [|done].
  split; [apply apply_images_length|].
  intros i b Hb Hty. rewrite apply_images_other; [done|].
  intros Hi. destruct (page_image_blocks_targets _ _ _ Ht Hi) as (b' & Hb' & Hty').
  congruence.
Qed.

Lemma block_counts rs :
  Forall (fun r => block_count r = length (cr_blocks r)) rs ->
  sum_list (map block_count rs) = length (concat (map cr_blocks rs)).
Proof.
  induction 1 as [|r rs Hr _ IH]; simpl; [done|].
  by rewrite length_app, Hr, IH.
Qed.

(** X22.  The result of a successful transformation: one block list per
    input chunk; [total_blocks] counts the blocks of these lists; the
    flat list has that many blocks too.  Image generation works on the
    flat list only: there it replaces nothing but PAGE_IMAGE blocks, and
    [chunk_blocks] keeps the blocks as the model answered them; without
    image generation the flat list is [chunk_blocks] flattened. *)
Theorem transform_result_shape (env : Env) (content : list string)
    (generate_images : bool) (w w' : World) (r : TransformResult) :
  transform_content_to_blocks env content generate_images w = (Ok r, w') ->
  input_chunks r = length content
  /\ length (chunk_blocks r) = length content
  /\ total_blocks r = length (concat (chunk_blocks r))
  /\ length (transformed_blocks r) = total_blocks r
  /\ (forall i b, concat (chunk_blocks r) !! i = Some b ->
        has_type "PAGE_IMAGE" b = false ->
        transformed_blocks r !! i = Some b)
  /\ (generate_images = false ->
      transformed_blocks r = concat (chunk_blocks r)).
Proof.
  unfold transform_content_to_blocks. intros H.
  apply try_except_inv_Ok in H as [H|(msg & w1 & _ & H)]; [|done].
  apply bind_inv_Ok in H as (rs & w1 & Hg & H).
  apply gather_Ok in Hg as [Hlen Hrs].
  rewrite sort_results_ascending in H.
  2:{ intros j1 j2 r1 r2 Hle H1 H2.
      destruct (Hrs j1 r1 H1) as [-> _]. destruct (Hrs j2 r2 H2) as [-> _].
      lia. }
  assert (Hcount : sum_list (map block_count rs)
                   = length (concat (map cr_blocks rs))).
  { apply block_counts, Forall_forall. intros x Hx.
    apply list_elem_of_lookup in Hx as [j Hj]. by destruct (Hrs j x Hj) as (_ & ? & _). }
  destruct (generate_page_images_spec env (concat (map cr_blocks rs)))
    as [Hglen Hgother].
  inversion H; subst; simpl. clear H.
  split; [done|]. split; [by rewrite length_map|]. split; [done|].
  destruct generate_images.
  - split; [by rewrite Hglen|]. split; [exact Hgother|done].
  - split; [done|]. split; [by intros|done].
Qed.

Definition two_chunks : Env :=
  mkEnv (fun _ _ => Ok "answer") (fun _ => 0.5%Q)
        (fun _ => [BDict {[ "type" := "TEXT" ]};
                   BDict {[ "type" := "PAGE_IMAGE" ]}])
        (fun _ => Ok (BDict {[ "type" := "PAGE_IMAGE"; "url" := "https://img" ]})).

Lemma transform_result_witness :
  exists r w',
    transform_content_to_blocks two_chunks ["a"; "b"] true (mkWorld [] 0)
    = (Ok r, w')
    /\ total_blocks r = 4%nat
    /\ transformed_blocks r !! 1%nat
       = Some (BDict {[ "type" := "PAGE_IMAGE"; "url" := "https://img" ]})
    /\ input_chunks r = 2%nat
    /\ length (chunk_blocks r) = 2%nat
    /\ total_blocks r = length (concat (chunk_blocks r))
    /\ length (transformed_blocks r) = total_blocks r
    /\ (forall i b, concat (chunk_blocks r) !! i = Some b ->
          has_type "PAGE_IMAGE" b = false ->
          transformed_blocks r !! i = Some b)
    /\ (true = false -> transformed_blocks r = concat (chunk_blocks r)).
Proof.
  destruct (transform_content_to_blocks two_chunks ["a"; "b"] true
              (mkWorld [] 0)) as [[r|e] w'] eqn:Hrun;
    [| by vm_compute in Hrun].
  exists r, w'. split; [done|].
  split; [vm_compute in Hrun; by inversion Hrun|].
  split; [vm_compute in Hrun; by inversion Hrun|].
  exact (transform_result_shape two_chunks ["a"; "b"] true (mkWorld [] 0) w' r
           Hrun).
Defined.

End TransformationExtra.

(** ** Keys of the uploaded results *)

Module S3Facts.
Import S3JsonUploader.

Lemma string_app_inv_head (p a b : string) : p +:+ a = p +:+ b -> a = b.
Proof. induction p as [|c p IH]; simpl; [done|]. intros H. apply IH. by inversion H. Qed.

Lemma string_app_length (a b : string) :
  String.length (a +:+ b) = (String.length a + String.length b)%nat.
Proof. induction a as [|c a IH]; simpl; [done|]. by rewrite IH. Qed.

Lemma string_app_inv_tail (s a b : string) : a +:+ s = b +:+ s -> a = b.
Proof.
  revert b. induction a as [|c a IH]; intros [|c' b] H.
  - done.
  - apply (f_equal String.length) in H.
    change ("" +:+ s) with s in H.
    change (String c' b +:+ s) with (String c' (b +:+ s)) in H.
    change (String.length (String c' (b +:+ s)))
      with (S (String.length (b +:+ s))) in H.
    rewrite string_app_length in H. lia.
  - apply (f_equal String.length) in H.
    change ("" +:+ s) with s in H.
    change (String c a +:+ s) with (String c (a +:+ s)) in H.
    change (String.length (String c (a +:+ s)))
      with (S (String.length (a +:+ s))) in H.
    rewrite string_app_length in H. lia.
  - change (String c (a +:+ s) = String c' (b +:+ s)) in H.
    inversion H; subst. f_equal. by apply IH.
Qed.

(** X23.  The object key built for a job starts with the configured
    prefix, and two different job ids get two different keys under the
    same configuration and date: the results of two jobs never share an
    object. *)
Theorem generate_s3_key_injective (env : Env) (job1 job2 : string) :
  job1 <> job2 ->
  generate_s3_key env job1 <> generate_s3_key env job2
  /\ PyStr.startswith (prefix env) (generate_s3_key env job1) = true.
Proof.
  intros Hne. split.
  - unfold generate_s3_key. intros H. apply Hne.
    do 3 apply string_app_inv_head in H.
    by apply string_app_inv_tail in H.
  - unfold generate_s3_key, PyStr.startswith.
    generalize (current_date env +:+ "/" +:+ job1 +:+ ".json").
    generalize (prefix env). intros p s.
    induction p as [|c p IH]; simpl; [by destruct s|].
    destruct (Ascii.ascii_dec c c); [exact IH|done].
Qed.

Lemma generate_s3_key_witness :
  let env := mkEnv "dyslexia-pdf" "dyslexia-results/" "ap-northeast-2" None
                   "2025/01/01" true (Ok tt) (Raise (Exception "unused")) in
  generate_s3_key env "J1" = "dyslexia-results/2025/01/01/J1.json"
  /\ generate_s3_key env "J2" = "dyslexia-results/2025/01/01/J2.json"
  /\ generate_s3_key env "J1" <> generate_s3_key env "J2"
  /\ PyStr.startswith (prefix env) (generate_s3_key env "J1") = true.
Proof.
  split; [reflexivity|]. split; [reflexivity|].
  apply (generate_s3_key_injective _ "J1" "J2"). discriminate.
Defined.

End S3Facts.

(** ** The callback URL and the callback *)

Module CallbackFacts.
Import EnvConfig.

Lemma is_blank_lstrip s : PyStr.is_blank (lstrip s) = PyStr.is_blank s.
Proof.
  induction s as [|c s IH]; simpl; [done|].
  destruct (PyStr.is_space c) eqn:Hc; simpl; [done|]. by rewrite Hc.
Qed.

Lemma is_blank_rstrip s : PyStr.is_blank (rstrip s) = PyStr.is_blank s.
Proof.
  unfold rstrip. induction s as [|c s IH]; simpl; [done|].
  destruct (rstrip_by PyStr.is_space s) as [|c' rest] eqn:Hr; simpl in *.
  - rewrite <- IH. destruct (PyStr.is_space c) eqn:Hc; simpl; [done|].
    by rewrite Hc.
  - by rewrite <- IH.
Qed.

Lemma is_blank_strip s : PyStr.is_blank (strip s) = PyStr.is_blank s.
Proof. unfold strip. by rewrite is_blank_rstrip, is_blank_lstrip. Qed.

Lemma is_blank_app a b :
  PyStr.is_blank (a +:+ b) = PyStr.is_blank a && PyStr.is_blank b.
Proof.
  induction a as [|c a IH]; simpl; [done|]. by rewrite IH, andb_assoc.
Qed.

Lemma slash_not_blank s : PyStr.is_blank (String "/" s) = false.
Proof. reflexivity. Qed.

Lemma slash_path_not_blank path :
  PyStr.is_blank (if PyStr.startswith "/" path then path else "/" +:+ path)
  = false.
Proof.
  unfold PyStr.startswith.
  destruct path as [|c path]; [reflexivity|].
  change (String.prefix "/" (String c path))
    with (if Ascii.ascii_dec "/" c then String.prefix "" path else false).
  destruct (Ascii.ascii_dec "/" c) as [<-|Hne]; [|apply slash_not_blank].
  destruct path; apply slash_not_blank.
Qed.

(** Neither the full URL nor the base URL is configured. *)
Definition unconfigured (getenv : string -> option string) : Prop :=
  present (getenv "SPRING_CALLBACK_URL") = false
  /\ present (getenv "SPRING_SERVER_BASE_URL") = false.

(** X24.  [get_spring_callback_url] never hands back a blank URL.  It
    answers [None] only when it is not required and neither
    SPRING_CALLBACK_URL nor SPRING_SERVER_BASE_URL holds a non-blank
    value; with [required=True] it raises in exactly that situation
    instead.  A non-blank SPRING_CALLBACK_URL wins over the base URL and
    is returned stripped. *)
Theorem callback_url_never_blank (getenv : string -> option string)
    (required : bool) :
  match get_spring_callback_url getenv required with
  | Ok (Some url) =>
      PyStr.is_blank url = false
      /\ ~ unconfigured getenv
      /\ (forall direct, getenv "SPRING_CALLBACK_URL" = Some direct ->
            PyStr.is_blank direct = false -> url = strip direct)
  | Ok None => required = false /\ unconfigured getenv
  | Raise e => required = true /\ unconfigured getenv
               /\ exists msg, e = Exception msg
  end.
Proof.
  unfold get_spring_callback_url, unconfigured.
  destruct (present (getenv "SPRING_CALLBACK_URL")) eqn:Hd.
  - split; [|split].
    + unfold present in Hd. destruct (getenv "SPRING_CALLBACK_URL") as [d|];
        [|done]. simpl. rewrite is_blank_strip. by apply negb_true_iff.
    + by intros [? ?].
    + by intros direct ->.
  - destruct (present (getenv "SPRING_SERVER_BASE_URL")) eqn:Hb.
    + split; [|split].
      * rewrite is_blank_app, slash_path_not_blank. apply andb_false_r.
      * by intros [? ?].
      * intros direct Hdir Hblank. unfold present in Hd.
        rewrite Hdir, Hblank in Hd. done.
    + destruct required; [|done]. split; [done|]. split; [done|]. eauto.
Qed.



End CallbackFacts.

(** ** What the tracker reports *)

Module TrackerReportFacts.
Import ProgressTracker ProgressTrackerFacts TrackerReport.

Definition complete (x : pyfloat) : Prop := feq x (Finite 100).


Definition step_names : list string :=
  ["preprocessing"; "block_transformation"; "phoneme_analysis";
   "block_word_phoneme_analysis"; "post_processing"].

(** X27.  [finish()] leaves the tracker where completing the five steps
    one by one leaves it: every step at 100 and the overall value 100,
    whatever the tracker held before.  It saves once where the five
    [complete_step] calls save five times, and its report is 100 with
    [output_id]. *)
Theorem finish_agrees_with_completing_all_steps (t : Tracker) :
  let t1 := (finish t).1 in
  let t2 := foldl (fun t s => complete_step s t) t step_names in
  steps (progress t1) = steps (progress t2)
  /\ Forall complete (steps (progress t1))
  /\ feq (overall (progress t1)) (overall (progress t2))
  /\ length (saved t1) = S (length (saved t))
  /\ length (saved t2) = (5 + length (saved t))%nat
  /\ feq (report_progress (finish t).2) (Finite 100)
  /\ output_id (finish t).2 = true.
Proof.
  intros t1 t2. subst t1 t2. destruct t as [p s]. simpl.
  split; [reflexivity|].
  split; [repeat constructor; simpl; reflexivity|].
  split; [vm_compute; reflexivity|].
  split; [rewrite length_app; simpl; lia|].
  split; [rewrite !length_app; simpl; lia|].
  split; [vm_compute; reflexivity|reflexivity].
Qed.

End TrackerReportFacts.
